(** * PDF overlay editor: the edit store, extraction, export and zoom

    A shallow embedding of the [PDFEditor] component (the React component
    holding [textEdits], [imageEdits] and [scale], with the handlers
    [extractTextFromPage], [updateEdit], [deleteEdit], [downloadEditedPDF],
    [zoomIn] and [zoomOut]), and the properties of its specification.

    Conventions of the model.
    - A JavaScript [number] is an exact rational ([Q]); coordinates are
      compared with [==].  The concrete inputs used below are small dyadic
      numbers, on which double arithmetic is exact.
    - A string is the sequence of its UTF-8 bytes.
    - The component state and the observable effects (requests sent to the
      database, toasts, console errors, downloads) live in one record
      [State]; a handler is a function [Env -> ... -> State -> State].
    - A handler reads the [textEdits] of the render it was created in (its
      closure), and one that awaits the persistence layer is split at its
      [await]: the part up to the request, and [settle], run when the
      answer arrives.  [updateEdit] and [deleteEdit] are the handler called
      from the current render and answered before anything else happens;
      [updateEdit_from] and [deleteEdit_from] take the closure's list, as
      the Delete-key listener needs.
    - What the outside world answers is read from an [Env]: the values of
      [crypto.randomUUID()], whether a database request returns an error,
      what pdf.js and pdf-lib return for the document. *)

From Stdlib Require Import QArith Qminmax Qabs ZArith List String Ascii Bool Lia Lqa.
Import ListNotations.
Open Scope string_scope.
Open Scope list_scope.
Open Scope Z_scope.
Open Scope Q_scope.

(** ** Identities *)

(** An entry's [id] is a string of one of two shapes: the template
    [original-${pageNum}-${x}-${y}] built by the extraction, or a UUID
    (from [crypto.randomUUID()] or a database row).  The two shapes are
    kept apart by constructors; two template ids are the same string when
    the page and the two numbers are the same. *)
Inductive EditId : Type :=
| OriginalId (pageNum : Z) (x y : Q)
| Uuid (u : string).

(** [a === b] on ids. *)
Definition id_eqb (a b : EditId) : bool :=
  match a, b with
  | OriginalId p x y, OriginalId p' x' y' =>
      Z.eqb p p' && Qeq_bool x x' && Qeq_bool y y'
  | Uuid u, Uuid u' => String.eqb u u'
  | _, _ => false
  end.

(** ** Data model *)

Record TextEdit : Type := mkTextEdit {
  id : EditId;
  page_number : Z;
  content : string;
  position_x : Q;
  position_y : Q;
  font_size : Q;
  color : string;
  isEditing : option bool;
  isOriginal : option bool
}.

Record ImageEdit : Type := mkImageEdit {
  img_id : EditId;
  img_page_number : Z;
  image_url : string;
  img_position_x : Q;
  img_position_y : Q;
  width : Q;
  height : Q;
  is_deleted : bool
}.

(** Truthiness of the optional flag [edit.isOriginal]. *)
Definition is_original (edit : TextEdit) : bool :=
  match isOriginal edit with
  | Some true => true
  | _ => false
  end.

Record Mask : Type := mkMask { mask_x : Q; mask_y : Q; mask_w : Q; mask_h : Q }.

(** ** The persistence layer, as seen from the component *)

(** The row handed to [supabase.from("pdf_edits").insert] for a text edit. *)
Record TextRow : Type := mkTextRow {
  row_id : EditId;
  row_report_id : string;
  row_page_number : Z;
  row_content : string;
  row_position_x : Q;
  row_position_y : Q;
  row_font_size : Q;
  row_color : string
}.

Inductive DbCall : Type :=
| DbInsert (row : TextRow)
| DbUpdateContent (target : EditId) (new_content : string)
| DbUpdateDeleted (target : EditId)
| DbDelete (target : EditId).

Record Toast : Type := mkToast {
  title : string;
  description : string;
  destructive : bool
}.

(** ** The exported document *)

Inductive ImageKind : Type := Png | Jpg.

Inductive DrawOp : Type :=
| DrawText (page_index : nat) (text : string) (x y size : Q) (r g b : Q)
| DrawImage (page_index : nat) (kind : ImageKind) (url : string)
            (x y w h : Q).

(** ** pdf.js text items *)

Record TextItem : Type := mkTextItem {
  str : option string;
  transform : Q * Q * Q * Q * Q * Q;   (* [a, b, c, d, e, f] *)
  item_width : option Q;
  item_height : option Q
}.

Record PdfJsPage : Type := mkPdfJsPage {
  page_view_height : Q;           (* height of the page, in PDF units *)
  text_items : list TextItem      (* page.getTextContent().items *)
}.

(** ** The outside world *)

Record Env : Type := mkEnv {
  reportId : string;
  randomUUID : nat -> string;          (* the k-th crypto.randomUUID() *)
  db_error : nat -> bool;              (* does the k-th request fail *)
  getPage : Z -> option PdfJsPage;     (* None: getPage/getTextContent rejects *)
  pdf_load : option (list Q);          (* pdf-lib: page heights; None: load rejects *)
  fetch_image : string -> bool;        (* fetch(url).arrayBuffer() resolves *)
  embedPng : string -> bool;           (* pdfDoc.embedPng resolves *)
  embedJpg : string -> bool;           (* pdfDoc.embedJpg resolves *)
  drawText_ok : string -> bool;        (* page.drawText returns: the standard
                                          font can encode the text *)
  save_ok : bool                       (* pdfDoc.save() resolves *)
}.

(** ** Component state and effect logs *)

Record State : Type := mkState {
  currentPage : Z;
  scale : Q;
  textEdits : list TextEdit;
  imageEdits : list ImageEdit;
  originalMasks : list (Z * list Mask);
  db_log : list DbCall;                (* requests sent, oldest first *)
  toasts : list Toast;
  console : list string;               (* console.error lines *)
  uuid_count : nat;                    (* calls to crypto.randomUUID() so far *)
  downloads : list (list DrawOp)       (* PDFs offered for download *)
}.

Definition initial_state : State :=
  {| currentPage := 1%Z; scale := 3 # 2; textEdits := []; imageEdits := [];
     originalMasks := []; db_log := []; toasts := []; console := [];
     uuid_count := 0; downloads := [] |}.

Definition setScale (s : Q) (st : State) : State :=
  {| currentPage := currentPage st; scale := s; textEdits := textEdits st;
     imageEdits := imageEdits st; originalMasks := originalMasks st;
     db_log := db_log st; toasts := toasts st; console := console st;
     uuid_count := uuid_count st; downloads := downloads st |}.

Definition setTextEdits (l : list TextEdit) (st : State) : State :=
  {| currentPage := currentPage st; scale := scale st; textEdits := l;
     imageEdits := imageEdits st; originalMasks := originalMasks st;
     db_log := db_log st; toasts := toasts st; console := console st;
     uuid_count := uuid_count st; downloads := downloads st |}.

Definition setImageEdits (l : list ImageEdit) (st : State) : State :=
  {| currentPage := currentPage st; scale := scale st; textEdits := textEdits st;
     imageEdits := l; originalMasks := originalMasks st;
     db_log := db_log st; toasts := toasts st; console := console st;
     uuid_count := uuid_count st; downloads := downloads st |}.

Definition setOriginalMasks (m : list (Z * list Mask)) (st : State) : State :=
  {| currentPage := currentPage st; scale := scale st; textEdits := textEdits st;
     imageEdits := imageEdits st; originalMasks := m;
     db_log := db_log st; toasts := toasts st; console := console st;
     uuid_count := uuid_count st; downloads := downloads st |}.

(** Sending a request: it is appended to the log; the answer is read later
    with [db_error] at the request's index. *)
Definition db_send (c : DbCall) (st : State) : State :=
  {| currentPage := currentPage st; scale := scale st; textEdits := textEdits st;
     imageEdits := imageEdits st; originalMasks := originalMasks st;
     db_log := db_log st ++ [c]; toasts := toasts st; console := console st;
     uuid_count := uuid_count st; downloads := downloads st |}.

Definition toast (t : Toast) (st : State) : State :=
  {| currentPage := currentPage st; scale := scale st; textEdits := textEdits st;
     imageEdits := imageEdits st; originalMasks := originalMasks st;
     db_log := db_log st; toasts := toasts st ++ [t]; console := console st;
     uuid_count := uuid_count st; downloads := downloads st |}.

Definition console_error (msg : string) (st : State) : State :=
  {| currentPage := currentPage st; scale := scale st; textEdits := textEdits st;
     imageEdits := imageEdits st; originalMasks := originalMasks st;
     db_log := db_log st; toasts := toasts st; console := console st ++ [msg];
     uuid_count := uuid_count st; downloads := downloads st |}.

Definition take_uuid (st : State) : State :=
  {| currentPage := currentPage st; scale := scale st; textEdits := textEdits st;
     imageEdits := imageEdits st; originalMasks := originalMasks st;
     db_log := db_log st; toasts := toasts st; console := console st;
     uuid_count := S (uuid_count st); downloads := downloads st |}.

Definition offer_download (doc : list DrawOp) (st : State) : State :=
  {| currentPage := currentPage st; scale := scale st; textEdits := textEdits st;
     imageEdits := imageEdits st; originalMasks := originalMasks st;
     db_log := db_log st; toasts := toasts st; console := console st;
     uuid_count := uuid_count st; downloads := downloads st ++ [doc] |}.

(** ** Zoom *)

Definition zoomIn (st : State) : State := setScale (Qmin (scale st + (1 # 4)) 3) st.
Definition zoomOut (st : State) : State := setScale (Qmax (scale st - (1 # 4)) (1 # 2)) st.

(** ** Coordinate transforms *)

(** pdf.js: the viewport of an unrotated page at a render scale. *)
Definition viewport_height (pageHeight scale : Q) : Q := pageHeight * scale.

(** Extraction time, PDF space to canvas space:
    [x = transform[4]], [y = viewport.height - transform[5]]. *)
Definition toCanvas (pdfX pdfY pageHeight scale : Q) : Q * Q :=
  (pdfX, viewport_height pageHeight scale - pdfY).

(** Export time, canvas space to PDF space: [x: position_x],
    [y: height - position_y - size] where [height] is the PDF page's height
    and [size] is the font size of a text entry or the height of an image. *)
Definition toPdf (canvasX canvasY pageHeight size : Q) : Q * Q :=
  (canvasX, pageHeight - canvasY - size).

(** ** Text extraction *)

(** The white space and line terminator characters that
    [String.prototype.trim] strips, by their UTF-8 encodings: in one byte
    U+0009 to U+000D and U+0020; in two bytes U+00A0; in three bytes
    U+1680, U+2000 to U+200A, U+2028, U+2029, U+202F, U+205F, U+3000 and
    U+FEFF. *)
Definition is_space (c : ascii) : bool :=
  match nat_of_ascii c with
  | 9%nat | 10%nat | 11%nat | 12%nat | 13%nat | 32%nat => true
  | _ => false
  end.

Definition is_space2 (c1 c2 : ascii) : bool :=
  Nat.eqb (nat_of_ascii c1) 194 && Nat.eqb (nat_of_ascii c2) 160.

Definition is_space3 (c1 c2 c3 : ascii) : bool :=
  let b1 := nat_of_ascii c1 in
  let b2 := nat_of_ascii c2 in
  let b3 := nat_of_ascii c3 in
  (Nat.eqb b1 225 && Nat.eqb b2 154 && Nat.eqb b3 128)
  || (Nat.eqb b1 226 && Nat.eqb b2 128
      && ((Nat.leb 128 b3 && Nat.leb b3 138)
          || Nat.eqb b3 168 || Nat.eqb b3 169 || Nat.eqb b3 175))
  || (Nat.eqb b1 226 && Nat.eqb b2 129 && Nat.eqb b3 159)
  || (Nat.eqb b1 227 && Nat.eqb b2 128 && Nat.eqb b3 128)
  || (Nat.eqb b1 239 && Nat.eqb b2 187 && Nat.eqb b3 191).

(** The bytes left after one white space character at the head. *)
Definition space_prefix (l : list ascii) : option (list ascii) :=
  match l with
  | c1 :: r1 =>
      if is_space c1 then Some r1
      else match r1 with
           | c2 :: r2 =>
               if is_space2 c1 c2 then Some r2
               else match r2 with
                    | c3 :: r3 => if is_space3 c1 c2 c3 then Some r3 else None
                    | [] => None
                    end
           | [] => None
           end
  | [] => None
  end.

(** The same at the tail, on the reversed bytes. *)
Definition space_suffix (l : list ascii) : option (list ascii) :=
  match l with
  | c1 :: r1 =>
      if is_space c1 then Some r1
      else match r1 with
           | c2 :: r2 =>
               if is_space2 c2 c1 then Some r2
               else match r2 with
                    | c3 :: r3 => if is_space3 c3 c2 c1 then Some r3 else None
                    | [] => None
                    end
           | [] => None
           end
  | [] => None
  end.

(** Strip while [pre] finds something to strip ([fuel] bounds the steps;
    the length of the list is enough). *)
Fixpoint strip (pre : list ascii -> option (list ascii)) (fuel : nat)
  (l : list ascii) : list ascii :=
  match fuel with
  | O => l
  | S fuel' =>
      match pre l with
      | Some rest => strip pre fuel' rest
      | None => l
      end
  end.

Definition trim_start (l : list ascii) : list ascii :=
  strip space_prefix (List.length l) l.

Definition trim_end (l : list ascii) : list ascii :=
  rev (strip space_suffix (List.length l) (rev l)).

(** [String.prototype.trim] *)
Definition trim (s : string) : string :=
  string_of_list_ascii (trim_end (trim_start (list_ascii_of_string s))).

(** [str.length]: the number of UTF-16 code units of the string. *)
Definition utf16_units (c : ascii) : nat :=
  let b := nat_of_ascii c in
  if Nat.ltb b 128 then 1%nat
  else if Nat.ltb b 192 then 0%nat
  else if Nat.ltb b 240 then 1%nat
  else 2%nat.

Definition js_length (s : string) : nat :=
  fold_right (fun c n => (utf16_units c + n)%nat) 0%nat (list_ascii_of_string s).

(** [v || d] on an optional number: [undefined] and [0] are falsy. *)
Definition num_or (v : option Q) (d : Q) : Q :=
  match v with
  | Some n => if Qeq_bool n 0 then d else n
  | None => d
  end.

(** The body of [textContent.items.forEach]: what one item pushes. *)
Definition extract_item (pageNum : Z) (viewportHeight : Q) (item : TextItem)
  : option (TextEdit * Mask) :=
  match str item with
  | None => None
  | Some raw =>
      let s := trim raw in
      if String.eqb s "" then None else
      let '(t0, _, _, _, t4, t5) := transform item in
      let x := t4 in
      let yPdf := t5 in
      let y := viewportHeight - yPdf in
      let a := Qabs t0 in
      let fontSize := if Qeq_bool a 0 then Qmax (num_or (item_height item) 0) 10 else a in
      let w := num_or (item_width item)
                 (inject_Z (Z.of_nat (js_length s)) * fontSize * (6 # 10)) in
      let h := fontSize * (12 # 10) in
      Some ({| id := OriginalId pageNum x y;
               page_number := pageNum;
               content := s;
               position_x := x;
               position_y := y;
               font_size := fontSize;
               color := "#000000";
               isEditing := None;
               isOriginal := Some true |},
            {| mask_x := x; mask_y := y - h + fontSize * (2 # 10);
               mask_w := w; mask_h := h |})
  end.

Fixpoint extract_items (pageNum : Z) (viewportHeight : Q) (items : list TextItem)
  : list TextEdit * list Mask :=
  match items with
  | [] => ([], [])
  | item :: rest =>
      let (originalTexts, masks) := extract_items pageNum viewportHeight rest in
      match extract_item pageNum viewportHeight item with
      | None => (originalTexts, masks)
      | Some (t, m) => (t :: originalTexts, m :: masks)
      end
  end.

(** [{ ...prev, [pageNum]: masks }] *)
Definition put_masks (pageNum : Z) (masks : list Mask) (prev : list (Z * list Mask))
  : list (Z * list Mask) :=
  (pageNum, masks) :: filter (fun kv => negb (Z.eqb (fst kv) pageNum)) prev.

(** The updater passed to [setTextEdits] by the extraction. *)
Definition merge_extracted (pageNum : Z) (originalTexts prevEdits : list TextEdit)
  : list TextEdit :=
  let userEdits := filter (fun edit => negb (is_original edit)) prevEdits in
  let hasCurrentOriginals :=
    existsb (fun e => is_original e && Z.eqb (page_number e) pageNum) prevEdits in
  if negb hasCurrentOriginals then userEdits ++ originalTexts else prevEdits.

(** The fragments one extraction pass derives for a page. *)
Definition derived_fragments (page : PdfJsPage) (pageNum : Z) (s : Q) : list TextEdit :=
  fst (extract_items pageNum (viewport_height (page_view_height page) s) (text_items page)).

Definition extractTextFromPage (env : Env) (pageNum : Z) (st : State) : State :=
  match getPage env pageNum with
  | None => console_error "Error extracting text:" st
  | Some page =>
      let viewportHeight := viewport_height (page_view_height page) (scale st) in
      let (originalTexts, masks) :=
        extract_items pageNum viewportHeight (text_items page) in
      let st1 := setOriginalMasks (put_masks pageNum masks (originalMasks st)) st in
      setTextEdits (merge_extracted pageNum originalTexts (textEdits st1)) st1
  end.

(** ** Mutating and removing text entries *)

Definition has_id (editId : EditId) (e : TextEdit) : bool := id_eqb (id e) editId.

(** [{ ...e, content, isOriginal: false, id: newId }] *)
Definition promote (newId : EditId) (newContent : string) (e : TextEdit) : TextEdit :=
  {| id := newId; page_number := page_number e; content := newContent;
     position_x := position_x e; position_y := position_y e;
     font_size := font_size e; color := color e;
     isEditing := isEditing e; isOriginal := Some false |}.

(** [{ ...e, content }] *)
Definition with_content (newContent : string) (e : TextEdit) : TextEdit :=
  {| id := id e; page_number := page_number e; content := newContent;
     position_x := position_x e; position_y := position_y e;
     font_size := font_size e; color := color e;
     isEditing := isEditing e; isOriginal := isOriginal e |}.

(** The row [newEdit] that [updateEdit] inserts for an original entry. *)
Definition promotion_row (env : Env) (newId : EditId) (newContent : string)
  (edit : TextEdit) : TextRow :=
  {| row_id := newId; row_report_id := reportId env;
     row_page_number := page_number edit; row_content := newContent;
     row_position_x := position_x edit; row_position_y := position_y edit;
     row_font_size := font_size edit; row_color := color edit |}.

(** A handler suspended at its [await]: the list of its closure, what it
    was asked, and the index of the request whose answer it waits for. *)
Inductive Pending : Type :=
| PendingPromotion (closure : list TextEdit) (editId newId : EditId)
    (newContent : string) (request : nat)
| PendingUpdate (closure : list TextEdit) (editId : EditId)
    (newContent : string) (request : nat)
| PendingDelete (closure : list TextEdit) (editId : EditId) (edit : TextEdit)
    (request : nat).

(** [updateEdit] up to its [await]: [closure] is the [textEdits] of the
    render the handler was created in. *)
Definition updateEdit_request (closure : list TextEdit) (env : Env)
  (editId : EditId) (newContent : string) (st : State) : State * option Pending :=
  match find (has_id editId) closure with
  | None => (st, None)
  | Some edit =>
      if is_original edit then
        let newId := Uuid (randomUUID env (uuid_count st)) in
        let st1 := take_uuid st in
        (db_send (DbInsert (promotion_row env newId newContent edit)) st1,
         Some (PendingPromotion closure editId newId newContent
                 (List.length (db_log st1))))
      else
        (db_send (DbUpdateContent editId newContent) st,
         Some (PendingUpdate closure editId newContent (List.length (db_log st))))
  end.

Definition deleted_toast (edit : TextEdit) : Toast :=
  {| title := "Deleted";
     description := if is_original edit then "Original text hidden" else "Edit removed";
     destructive := false |}.

(** [setTextEdits(textEdits.filter(...))] and the toast of [deleteEdit]. *)
Definition remove_entry (closure : list TextEdit) (editId : EditId)
  (edit : TextEdit) (st : State) : State :=
  toast (deleted_toast edit)
    (setTextEdits (filter (fun e => negb (has_id editId e)) closure) st).

(** [deleteEdit] up to its [await]; for an Original entry nothing is
    awaited and the entry is removed at once. *)
Definition deleteEdit_request (closure : list TextEdit) (env : Env)
  (editId : EditId) (st : State) : State * option Pending :=
  match find (has_id editId) closure with
  | None => (st, None)
  | Some edit =>
      if negb (is_original edit) then
        (db_send (DbDelete editId) st,
         Some (PendingDelete closure editId edit (List.length (db_log st))))
      else (remove_entry closure editId edit st, None)
  end.

(** The rest of a suspended handler, run when the answer arrives. *)
Definition settle (env : Env) (p : Pending) (st : State) : State :=
  match p with
  | PendingPromotion closure editId newId newContent request =>
      if db_error env request then console_error "Error updating edit:" st
      else
        setTextEdits
          (map (fun e => if has_id editId e then promote newId newContent e else e)
               closure)
          st
  | PendingUpdate closure editId newContent request =>
      if db_error env request then console_error "Error updating edit:" st
      else
        setTextEdits
          (map (fun e => if has_id editId e then with_content newContent e else e)
               closure)
          st
  | PendingDelete closure editId edit request =>
      if db_error env request then console_error "Error deleting edit:" st
      else remove_entry closure editId edit st
  end.

(** A request answered before anything else happens. *)
Definition answered (env : Env) (r : State * option Pending) : State :=
  match snd r with
  | Some p => settle env p (fst r)
  | None => fst r
  end.

Definition updateEdit_from (closure : list TextEdit) (env : Env) (editId : EditId)
  (newContent : string) (st : State) : State :=
  answered env (updateEdit_request closure env editId newContent st).

Definition deleteEdit_from (closure : list TextEdit) (env : Env) (editId : EditId)
  (st : State) : State :=
  answered env (deleteEdit_request closure env editId st).

(** The handlers as the overlays call them, from the current render, when
    the answer arrives before anything else happens. *)
Definition updateEdit (env : Env) (editId : EditId) (newContent : string)
  (st : State) : State :=
  updateEdit_from (textEdits st) env editId newContent st.

Definition deleteEdit (env : Env) (editId : EditId) (st : State) : State :=
  deleteEdit_from (textEdits st) env editId st.

Definition deleteImage (env : Env) (imageId : EditId) (st : State) : State :=
  let st1 := db_send (DbUpdateDeleted imageId) st in
  if db_error env (List.length (db_log st)) then
    console_error "Error deleting image:" st1
  else
    toast {| title := "Image removed"; description := "Image deleted from PDF";
             destructive := false |}
      (setImageEdits
         (map (fun img =>
                 if id_eqb (img_id img) imageId then
                   {| img_id := img_id img; img_page_number := img_page_number img;
                      image_url := image_url img;
                      img_position_x := img_position_x img;
                      img_position_y := img_position_y img;
                      width := width img; height := height img;
                      is_deleted := true |}
                 else img)
              (imageEdits st))
         st1).

(** [deleteImage] with the [imageEdits] of its closure. *)
Definition deleteImage_from (closure : list ImageEdit) (env : Env)
  (imageId : EditId) (st : State) : State :=
  let st1 := db_send (DbUpdateDeleted imageId) st in
  if db_error env (List.length (db_log st)) then
    console_error "Error deleting image:" st1
  else
    toast {| title := "Image removed"; description := "Image deleted from PDF";
             destructive := false |}
      (setImageEdits
         (map (fun img =>
                 if id_eqb (img_id img) imageId then
                   {| img_id := img_id img; img_page_number := img_page_number img;
                      image_url := image_url img;
                      img_position_x := img_position_x img;
                      img_position_y := img_position_y img;
                      width := width img; height := height img;
                      is_deleted := true |}
                 else img)
              closure)
         st1).

(** The window's [keydown] listener.  Its effect depends on
    [selectedEditId] and [selectedImageId] only, so the [deleteEdit] and
    [deleteImage] it calls are those of the render in which the selection
    last changed: [closureTexts] and [closureImages] are the lists of that
    render. *)
Definition onKey (env : Env) (closureTexts : list TextEdit)
  (closureImages : list ImageEdit) (selectedEdit selectedImage : option EditId)
  (key : string) (st : State) : State :=
  if String.eqb key "Delete" || String.eqb key "Backspace" then
    match selectedEdit with
    | Some editId => deleteEdit_from closureTexts env editId st
    | None =>
        match selectedImage with
        | Some imageId => deleteImage_from closureImages env imageId st
        | None => st
        end
    end
  else st.

(** ** Export *)

Definition hex_digit (c : ascii) : option Z :=
  let n := Z.of_nat (nat_of_ascii c) in
  if ((48 <=? n) && (n <=? 57))%Z then Some (n - 48)%Z
  else if ((97 <=? n) && (n <=? 102))%Z then Some (n - 87)%Z
  else if ((65 <=? n) && (n <=? 70))%Z then Some (n - 55)%Z
  else None.

(** [parseInt(pair, 16) / 255] *)
Definition hex_pair (c1 c2 : ascii) : option Q :=
  match hex_digit c1, hex_digit c2 with
  | Some h, Some l => Some (inject_Z (16 * h + l) / 255)
  | _, _ => None
  end.

(** The regular expression [^#?([a-f\d]{2})([a-f\d]{2})([a-f\d]{2})$],
    case-insensitive; black when it does not match. *)
Definition hexToRgb (hex : string) : Q * Q * Q :=
  let body := match hex with
              | String "#" rest => rest
              | _ => hex
              end in
  match body with
  | String c1 (String c2 (String c3 (String c4 (String c5 (String c6 EmptyString))))) =>
      match hex_pair c1 c2, hex_pair c3 c4, hex_pair c5 c6 with
      | Some r, Some g, Some b => (r, g, b)
      | _, _, _ => (0, 0, 0)
      end
  | _ => (0, 0, 0)
  end.

(** A colour as the editor writes it: six hexadecimal digits, of either
    case, after an optional hash. *)
Definition is_hex_digit (c : ascii) : bool :=
  let n := nat_of_ascii c in
  (Nat.leb 48 n && Nat.leb n 57) || (Nat.leb 97 n && Nat.leb n 102)
  || (Nat.leb 65 n && Nat.leb n 70).

Definition is_hex_colour (hex : string) : bool :=
  let digits := match hex with
                | String "#" rest => rest
                | _ => hex
                end in
  Nat.eqb (String.length digits) 6
  && forallb is_hex_digit (list_ascii_of_string digits).

(** [pages[page_number - 1]]: the index and the page's height, or
    [undefined]. *)
Definition page_at (pages : list Q) (pageNumber : Z) : option (nat * Q) :=
  let i := (pageNumber - 1)%Z in
  if (i <? 0)%Z then None
  else match nth_error pages (Z.to_nat i) with
       | Some pageHeight => Some (Z.to_nat i, pageHeight)
       | None => None
       end.

(** Body of [for (const edit of textEdits)]: the document drawn so far
    with this edit drawn, or [None] when [page.drawText] throws (the loop
    sits in the outer [try]). *)
Definition draw_text_edit (env : Env) (pages : list Q) (doc : list DrawOp)
  (edit : TextEdit) : option (list DrawOp) :=
  if is_original edit then Some doc
  else match page_at pages (page_number edit) with
       | None => Some doc
       | Some (i, pageHeight) =>
           let '(r, g, b) := hexToRgb (color edit) in
           let (x, adjustedY) :=
             toPdf (position_x edit) (position_y edit) pageHeight (font_size edit) in
           if drawText_ok env (content edit)
           then Some (doc ++ [DrawText i (content edit) x adjustedY (font_size edit) r g b])
           else None
       end.

(** The text loop: it stops at the first edit that throws. *)
Fixpoint draw_texts (env : Env) (pages : list Q) (edits : list TextEdit)
  (doc : list DrawOp) : option (list DrawOp) :=
  match edits with
  | [] => Some doc
  | edit :: rest =>
      match draw_text_edit env pages doc edit with
      | Some doc' => draw_texts env pages rest doc'
      | None => None
      end
  end.

(** [s.includes(sub)] *)
Definition includes (sub s : string) : bool :=
  match String.index 0 sub s with
  | Some _ => true
  | None => false
  end.

Definition image_kind (url : string) : ImageKind :=
  if includes ".png" url || String.prefix "data:image/png" url then Png else Jpg.

(** The [try] block of the image loop: fetch the bytes, embed them. *)
Definition embed_image (env : Env) (url : string) : option ImageKind :=
  if fetch_image env url then
    match image_kind url with
    | Png => if embedPng env url then Some Png else None
    | Jpg => if embedJpg env url then Some Jpg else None
    end
  else None.

(** Body of [for (const imgEdit of imageEdits)]; the accumulator is the
    document drawn so far and the state (for the console). *)
Definition draw_image_edit (env : Env) (pages : list Q)
  (acc : list DrawOp * State) (imgEdit : ImageEdit) : list DrawOp * State :=
  if is_deleted imgEdit then acc
  else match page_at pages (img_page_number imgEdit) with
       | None => acc
       | Some (i, pageHeight) =>
           match embed_image env (image_url imgEdit) with
           | Some kind =>
               let (x, adjustedY) :=
                 toPdf (img_position_x imgEdit) (img_position_y imgEdit)
                       pageHeight (height imgEdit) in
               (fst acc ++ [DrawImage i kind (image_url imgEdit) x adjustedY
                              (width imgEdit) (height imgEdit)],
                snd acc)
           | None => (fst acc, console_error "Failed to embed image:" (snd acc))
           end
       end.

Definition generating_toast : Toast :=
  {| title := "Generating PDF";
     description := "Please wait while we create your edited PDF...";
     destructive := false |}.

Definition success_toast : Toast :=
  {| title := "Success";
     description := "Your edited PDF has been downloaded";
     destructive := false |}.

Definition error_toast : Toast :=
  {| title := "Error";
     description := "Failed to generate PDF. Please try again.";
     destructive := true |}.

(** The outer [catch] of [downloadEditedPDF]. *)
Definition export_failed (st : State) : State :=
  toast error_toast (console_error "Error generating PDF:" st).

Definition downloadEditedPDF (env : Env) (st : State) : State :=
  let st0 := toast generating_toast st in
  match pdf_load env with
  | None => export_failed st0
  | Some pages =>
      match draw_texts env pages (textEdits st) [] with
      | None => export_failed st0
      | Some doc =>
          let (doc', st1) :=
            fold_left (draw_image_edit env pages) (imageEdits st) (doc, st0) in
          if save_ok env then toast success_toast (offer_download doc' st1)
          else export_failed st1
      end
  end.

(** ** Events

    The events of the store, each handled by the handler of the current
    render and to its end (its request answered) before the next one
    arrives.  Runs in which an answer arrives after another event are
    written with [updateEdit_request], [deleteEdit_request] and [settle]. *)

Inductive Event : Type :=
| ZoomInClicked
| ZoomOutClicked
| PageRendered (pageNum : Z)
| ContentChanged (editId : EditId) (newContent : string)
| DeleteClicked (editId : EditId)
| ImageDeleteClicked (imageId : EditId)
| DownloadRequested.

Definition handle (env : Env) (st : State) (ev : Event) : State :=
  match ev with
  | ZoomInClicked => zoomIn st
  | ZoomOutClicked => zoomOut st
  | PageRendered pageNum => extractTextFromPage env pageNum st
  | ContentChanged editId newContent => updateEdit env editId newContent st
  | DeleteClicked editId => deleteEdit env editId st
  | ImageDeleteClicked imageId => deleteImage env imageId st
  | DownloadRequested => downloadEditedPDF env st
  end.

Definition run (env : Env) (evs : list Event) (st : State) : State :=
  fold_left (handle env) evs st.

(** ** The export as the specification words it *)

(** A page number refers to a page of the document (pages are numbered
    from 1). *)
Definition page_exists (pages : list Q) (pageNumber : Z) : bool :=
  ((1 <=? pageNumber) && (pageNumber <=? Z.of_nat (List.length pages)))%Z.

Definition exported_text (pages : list Q) (e : TextEdit) : bool :=
  negb (is_original e) && page_exists pages (page_number e).

Definition exported_image (pages : list Q) (img : ImageEdit) : bool :=
  negb (is_deleted img) && page_exists pages (img_page_number img).

Definition text_drawing (pages : list Q) (e : TextEdit) : DrawOp :=
  let i := Z.to_nat (page_number e - 1) in
  let pageHeight := nth i pages 0 in
  let '(r, g, b) := hexToRgb (color e) in
  DrawText i (content e) (position_x e)
    (pageHeight - position_y e - font_size e) (font_size e) r g b.

Definition image_drawing (pages : list Q) (img : ImageEdit) : DrawOp :=
  let i := Z.to_nat (img_page_number img - 1) in
  let pageHeight := nth i pages 0 in
  DrawImage i (image_kind (image_url img)) (image_url img) (img_position_x img)
    (pageHeight - img_position_y img - height img) (width img) (height img).

Definition image_ok (env : Env) (img : ImageEdit) : bool :=
  match embed_image env (image_url img) with
  | Some _ => true
  | None => false
  end.

(** A text the export has to draw can be drawn, and all of them can. *)
Definition text_draws (env : Env) (pages : list Q) (e : TextEdit) : bool :=
  negb (exported_text pages e) || drawText_ok env (content e).

Definition texts_draw (env : Env) (pages : list Q) (st : State) : bool :=
  forallb (text_draws env pages) (textEdits st).

(** An image that reaches the document, and one whose bytes cannot be
    fetched or decoded. *)
Definition embedded_image (env : Env) (pages : list Q) (img : ImageEdit) : bool :=
  exported_image pages img && image_ok env img.

Definition failed_image (env : Env) (pages : list Q) (img : ImageEdit) : bool :=
  exported_image pages img && negb (image_ok env img).

(** [n] lines "Failed to embed image:" on the console. *)
Definition log_embed_failures (n : nat) (st : State) : State :=
  Nat.iter n (console_error "Failed to embed image:") st.

(** The document the export draws: the text drawings, then the image
    drawings. *)
Definition exported_document (env : Env) (pages : list Q) (st : State)
  : list DrawOp :=
  map (text_drawing pages) (filter (exported_text pages) (textEdits st))
  ++ map (image_drawing pages) (filter (embedded_image env pages) (imageEdits st)).

(** ** The claims of the specification that the code does not meet,
       as the specification words them *)

Definition user_authored (e : TextEdit) : bool := negb (is_original e).

Definition original_on (pageNum : Z) (e : TextEdit) : bool :=
  is_original e && Z.eqb (page_number e) pageNum.

Definition original_elsewhere (pageNum : Z) (e : TextEdit) : bool :=
  is_original e && negb (Z.eqb (page_number e) pageNum).

(** "Replace all Original entries for the page with freshly derived ones;
    leave all UserAuthored entries untouched" (and the Original entries of
    the other pages too): [next] is [prev] after such an extraction. *)
Definition extraction_replaces_page (pageNum : Z) (fresh prev next : list TextEdit)
  : Prop :=
  filter (original_on pageNum) next = fresh
  /\ filter user_authored next = filter user_authored prev
  /\ filter (original_elsewhere pageNum) next
     = filter (original_elsewhere pageNum) prev.

(** "toPdf(toCanvas(x, y, pageHeight, scale), pageHeight, scale) == (x, y)". *)
Definition round_trips (x y pageHeight s size : Q) : Prop :=
  let c := toCanvas x y pageHeight s in
  let p := toPdf (fst c) (snd c) pageHeight size in
  fst p == x /\ snd p == y.

(** "The export draws exactly the non-Original text entries and the
    non-deleted image entries" (each on a page the document has). *)
Definition export_as_specified (env : Env) (pages : list Q) (st : State) : Prop :=
  downloads (downloadEditedPDF env st)
  = downloads st
    ++ [ map (text_drawing pages) (filter (exported_text pages) (textEdits st))
         ++ map (image_drawing pages)
              (filter (exported_image pages) (imageEdits st)) ].

(** "Mutating the same Original entry's content twice produces exactly one
    UserAuthored entry, and the first promotion's durable id is the one
    retained": [before] and [after] are the entries before and after the
    two mutations, [firstId] the id the first one allocated. *)
Definition promoted_once (firstId : EditId) (before after : list TextEdit) : Prop :=
  List.length (filter user_authored after)
  = S (List.length (filter user_authored before))
  /\ List.length (filter (has_id firstId) after) = 1%nat.

(** "The Edit Store contains zero Original entries for that fragment and
    exactly one UserAuthored entry carrying the new content; exactly one
    insert call is issued": the fragment's Original had the id [originalId]. *)
Definition edit_replaces_original (originalId : EditId) (newContent : string)
  (before after : State) : Prop :=
  filter (fun x => is_original x && has_id originalId x) (textEdits after) = []
  /\ List.length (filter (fun x => user_authored x
                                   && String.eqb (content x) newContent)
                    (textEdits after)) = 1%nat
  /\ List.length (db_log after) = S (List.length (db_log before)).

(** "If the target is a UserAuthored entry, a durable delete keyed by its
    id is issued and the entry is removed from the in-memory set." *)
Definition removed_durably (targetId : EditId) (before after : State) : Prop :=
  db_log after = db_log before ++ [DbDelete targetId]
  /\ (forall x, In x (textEdits after) -> has_id targetId x = false).

(** "Invoking the update or delete operation with an id that is not
    present in the in-memory edit set is a no-op": [before] and [after] are
    the states around the invocation. *)
Definition absent_from_memory (targetId : EditId) (st : State) : Prop :=
  (forall e, In e (textEdits st) -> has_id targetId e = false)
  /\ (forall img, In img (imageEdits st) -> id_eqb (img_id img) targetId = false).

Definition absent_id_noop (targetId : EditId) (before after : State) : Prop :=
  absent_from_memory targetId before -> after = before.

(** "The whole export aborts with a user-visible error and no PDF output
    is produced." *)
Definition export_aborts (env : Env) (st : State) : Prop :=
  let st' := downloadEditedPDF env st in
  downloads st' = downloads st /\ In error_toast (toasts st').

(** The render scale lies in [0.5, 3.0]. *)
Definition scale_in_range (st : State) : Prop := 1 # 2 <= scale st /\ scale st <= 3.

(** The render scale is a multiple of 0.25 (on such values the additions
    and comparisons of the zoom handlers are exact in double arithmetic). *)
Definition on_quarter_grid (st : State) : Prop :=
  exists k : Z, scale st == inject_Z k * (1 # 4).

(** ** A sample document

    One page, 800 units tall, with the text item "Total: $42" at transform
    [12, 0, 0, 12, 50, 700]; a second page with one item. *)

Definition total_item : TextItem :=
  {| str := Some "Total: $42"; transform := (12, 0, 0, 12, 50, 700);
     item_width := Some 60; item_height := Some 12 |}.

Definition footer_item : TextItem :=
  {| str := Some " page 2 "; transform := (10, 0, 0, 10, 40, 30);
     item_width := None; item_height := None |}.

(** U+2192, a character the standard font cannot encode, and U+00A0. *)
Definition rightwards_arrow : string :=
  String (ascii_of_nat 226) (String (ascii_of_nat 134) (String (ascii_of_nat 146) "")).

Definition no_break_space : string :=
  String (ascii_of_nat 194) (String (ascii_of_nat 160) "").

(** An item that holds nothing but white space: U+00A0, a space and
    U+3000. *)
Definition blank_item : TextItem :=
  {| str := Some (no_break_space ++ " "
                  ++ String (ascii_of_nat 227) (String (ascii_of_nat 128)
                               (String (ascii_of_nat 128) "")))%string;
     transform := (10, 0, 0, 10, 40, 60);
     item_width := None; item_height := None |}.

Definition sample_page1 : PdfJsPage :=
  {| page_view_height := 800; text_items := [total_item] |}.

Definition sample_page2 : PdfJsPage :=
  {| page_view_height := 800; text_items := [footer_item] |}.

Definition sample_env : Env :=
  {| reportId := "report-1";
     randomUUID := fun k => if Nat.eqb k 0 then "uuid-0" else "uuid-1";
     db_error := fun _ => false;
     getPage := fun p =>
       if Z.eqb p 1 then Some sample_page1
       else if Z.eqb p 2 then Some sample_page2
       else None;
     pdf_load := Some [800; 800];
     fetch_image := fun url => negb (String.eqb url "https://cdn.example/missing.jpg");
     embedPng := fun _ => true;
     embedJpg := fun _ => true;
     drawText_ok := fun text => negb (includes rightwards_arrow text);
     save_ok := true |}.

(** The fragment extracted from [total_item] at scale 1. *)
Definition total_original : TextEdit :=
  {| id := OriginalId 1 50 100; page_number := 1; content := "Total: $42";
     position_x := 50; position_y := 100; font_size := 12; color := "#000000";
     isEditing := None; isOriginal := Some true |}.

(** A text the user added on page 2. *)
Definition user_note : TextEdit :=
  {| id := Uuid "note-1"; page_number := 2; content := "checked";
     position_x := 30; position_y := 40; font_size := 16; color := "#ff0000";
     isEditing := Some false; isOriginal := None |}.

Definition logo_image : ImageEdit :=
  {| img_id := Uuid "img-1"; img_page_number := 1;
     image_url := "data:image/png;base64,iVBORw0KGgo=";
     img_position_x := 10; img_position_y := 20; width := 200; height := 200;
     is_deleted := false |}.

Definition missing_image : ImageEdit :=
  {| img_id := Uuid "img-2"; img_page_number := 1;
     image_url := "https://cdn.example/missing.jpg";
     img_position_x := 300; img_position_y := 400; width := 200; height := 200;
     is_deleted := false |}.

(** The store after the first render of page 1 at scale 1, with the
    user's note. *)
Definition sample_state : State :=
  setTextEdits [user_note; total_original] (setScale 1 initial_state).

(** A note whose text the standard font cannot encode, and a store with
    it. *)
Definition arrow_note : TextEdit :=
  {| id := Uuid "note-2"; page_number := 1;
     content := "see " ++ rightwards_arrow;
     position_x := 60; position_y := 70; font_size := 16; color := "#000000";
     isEditing := Some false; isOriginal := None |}.

Definition arrow_state : State :=
  setTextEdits [user_note; arrow_note] (setScale 1 initial_state).

(** Environments that differ from the sample one in one answer. *)
Definition with_db_error (f : nat -> bool) (env : Env) : Env :=
  {| reportId := reportId env; randomUUID := randomUUID env; db_error := f;
     getPage := getPage env; pdf_load := pdf_load env;
     fetch_image := fetch_image env; embedPng := embedPng env;
     embedJpg := embedJpg env; drawText_ok := drawText_ok env;
     save_ok := save_ok env |}.

Definition with_getPage (f : Z -> option PdfJsPage) (env : Env) : Env :=
  {| reportId := reportId env; randomUUID := randomUUID env;
     db_error := db_error env;
     getPage := f; pdf_load := pdf_load env;
     fetch_image := fetch_image env; embedPng := embedPng env;
     embedJpg := embedJpg env; drawText_ok := drawText_ok env;
     save_ok := save_ok env |}.

(** Every request is rejected; only the first one is. *)
Definition rejecting_env : Env := with_db_error (fun _ => true) sample_env.

Definition flaky_env : Env := with_db_error (fun k => Nat.eqb k 0) sample_env.

(** A page that draws "Total: $42" twice at one position, and the store
    after its extraction at scale 1: two Original entries under one id. *)
Definition doubled_page : PdfJsPage :=
  {| page_view_height := 800; text_items := [total_item; total_item] |}.

Definition doubled_env : Env :=
  with_getPage (fun p => if Z.eqb p 1 then Some doubled_page else None) sample_env.

Definition doubled_state : State :=
  extractTextFromPage doubled_env 1 (setScale 1 initial_state).

(** The sample store after the content of its Original entry was edited:
    the entry is now UserAuthored under "uuid-0". *)
Definition promoted_state : State :=
  updateEdit sample_env (OriginalId 1 50 100) "Total: $99" sample_state.

(** A store whose values fit the columns of the table: a report and a
    note with UUIDs. *)
Definition stored_env : Env :=
  {| reportId := "0b0e7a3c-5d7e-4c1d-9a54-2f6c8e1b7d90";
     randomUUID := randomUUID sample_env; db_error := db_error sample_env;
     getPage := getPage sample_env; pdf_load := pdf_load sample_env;
     fetch_image := fetch_image sample_env; embedPng := embedPng sample_env;
     embedJpg := embedJpg sample_env; drawText_ok := drawText_ok sample_env;
     save_ok := save_ok sample_env |}.

Definition stored_note : TextEdit :=
  {| id := Uuid "123e4567-e89b-42d3-a456-426614174000"; page_number := 2;
     content := "checked"; position_x := 30; position_y := 40 + (1 # 2);
     font_size := 16; color := "#ff0000";
     isEditing := Some false; isOriginal := None |}.

(** Two characters typed into the Original entry of the sample store
    before the first request is answered: [onChange] calls [updateEdit]
    twice from the same render (the input shows the unchanged content
    until the store changes), then the two answers arrive in order. *)
Definition typed_twice : State :=
  let closure := textEdits sample_state in
  let r1 := updateEdit_request closure sample_env (OriginalId 1 50 100)
              "Total: $429" sample_state in
  let r2 := updateEdit_request closure sample_env (OriginalId 1 50 100)
              "Total: $427" (fst r1) in
  let resume (p : option Pending) (st : State) : State :=
    match p with
    | Some q => settle sample_env q st
    | None => st
    end in
  resume (snd r2) (resume (snd r1) (fst r2)).

(** Backspace pressed in the sample store after the content of its
    Original entry was edited, the entry having been selected before the
    edit: the listener is the one of the render in which it was selected. *)
Definition stale_backspace : State :=
  onKey sample_env (textEdits sample_state) (imageEdits sample_state)
    (Some (OriginalId 1 50 100)) None "Backspace" promoted_state.

(** The same store with two images on page 1, one of which cannot be
    fetched. *)
Definition illustrated_state : State :=
  setImageEdits [logo_image; missing_image] sample_state.

(** ** The rest of the component

    The handlers the properties above leave out: loading the persisted
    edits, creating texts and images, dragging, page navigation, and what
    the page shows.  The state they need beyond [State] (the toolbar, the
    selection, the drag in progress, the page count) is the record
    [Editor]; the two kinds of request that [DbCall] has no constructor for
    (image inserts and position updates) are logged there. *)

Definition setCurrentPage (p : Z) (st : State) : State :=
  {| currentPage := p; scale := scale st; textEdits := textEdits st;
     imageEdits := imageEdits st; originalMasks := originalMasks st;
     db_log := db_log st; toasts := toasts st; console := console st;
     uuid_count := uuid_count st; downloads := downloads st |}.

(** *** Loading the persisted edits *)

(** A row of [pdf_edits] as [select("*")] returns it; nullable columns are
    optional. *)
Record PdfEditRow : Type := mkPdfEditRow {
  edit_id : string;
  edit_type : string;
  edit_page_number : Z;
  edit_content : option string;
  edit_position_x : Q;
  edit_position_y : Q;
  edit_font_size : option Q;
  edit_color : option string;
  edit_image_url : option string;
  edit_width : option Q;
  edit_height : option Q;
  edit_is_deleted : option bool
}.

(** [v || d] on an optional string: [null] and the empty string are falsy. *)
Definition str_or (v : option string) (d : string) : string :=
  match v with
  | Some s => if String.eqb s "" then d else s
  | None => d
  end.

Definition text_of_row (edit : PdfEditRow) : TextEdit :=
  {| id := Uuid (edit_id edit);
     page_number := edit_page_number edit;
     content := str_or (edit_content edit) "";
     position_x := edit_position_x edit;
     position_y := edit_position_y edit;
     font_size := num_or (edit_font_size edit) 16;
     color := str_or (edit_color edit) "#000000";
     isEditing := None;
     isOriginal := Some false |}.

Definition image_of_row (edit : PdfEditRow) : ImageEdit :=
  {| img_id := Uuid (edit_id edit);
     img_page_number := edit_page_number edit;
     image_url := str_or (edit_image_url edit) "";
     img_position_x := edit_position_x edit;
     img_position_y := edit_position_y edit;
     width := num_or (edit_width edit) 200;
     height := num_or (edit_height edit) 200;
     is_deleted := match edit_is_deleted edit with
                   | Some true => true
                   | _ => false
                   end |}.

(** [data.forEach]: what the rows push to [texts] and [images]. *)
Fixpoint load_rows (data : list PdfEditRow) : list TextEdit * list ImageEdit :=
  match data with
  | [] => ([], [])
  | edit :: rest =>
      let (texts, images) := load_rows rest in
      if String.eqb (edit_type edit) "text" then (text_of_row edit :: texts, images)
      else if String.eqb (edit_type edit) "image" then (texts, image_of_row edit :: images)
      else (texts, images)
  end.

(** The answer of the select: an error, no data, or the rows. *)
Inductive SelectResult : Type :=
| SelectError
| SelectNull
| SelectRows (data : list PdfEditRow).

Definition loadEdits (result : SelectResult) (st : State) : State :=
  match result with
  | SelectError => console_error "Error loading edits:" st
  | SelectNull => st
  | SelectRows data =>
      let (texts, images) := load_rows data in
      setImageEdits images (setTextEdits texts st)
  end.

(** The row [saveEdit] inserts for a text edit. *)
Definition text_row (env : Env) (edit : TextEdit) : TextRow :=
  {| row_id := id edit; row_report_id := reportId env;
     row_page_number := page_number edit; row_content := content edit;
     row_position_x := position_x edit; row_position_y := position_y edit;
     row_font_size := font_size edit; row_color := color edit |}.

Definition save_failed_toast : Toast :=
  {| title := "Error"; description := "Failed to save edit"; destructive := true |}.

Definition saveEdit (env : Env) (edit : TextEdit) (st : State) : State :=
  let st1 := db_send (DbInsert (text_row env edit)) st in
  if db_error env (List.length (db_log st)) then
    toast save_failed_toast (console_error "Error saving edit:" st1)
  else st1.

(** The columns [page_number] and [font_size] of [pdf_edits] are declared
    [INTEGER]: the table takes a number there only when it is a whole
    number of 32 bits. *)
Definition as_integer (q : Q) : option Z :=
  let r := Qred q in
  if Pos.eqb (Qden r) 1 then Some (Qnum r) else None.

Definition int4 (z : Z) : bool :=
  (-2147483648 <=? z)%Z && (z <=? 2147483647)%Z.

(** The columns [id] and [report_id] are declared [UUID]; the form the
    table hands back, and [crypto.randomUUID] produces, is 8-4-4-4-12
    lower-case hexadecimal digits. *)
Definition is_lower_hex (c : ascii) : bool :=
  let n := nat_of_ascii c in
  (Nat.leb 48 n && Nat.leb n 57) || (Nat.leb 97 n && Nat.leb n 102).

Fixpoint hex_run (n : nat) (l : list ascii) : option (list ascii) :=
  match n with
  | O => Some l
  | S n' =>
      match l with
      | c :: rest => if is_lower_hex c then hex_run n' rest else None
      | [] => None
      end
  end.

(** [n] digits and a hyphen. *)
Definition hex_group (n : nat) (l : list ascii) : option (list ascii) :=
  match hex_run n l with
  | Some (c :: rest) => if Ascii.eqb c "-" then Some rest else None
  | _ => None
  end.

Definition is_uuid (s : string) : bool :=
  match hex_group 8 (list_ascii_of_string s) with
  | Some r1 =>
      match hex_group 4 r1 with
      | Some r2 =>
          match hex_group 4 r2 with
          | Some r3 =>
              match hex_group 4 r3 with
              | Some r4 =>
                  match hex_run 12 r4 with
                  | Some [] => true
                  | _ => false
                  end
              | None => false
              end
          | None => false
          end
      | None => false
      end
  | None => false
  end.

(** A [TEXT] column holds no U+0000. *)
Definition is_text (s : string) : bool :=
  forallb (fun c => negb (Nat.eqb (nat_of_ascii c) 0)) (list_ascii_of_string s).

(** The values of a row fit the columns they go to. *)
Definition fits_columns (u : string) (size : Z) (row : TextRow) : bool :=
  is_uuid u && is_uuid (row_report_id row)
  && int4 size && int4 (row_page_number row)
  && is_text (row_content row) && is_text (row_color row).

(** A text row as the table hands it back when it has stored the fields it
    was given under the primary key [u]; [None] when the table refuses the
    row for a value that does not fit its column. *)
Definition stored_text_row (u : string) (row : TextRow) : option PdfEditRow :=
  match as_integer (row_font_size row) with
  | Some size =>
      if fits_columns u size row then
        Some {| edit_id := u; edit_type := "text";
                edit_page_number := row_page_number row;
                edit_content := Some (row_content row);
                edit_position_x := row_position_x row;
                edit_position_y := row_position_y row;
                edit_font_size := Some (inject_Z size);
                edit_color := Some (row_color row);
                edit_image_url := None; edit_width := None; edit_height := None;
                edit_is_deleted := None |}
      else None
  | None => None
  end.

(** *** The editor around the store *)

Inductive DragType : Type := DragText | DragImage.

Record Dragging : Type := mkDragging {
  drag_id : EditId;
  drag_type : DragType;
  offsetX : Q;
  offsetY : Q
}.

(** [canvas.getBoundingClientRect()] *)
Record DOMRect : Type := mkDOMRect {
  rect_left : Q;
  rect_top : Q;
  rect_width : Q;
  rect_height : Q
}.

Record Editor : Type := mkEditor {
  store : State;
  totalPages : Z;
  isAddingText : bool;
  isAddingImage : bool;
  fontSize : Q;
  textColor : string;
  selectedEditId : option EditId;
  selectedImageId : option EditId;
  dragging : option Dragging;
  position_log : list (EditId * Q * Q);  (* update({position_x, position_y}).eq("id", id) *)
  image_insert_log : list ImageEdit;     (* insert({... edit_type: "image" ...}) *)
  file_dialogs : nat                     (* imageInputRef.current?.click() *)
}.

Definition initial_editor : Editor :=
  {| store := initial_state; totalPages := 0; isAddingText := false;
     isAddingImage := false; fontSize := 16; textColor := "#000000";
     selectedEditId := None; selectedImageId := None; dragging := None;
     position_log := []; image_insert_log := []; file_dialogs := 0 |}.

Definition set_store (st : State) (ed : Editor) : Editor :=
  {| store := st; totalPages := totalPages ed; isAddingText := isAddingText ed;
     isAddingImage := isAddingImage ed; fontSize := fontSize ed;
     textColor := textColor ed; selectedEditId := selectedEditId ed;
     selectedImageId := selectedImageId ed; dragging := dragging ed;
     position_log := position_log ed; image_insert_log := image_insert_log ed;
     file_dialogs := file_dialogs ed |}.

Definition setTotalPages (n : Z) (ed : Editor) : Editor :=
  {| store := store ed; totalPages := n; isAddingText := isAddingText ed;
     isAddingImage := isAddingImage ed; fontSize := fontSize ed;
     textColor := textColor ed; selectedEditId := selectedEditId ed;
     selectedImageId := selectedImageId ed; dragging := dragging ed;
     position_log := position_log ed; image_insert_log := image_insert_log ed;
     file_dialogs := file_dialogs ed |}.

Definition setIsAddingText (b : bool) (ed : Editor) : Editor :=
  {| store := store ed; totalPages := totalPages ed; isAddingText := b;
     isAddingImage := isAddingImage ed; fontSize := fontSize ed;
     textColor := textColor ed; selectedEditId := selectedEditId ed;
     selectedImageId := selectedImageId ed; dragging := dragging ed;
     position_log := position_log ed; image_insert_log := image_insert_log ed;
     file_dialogs := file_dialogs ed |}.

Definition setIsAddingImage (b : bool) (ed : Editor) : Editor :=
  {| store := store ed; totalPages := totalPages ed; isAddingText := isAddingText ed;
     isAddingImage := b; fontSize := fontSize ed;
     textColor := textColor ed; selectedEditId := selectedEditId ed;
     selectedImageId := selectedImageId ed; dragging := dragging ed;
     position_log := position_log ed; image_insert_log := image_insert_log ed;
     file_dialogs := file_dialogs ed |}.

Definition setFontSize (s : Q) (ed : Editor) : Editor :=
  {| store := store ed; totalPages := totalPages ed; isAddingText := isAddingText ed;
     isAddingImage := isAddingImage ed; fontSize := s;
     textColor := textColor ed; selectedEditId := selectedEditId ed;
     selectedImageId := selectedImageId ed; dragging := dragging ed;
     position_log := position_log ed; image_insert_log := image_insert_log ed;
     file_dialogs := file_dialogs ed |}.

Definition setTextColor (c : string) (ed : Editor) : Editor :=
  {| store := store ed; totalPages := totalPages ed; isAddingText := isAddingText ed;
     isAddingImage := isAddingImage ed; fontSize := fontSize ed;
     textColor := c; selectedEditId := selectedEditId ed;
     selectedImageId := selectedImageId ed; dragging := dragging ed;
     position_log := position_log ed; image_insert_log := image_insert_log ed;
     file_dialogs := file_dialogs ed |}.

Definition setSelectedEditId (s : option EditId) (ed : Editor) : Editor :=
  {| store := store ed; totalPages := totalPages ed; isAddingText := isAddingText ed;
     isAddingImage := isAddingImage ed; fontSize := fontSize ed;
     textColor := textColor ed; selectedEditId := s;
     selectedImageId := selectedImageId ed; dragging := dragging ed;
     position_log := position_log ed; image_insert_log := image_insert_log ed;
     file_dialogs := file_dialogs ed |}.

Definition setSelectedImageId (s : option EditId) (ed : Editor) : Editor :=
  {| store := store ed; totalPages := totalPages ed; isAddingText := isAddingText ed;
     isAddingImage := isAddingImage ed; fontSize := fontSize ed;
     textColor := textColor ed; selectedEditId := selectedEditId ed;
     selectedImageId := s; dragging := dragging ed;
     position_log := position_log ed; image_insert_log := image_insert_log ed;
     file_dialogs := file_dialogs ed |}.

Definition setDragging (d : option Dragging) (ed : Editor) : Editor :=
  {| store := store ed; totalPages := totalPages ed; isAddingText := isAddingText ed;
     isAddingImage := isAddingImage ed; fontSize := fontSize ed;
     textColor := textColor ed; selectedEditId := selectedEditId ed;
     selectedImageId := selectedImageId ed; dragging := d;
     position_log := position_log ed; image_insert_log := image_insert_log ed;
     file_dialogs := file_dialogs ed |}.

Definition send_position (target : EditId) (x y : Q) (ed : Editor) : Editor :=
  {| store := store ed; totalPages := totalPages ed; isAddingText := isAddingText ed;
     isAddingImage := isAddingImage ed; fontSize := fontSize ed;
     textColor := textColor ed; selectedEditId := selectedEditId ed;
     selectedImageId := selectedImageId ed; dragging := dragging ed;
     position_log := position_log ed ++ [(target, x, y)];
     image_insert_log := image_insert_log ed;
     file_dialogs := file_dialogs ed |}.

Definition send_image_insert (img : ImageEdit) (ed : Editor) : Editor :=
  {| store := store ed; totalPages := totalPages ed; isAddingText := isAddingText ed;
     isAddingImage := isAddingImage ed; fontSize := fontSize ed;
     textColor := textColor ed; selectedEditId := selectedEditId ed;
     selectedImageId := selectedImageId ed; dragging := dragging ed;
     position_log := position_log ed;
     image_insert_log := image_insert_log ed ++ [img];
     file_dialogs := file_dialogs ed |}.

Definition open_file_dialog (ed : Editor) : Editor :=
  {| store := store ed; totalPages := totalPages ed; isAddingText := isAddingText ed;
     isAddingImage := isAddingImage ed; fontSize := fontSize ed;
     textColor := textColor ed; selectedEditId := selectedEditId ed;
     selectedImageId := selectedImageId ed; dragging := dragging ed;
     position_log := position_log ed; image_insert_log := image_insert_log ed;
     file_dialogs := S (file_dialogs ed) |}.

(** *** Loading the document, page navigation, toolbar *)

Definition load_failed_toast : Toast :=
  {| title := "Error"; description := "Failed to load PDF"; destructive := true |}.

(** [loadPdf]: [numPages] of the loaded document, or [None] when
    [getDocument] rejects. *)
Definition loadPdf (numPages : option Z) (ed : Editor) : Editor :=
  match numPages with
  | Some n => setTotalPages n ed
  | None =>
      set_store (toast load_failed_toast
                   (console_error "Error loading PDF:" (store ed))) ed
  end.

Definition goToPreviousPage (ed : Editor) : Editor :=
  if (1 <? currentPage (store ed))%Z
  then set_store (setCurrentPage (currentPage (store ed) - 1)%Z (store ed)) ed
  else ed.

Definition goToNextPage (ed : Editor) : Editor :=
  if (currentPage (store ed) <? totalPages ed)%Z
  then set_store (setCurrentPage (currentPage (store ed) + 1)%Z (store ed)) ed
  else ed.

(** The "Text" and "Image" buttons of the toolbar. *)
Definition textToolClicked (ed : Editor) : Editor :=
  setIsAddingImage false (setIsAddingText (negb (isAddingText ed)) ed).

Definition imageToolClicked (ed : Editor) : Editor :=
  open_file_dialog
    (setIsAddingText false (setIsAddingImage (negb (isAddingImage ed)) ed)).

(** *** Creating texts and images *)

Definition new_text (env : Env) (x y : Q) (ed : Editor) : TextEdit :=
  {| id := Uuid (randomUUID env (uuid_count (store ed)));
     page_number := currentPage (store ed);
     content := "Double-click to edit";
     position_x := x;
     position_y := y;
     font_size := fontSize ed;
     color := textColor ed;
     isEditing := Some false;
     isOriginal := None |}.

(** [canvas] is the canvas's bounding rectangle, [None] when
    [canvasRef.current] is null. *)
Definition handleCanvasClick (env : Env) (canvas : option DOMRect)
  (clientX clientY : Q) (ed : Editor) : Editor :=
  if negb (isAddingText ed) && negb (isAddingImage ed) then ed
  else match canvas with
       | None => ed
       | Some rect =>
           let x := clientX - rect_left rect in
           let y := clientY - rect_top rect in
           if isAddingText ed then
             let newEdit := new_text env x y ed in
             let st1 := take_uuid (store ed) in
             let st2 := setTextEdits (textEdits (store ed) ++ [newEdit]) st1 in
             set_store (saveEdit env newEdit st2) (setIsAddingText false ed)
           else open_file_dialog ed
       end.

Definition new_image (env : Env) (imageUrl : string) (rect : DOMRect) (ed : Editor)
  : ImageEdit :=
  {| img_id := Uuid (randomUUID env (uuid_count (store ed)));
     img_page_number := currentPage (store ed);
     image_url := imageUrl;
     img_position_x := rect_width rect / 2 - 100;
     img_position_y := rect_height rect / 2 - 100;
     width := 200;
     height := 200;
     is_deleted := false |}.

Definition image_added_toast : Toast :=
  {| title := "Image added"; description := "Image inserted successfully";
     destructive := false |}.

(** [handleImageUpload] and the reader's [onload]: [file] is the data URL
    of the chosen file, [None] when no file was chosen.  The answer to the
    insert is not looked at. *)
Definition handleImageUpload (env : Env) (file : option string)
  (canvas : option DOMRect) (ed : Editor) : Editor :=
  match file with
  | None => ed
  | Some imageUrl =>
      match canvas with
      | None => ed
      | Some rect =>
          let newImage := new_image env imageUrl rect ed in
          let st1 := take_uuid (store ed) in
          let st2 := setImageEdits (imageEdits (store ed) ++ [newImage]) st1 in
          set_store (toast image_added_toast st2)
            (send_image_insert newImage (setIsAddingImage false ed))
      end
  end.

(** *** Dragging *)

(** [{ ...t, position_x: newX, position_y: newY }] *)
Definition with_position (newX newY : Q) (t : TextEdit) : TextEdit :=
  {| id := id t; page_number := page_number t; content := content t;
     position_x := newX; position_y := newY;
     font_size := font_size t; color := color t;
     isEditing := isEditing t; isOriginal := isOriginal t |}.

Definition img_with_position (newX newY : Q) (img : ImageEdit) : ImageEdit :=
  {| img_id := img_id img; img_page_number := img_page_number img;
     image_url := image_url img;
     img_position_x := newX; img_position_y := newY;
     width := width img; height := height img; is_deleted := is_deleted img |}.

(** [{ ...t, id: newId, isOriginal: false }] *)
Definition adopt (newId : EditId) (t : TextEdit) : TextEdit :=
  {| id := newId; page_number := page_number t; content := content t;
     position_x := position_x t; position_y := position_y t;
     font_size := font_size t; color := color t;
     isEditing := isEditing t; isOriginal := Some false |}.

(** [onMouseDown] of a text overlay; [on_control] says the target is the
    input or inside a button. *)
Definition textMouseDown (on_control : bool) (canvas : option DOMRect)
  (clientX clientY : Q) (edit : TextEdit) (ed : Editor) : Editor :=
  if on_control then ed
  else match canvas with
       | None => ed
       | Some rect =>
           let d := {| drag_id := id edit; drag_type := DragText;
                       offsetX := clientX - rect_left rect - position_x edit;
                       offsetY := clientY - rect_top rect - position_y edit |} in
           setSelectedEditId (Some (id edit)) (setDragging (Some d) ed)
       end.

(** [onMouseDown] of an image overlay. *)
Definition imageMouseDown (on_button : bool) (canvas : option DOMRect)
  (clientX clientY : Q) (img : ImageEdit) (ed : Editor) : Editor :=
  if on_button then ed
  else match canvas with
       | None => ed
       | Some rect =>
           let d := {| drag_id := img_id img; drag_type := DragImage;
                       offsetX := clientX - rect_left rect - img_position_x img;
                       offsetY := clientY - rect_top rect - img_position_y img |} in
           setDragging (Some d) ed
       end.

(** The window's [mousemove] listener. *)
Definition onMove (canvas : option DOMRect) (clientX clientY : Q) (ed : Editor)
  : Editor :=
  match dragging ed with
  | None => ed
  | Some d =>
      match canvas with
      | None => ed
      | Some rect =>
          let newX := clientX - rect_left rect - offsetX d in
          let newY := clientY - rect_top rect - offsetY d in
          match drag_type d with
          | DragText =>
              set_store
                (setTextEdits
                   (map (fun t => if has_id (drag_id d) t
                                  then with_position newX newY t else t)
                        (textEdits (store ed)))
                   (store ed)) ed
          | DragImage =>
              set_store
                (setImageEdits
                   (map (fun img => if id_eqb (img_id img) (drag_id d)
                                    then img_with_position newX newY img else img)
                        (imageEdits (store ed)))
                   (store ed)) ed
          end
      end
  end.

(** The window's [mouseup] listener. *)
Definition onUp (env : Env) (ed : Editor) : Editor :=
  match dragging ed with
  | None => ed
  | Some d =>
      let st := store ed in
      let ed1 :=
        match drag_type d with
        | DragText =>
            match find (has_id (drag_id d)) (textEdits st) with
            | Some edit =>
                if is_original edit then
                  let newId := Uuid (randomUUID env (uuid_count st)) in
                  let st1 := take_uuid st in
                  let st2 :=
                    db_send (DbInsert (promotion_row env newId (content edit) edit))
                            st1 in
                  if db_error env (List.length (db_log st1)) then
                    set_store (console_error "Failed to persist drag move:" st2) ed
                  else
                    set_store
                      (setTextEdits
                         (map (fun t => if has_id (id edit) t then adopt newId t else t)
                              (textEdits st))
                         st2) ed
                else send_position (id edit) (position_x edit) (position_y edit) ed
            | None => ed
            end
        | DragImage =>
            match find (fun i => id_eqb (img_id i) (drag_id d)) (imageEdits st) with
            | Some img =>
                send_position (img_id img) (img_position_x img) (img_position_y img) ed
            | None => ed
            end
        end in
      setDragging None ed1
  end.

(** *** What the page shows *)


Definition visible_texts (st : State) : list TextEdit :=
  filter (fun edit => Z.eqb (page_number edit) (currentPage st)) (textEdits st).

(** [originalMasks[pageNum] || []]: the rectangles [renderPage] blanks. *)
Definition page_masks (pageNum : Z) (st : State) : list Mask :=
  match find (fun kv => Z.eqb (fst kv) pageNum) (originalMasks st) with
  | Some (_, masks) => masks
  | None => []
  end.

(** *** Events of the editor *)

Inductive UiEvent : Type :=
| StoreEvent (ev : Event)
| EditsLoaded (result : SelectResult)
| PdfLoaded (numPages : option Z)
| PreviousPageClicked
| NextPageClicked
| TextToolClicked
| ImageToolClicked
| FontSizeChanged (s : Q)
| TextColorChanged (c : string)
| CanvasClicked (canvas : option DOMRect) (clientX clientY : Q)
| ImageChosen (file : option string) (canvas : option DOMRect)
| TextMouseDown (on_control : bool) (canvas : option DOMRect)
    (clientX clientY : Q) (edit : TextEdit)
| ImageMouseDown (on_button : bool) (canvas : option DOMRect)
    (clientX clientY : Q) (img : ImageEdit)
| MouseMoved (canvas : option DOMRect) (clientX clientY : Q)
| MouseReleased.

Definition ui_handle (env : Env) (ed : Editor) (ev : UiEvent) : Editor :=
  match ev with
  | StoreEvent e => set_store (handle env (store ed) e) ed
  | EditsLoaded result => set_store (loadEdits result (store ed)) ed
  | PdfLoaded numPages => loadPdf numPages ed
  | PreviousPageClicked => goToPreviousPage ed
  | NextPageClicked => goToNextPage ed
  | TextToolClicked => textToolClicked ed
  | ImageToolClicked => imageToolClicked ed
  | FontSizeChanged s => setFontSize s ed
  | TextColorChanged c => setTextColor c ed
  | CanvasClicked canvas clientX clientY => handleCanvasClick env canvas clientX clientY ed
  | ImageChosen file canvas => handleImageUpload env file canvas ed
  | TextMouseDown on_control canvas clientX clientY edit =>
      textMouseDown on_control canvas clientX clientY edit ed
  | ImageMouseDown on_button canvas clientX clientY img =>
      imageMouseDown on_button canvas clientX clientY img ed
  | MouseMoved canvas clientX clientY => onMove canvas clientX clientY ed
  | MouseReleased => onUp env ed
  end.

Definition ui_run (env : Env) (evs : list UiEvent) (ed : Editor) : Editor :=
  fold_left (ui_handle env) evs ed.

(** *** Shapes of ids, and requests keyed by them *)

Definition template_id (i : EditId) : bool :=
  match i with
  | OriginalId _ _ _ => true
  | Uuid _ => false
  end.

(** An entry is Original exactly when its id is the extraction template. *)
Definition well_tagged (e : TextEdit) : Prop := is_original e = template_id (id e).

(** A request about a text entry names a UUID. *)
Definition keyed_by_uuid (c : DbCall) : Prop :=
  match c with
  | DbInsert row => template_id (row_id row) = false
  | DbUpdateContent target _ => template_id target = false
  | DbDelete target => template_id target = false
  | DbUpdateDeleted _ => True
  end.

Definition op_page_index (op : DrawOp) : nat :=
  match op with
  | DrawText i _ _ _ _ _ _ _ => i
  | DrawImage i _ _ _ _ _ _ => i
  end.

(** A store and an editor in the middle of a session: the sample store
    with the two images, three pages loaded, the note being dragged. *)
Definition sample_editor : Editor :=
  {| store := illustrated_state; totalPages := 3; isAddingText := true;
     isAddingImage := false; fontSize := 16; textColor := "#336699";
     selectedEditId := None; selectedImageId := None; dragging := None;
     position_log := []; image_insert_log := []; file_dialogs := 0 |}.

Definition sample_rect : DOMRect :=
  {| rect_left := 10; rect_top := 20; rect_width := 900; rect_height := 1200 |}.

Definition sample_rows : list PdfEditRow :=
  [ {| edit_id := "row-1"; edit_type := "text"; edit_page_number := 1;
       edit_content := Some "hello"; edit_position_x := 5; edit_position_y := 6;
       edit_font_size := None; edit_color := Some "";
       edit_image_url := None; edit_width := None; edit_height := None;
       edit_is_deleted := None |};
    {| edit_id := "row-2"; edit_type := "highlight"; edit_page_number := 1;
       edit_content := None; edit_position_x := 0; edit_position_y := 0;
       edit_font_size := None; edit_color := None;
       edit_image_url := None; edit_width := None; edit_height := None;
       edit_is_deleted := None |};
    {| edit_id := "row-3"; edit_type := "image"; edit_page_number := 2;
       edit_content := None; edit_position_x := 7; edit_position_y := 8;
       edit_font_size := None; edit_color := None;
       edit_image_url := Some "https://cdn.example/a.png"; edit_width := Some 0;
       edit_height := None; edit_is_deleted := Some true |} ].

(** No request and no stored entry carries an extraction-template id where
    a UUID belongs. *)
Definition uuid_image (img : ImageEdit) : Prop := template_id (img_id img) = false.

Definition store_well_tagged (st : State) : Prop :=
  Forall well_tagged (textEdits st)
  /\ Forall uuid_image (imageEdits st)
  /\ Forall keyed_by_uuid (db_log st).

Definition editor_well_tagged (ed : Editor) : Prop :=
  store_well_tagged (store ed)
  /\ Forall (fun r => template_id (fst (fst r)) = false) (position_log ed)
  /\ Forall uuid_image (image_insert_log ed).

(** The page shown is a page number, the scale is in range, and at most
    one of the two adding modes is on. *)
Definition editor_in_bounds (ed : Editor) : Prop :=
  (1 <= currentPage (store ed))%Z
  /\ scale_in_range (store ed)
  /\ isAddingText ed && isAddingImage ed = false.


(* ================================================================== *)
(** * Properties *)

(** ** Identities and list surgery *)

Lemma Qeq_bool_sym (x y : Q) : Qeq_bool x y = Qeq_bool y x.
Proof.
  destruct (Qeq_bool x y) eqn:H; destruct (Qeq_bool y x) eqn:H'; try reflexivity.
  - apply Qeq_bool_iff in H. symmetry in H. apply Qeq_bool_iff in H. congruence.
  - apply Qeq_bool_iff in H'. symmetry in H'. apply Qeq_bool_iff in H'. congruence.
Qed.

Lemma id_eqb_refl (a : EditId) : id_eqb a a = true.
Proof.
  destruct a as [p x y | u]; simpl.
  - rewrite Z.eqb_refl, !Qeq_bool_refl. reflexivity.
  - apply String.eqb_refl.
Qed.

Lemma id_eqb_sym (a b : EditId) : id_eqb a b = id_eqb b a.
Proof.
  destruct a as [p x y | u], b as [p' x' y' | u']; simpl; try reflexivity.
  - rewrite (Z.eqb_sym p p'), (Qeq_bool_sym x x'), (Qeq_bool_sym y y'). reflexivity.
  - apply String.eqb_sym.
Qed.

Lemma has_id_self (e : TextEdit) : has_id (id e) e = true.
Proof. apply id_eqb_refl. Qed.

Section ListSurgery.
Variable A : Type.
Variable p : A -> bool.
Variable f : A -> A.

Lemma find_none_when_absent (l : list A) :
  (forall x, In x l -> p x = false) -> find p l = None.
Proof.
  induction l as [|a l IH]; intros H; simpl; [reflexivity|].
  rewrite (H a (or_introl eq_refl)). apply IH. intros x Hx. apply H. now right.
Qed.

Lemma find_first (l1 l2 : list A) (a : A) :
  (forall x, In x l1 -> p x = false) -> p a = true ->
  find p (l1 ++ a :: l2) = Some a.
Proof.
  induction l1 as [|b l1 IH]; intros H Ha; simpl.
  - now rewrite Ha.
  - rewrite (H b (or_introl eq_refl)). apply IH; [|exact Ha].
    intros x Hx. apply H. now right.
Qed.

Lemma map_untouched (l : list A) :
  (forall x, In x l -> p x = false) ->
  map (fun x => if p x then f x else x) l = l.
Proof.
  induction l as [|a l IH]; intros H; simpl; [reflexivity|].
  rewrite (H a (or_introl eq_refl)). f_equal. apply IH.
  intros x Hx. apply H. now right.
Qed.

Lemma map_single (l1 l2 : list A) (a : A) :
  (forall x, In x (l1 ++ l2) -> p x = false) -> p a = true ->
  map (fun x => if p x then f x else x) (l1 ++ a :: l2) = l1 ++ f a :: l2.
Proof.
  intros H Ha. rewrite map_app. simpl. rewrite Ha.
  rewrite !map_untouched; [reflexivity| |];
    intros x Hx; apply H; apply in_or_app; auto.
Qed.

Lemma filter_none (l : list A) :
  (forall x, In x l -> p x = false) -> filter p l = [].
Proof.
  induction l as [|a l IH]; intros H; simpl; [reflexivity|].
  rewrite (H a (or_introl eq_refl)). apply IH. intros x Hx. apply H. now right.
Qed.

Lemma filter_idem (l : list A) : filter p (filter p l) = filter p l.
Proof.
  induction l as [|a l IH]; simpl; [reflexivity|].
  destruct (p a) eqn:Ha; simpl; [rewrite Ha; f_equal|]; exact IH.
Qed.

Lemma filter_all (l : list A) :
  (forall x, In x l -> p x = true) -> filter p l = l.
Proof.
  induction l as [|a l IH]; intros H; simpl; [reflexivity|].
  rewrite (H a (or_introl eq_refl)). f_equal. apply IH.
  intros x Hx. apply H. now right.
Qed.
End ListSurgery.

Arguments find_none_when_absent {A}.
Arguments find_first {A}.
Arguments map_untouched {A}.
Arguments map_single {A}.
Arguments filter_none {A}.
Arguments filter_idem {A}.
Arguments filter_all {A}.

(** ** The handlers called from the current render *)

Lemma updateEdit_eq (env : Env) (editId : EditId) (newContent : string)
  (st : State) :
  updateEdit env editId newContent st
  =
  match find (has_id editId) (textEdits st) with
  | None => st
  | Some edit =>
      if is_original edit then
        let newId := Uuid (randomUUID env (uuid_count st)) in
        let st1 := take_uuid st in
        let st2 := db_send (DbInsert (promotion_row env newId newContent edit)) st1 in
        if db_error env (List.length (db_log st1)) then
          console_error "Error updating edit:" st2
        else
          setTextEdits
            (map (fun e => if has_id editId e then promote newId newContent e else e)
                 (textEdits st))
            st2
      else
        let st1 := db_send (DbUpdateContent editId newContent) st in
        if db_error env (List.length (db_log st)) then
          console_error "Error updating edit:" st1
        else
          setTextEdits
            (map (fun e => if has_id editId e then with_content newContent e else e)
                 (textEdits st))
            st1
  end.
Proof.
  unfold updateEdit, updateEdit_from, updateEdit_request, answered.
  destruct (find (has_id editId) (textEdits st)) as [edit|]; [|reflexivity].
  destruct (is_original edit); reflexivity.
Qed.

Lemma deleteEdit_eq (env : Env) (editId : EditId) (st : State) :
  deleteEdit env editId st
  =
  match find (has_id editId) (textEdits st) with
  | None => st
  | Some edit =>
      let remove (s : State) : State :=
        toast (deleted_toast edit)
          (setTextEdits (filter (fun e => negb (has_id editId e)) (textEdits st)) s) in
      if negb (is_original edit) then
        let st1 := db_send (DbDelete editId) st in
        if db_error env (List.length (db_log st)) then
          console_error "Error deleting edit:" st1
        else remove st1
      else remove st
  end.
Proof.
  unfold deleteEdit, deleteEdit_from, deleteEdit_request, answered.
  destruct (find (has_id editId) (textEdits st)) as [edit|]; [|reflexivity].
  destruct (is_original edit); reflexivity.
Qed.

Lemma deleteImage_from_current (env : Env) (imageId : EditId) (st : State) :
  deleteImage_from (imageEdits st) env imageId st = deleteImage env imageId st.
Proof. reflexivity. Qed.

(** ** Mutation of the edit store *)

(** The guard [if (!edit) return] of the two text handlers, on the list of
    their closure. *)
Lemma absent_from_closure (env : Env) (closure : list TextEdit) (st : State)
  (editId : EditId) (c : string) :
  (forall e, In e closure -> has_id editId e = false) ->
  updateEdit_request closure env editId c st = (st, None)
  /\ deleteEdit_request closure env editId st = (st, None).
Proof.
  intros Habs.
  pose proof (find_none_when_absent (has_id editId) closure Habs) as Hf.
  unfold updateEdit_request, deleteEdit_request. now rewrite Hf.
Qed.

(** C9 (as the code has it).  [updateEdit] and [deleteEdit] of the current
    render, called with an id that no text entry of the in-memory set
    carries, return at once: nothing is awaited, and the state is as it
    was (no in-memory change, no request to the persistence layer, no
    toast and no error).  The same holds of the [keydown] listener of the
    current render when that id is the selected text.  [deleteImage] has
    no such guard: it sends its update whatever the id. *)
Theorem absent_id_is_noop (env : Env) (st : State) (editId : EditId)
  (selectedImage : option EditId) (c key : string) :
  (forall e, In e (textEdits st) -> has_id editId e = false) ->
  updateEdit_request (textEdits st) env editId c st = (st, None)
  /\ deleteEdit_request (textEdits st) env editId st = (st, None)
  /\ updateEdit_from (textEdits st) env editId c st = st
  /\ deleteEdit_from (textEdits st) env editId st = st
  /\ onKey env (textEdits st) (imageEdits st) (Some editId) selectedImage key st
     = st
  /\ db_log (deleteImage env editId st) = db_log st ++ [DbUpdateDeleted editId].
Proof.
  intros Habs.
  destruct (absent_from_closure env (textEdits st) st editId c Habs) as [Hu Hd].
  split; [exact Hu|]. split; [exact Hd|].
  assert (Hd' : deleteEdit_from (textEdits st) env editId st = st)
    by (unfold deleteEdit_from, answered; now rewrite Hd).
  split; [unfold updateEdit_from, answered; now rewrite Hu|].
  split; [exact Hd'|]. split.
  - unfold onKey.
    destruct (String.eqb key "Delete" || String.eqb key "Backspace");
      [exact Hd' | reflexivity].
  - unfold deleteImage.
    now destruct (db_error env (List.length (db_log st))).
Qed.

Lemma absent_id_is_noop_witness :
  updateEdit sample_env (Uuid "gone") "late" sample_state = sample_state
  /\ deleteEdit sample_env (Uuid "gone") sample_state = sample_state.
Proof.
  destruct (absent_id_is_noop sample_env sample_state (Uuid "gone") None
              "late" "Delete")
    as [_ [_ [Hu [Hd _]]]].
  - intros e [<- | [<- | []]]; reflexivity.
  - split; [exact Hu | exact Hd].
Defined.

(** Two calls with an id that nothing in memory carries, and that are not
    no-ops.  [deleteImage] never looks the id up: it sends its update and
    shows its toast.  The [keydown] listener looks it up in the entries of
    an earlier render: the Original id is gone from the store since the
    entry was promoted, yet the listener finds it and overwrites the
    store. *)
Lemma absent_id_noop_fails :
  absent_from_memory (Uuid "gone") illustrated_state
  /\ ~ absent_id_noop (Uuid "gone") illustrated_state
        (deleteImage sample_env (Uuid "gone") illustrated_state)
  /\ db_log (deleteImage sample_env (Uuid "gone") illustrated_state)
     = [DbUpdateDeleted (Uuid "gone")]
  /\ absent_from_memory (OriginalId 1 50 100) promoted_state
  /\ ~ absent_id_noop (OriginalId 1 50 100) promoted_state stale_backspace
  /\ List.length (textEdits promoted_state) = 2%nat
  /\ List.length (textEdits stale_backspace) = 1%nat.
Proof.
  assert (H1 : absent_from_memory (Uuid "gone") illustrated_state).
  { split.
    - intros e [<- | [<- | []]]; reflexivity.
    - intros img [<- | [<- | []]]; reflexivity. }
  assert (H2 : absent_from_memory (OriginalId 1 50 100) promoted_state).
  { split.
    - intros e [<- | [<- | []]]; reflexivity.
    - intros img []. }
  split; [exact H1|]. split; [|split; [reflexivity|]].
  - intros H. specialize (H H1). apply (f_equal db_log) in H.
    vm_compute in H. discriminate H.
  - split; [exact H2|]. split; [|split; reflexivity].
    intros H. specialize (H H2). apply (f_equal toasts) in H.
    vm_compute in H. discriminate H.
Qed.

(** [deleteEdit] by cases, on the list of its closure. *)
Lemma deleteEdit_from_cases (env : Env) (closure : list TextEdit)
  (st : State) (editId : EditId) (edit : TextEdit) :
  find (has_id editId) closure = Some edit ->
  let st' := deleteEdit_from closure env editId st in
  let remaining := filter (fun e => negb (has_id editId e)) closure in
  (forall e, In e remaining -> has_id editId e = false)
  /\ (is_original edit = true ->
        db_log st' = db_log st
        /\ textEdits st' = remaining
        /\ toasts st' = toasts st ++ [ {| title := "Deleted";
                                          description := "Original text hidden";
                                          destructive := false |} ])
  /\ (is_original edit = false ->
        has_id editId edit = true
        /\ db_log st' = db_log st ++ [DbDelete editId]
        /\ (db_error env (List.length (db_log st)) = false ->
            textEdits st' = remaining
            /\ toasts st' = toasts st ++ [ {| title := "Deleted";
                                              description := "Edit removed";
                                              destructive := false |} ])
        /\ (db_error env (List.length (db_log st)) = true ->
            textEdits st' = textEdits st
            /\ toasts st' = toasts st
            /\ console st' = console st ++ ["Error deleting edit:"])).
Proof.
  intros Hfind st' remaining. subst st' remaining.
  unfold deleteEdit_from, deleteEdit_request, answered. rewrite Hfind.
  split; [|split].
  - intros e He. apply filter_In in He. destruct He as [_ He].
    now apply negb_true_iff in He.
  - intros Ho. rewrite Ho. simpl. unfold deleted_toast. rewrite Ho.
    repeat split.
  - intros Ho. rewrite Ho. simpl.
    apply find_some in Hfind. destruct Hfind as [_ Hid].
    split; [exact Hid|].
    destruct (db_error env (List.length (db_log st))); simpl.
    + split; [reflexivity|]. split; [discriminate|]. intros _. repeat split.
    + split; [reflexivity|]. split; [|discriminate]. intros _.
      unfold deleted_toast. rewrite Ho. repeat split.
Qed.

(** C8 (as the code has it).  Removing a text entry, by [deleteEdit] of the
    current render, depends on the provenance of the entry the in-memory
    set holds under the id.  For an Original entry nothing is sent to the
    persistence layer, the entries under the id leave the in-memory set
    and the toast says "Original text hidden".  For a UserAuthored entry
    one delete keyed by the id is sent; when it is accepted the entries
    under the id leave the in-memory set and the toast says "Edit
    removed"; when it is rejected the in-memory set is left as it is, no
    toast is shown and the failure goes to the console. *)
Theorem deleteEdit_by_provenance (env : Env) (st : State) (editId : EditId)
  (edit : TextEdit) :
  find (has_id editId) (textEdits st) = Some edit ->
  let st' := deleteEdit_from (textEdits st) env editId st in
  let remaining := filter (fun e => negb (has_id editId e)) (textEdits st) in
  (forall e, In e remaining -> has_id editId e = false)
  /\ (is_original edit = true ->
        db_log st' = db_log st
        /\ textEdits st' = remaining
        /\ toasts st' = toasts st ++ [ {| title := "Deleted";
                                          description := "Original text hidden";
                                          destructive := false |} ])
  /\ (is_original edit = false ->
        has_id editId edit = true
        /\ db_log st' = db_log st ++ [DbDelete editId]
        /\ (db_error env (List.length (db_log st)) = false ->
            textEdits st' = remaining
            /\ toasts st' = toasts st ++ [ {| title := "Deleted";
                                              description := "Edit removed";
                                              destructive := false |} ])
        /\ (db_error env (List.length (db_log st)) = true ->
            textEdits st' = textEdits st
            /\ toasts st' = toasts st
            /\ console st' = console st ++ ["Error deleting edit:"])).
Proof.
  intros Hfind.
  exact (deleteEdit_from_cases env (textEdits st) st editId edit Hfind).
Qed.

Lemma deleteEdit_by_provenance_witness :
  db_log (deleteEdit sample_env (OriginalId 1 50 100) sample_state) = []
  /\ textEdits (deleteEdit sample_env (OriginalId 1 50 100) sample_state) = [user_note]
  /\ db_log (deleteEdit sample_env (Uuid "note-1") sample_state)
     = [DbDelete (Uuid "note-1")]
  /\ textEdits (deleteEdit sample_env (Uuid "note-1") sample_state) = [total_original].
Proof.
  pose proof (deleteEdit_by_provenance sample_env sample_state
                (OriginalId 1 50 100) total_original eq_refl)
    as [_ [Ho _]].
  pose proof (deleteEdit_by_provenance sample_env sample_state
                (Uuid "note-1") user_note eq_refl)
    as [_ [_ Hu]].
  destruct (Ho eq_refl) as [H1 [H2 _]].
  destruct (Hu eq_refl) as [_ [H3 [H4 _]]].
  destruct (H4 eq_refl) as [H5 _].
  split; [exact H1|]. split; [exact H2|]. split; [exact H3 | exact H5].
Defined.

(** Two removals of a UserAuthored entry that are not durable removals.
    When the persistence layer rejects the delete, the entry stays in
    memory.  And the [keydown] listener of an earlier render, in which the
    entry was still Original, removes the promoted entry from memory
    without any delete and under the toast "Original text hidden". *)
Lemma removed_durably_fails :
  ~ removed_durably (Uuid "note-1") sample_state
      (deleteEdit rejecting_env (Uuid "note-1") sample_state)
  /\ In user_note (textEdits (deleteEdit rejecting_env (Uuid "note-1") sample_state))
  /\ map user_authored (textEdits promoted_state) = [true; true]
  /\ map id (textEdits promoted_state) = [Uuid "note-1"; Uuid "uuid-0"]
  /\ map id (textEdits stale_backspace) = [Uuid "note-1"]
  /\ db_log stale_backspace = db_log promoted_state
  /\ map description (toasts stale_backspace) = ["Original text hidden"]
  /\ ~ removed_durably (Uuid "uuid-0") promoted_state stale_backspace.
Proof.
  split; [|split; [now left|]].
  - intros [_ H]. specialize (H user_note (or_introl eq_refl)).
    vm_compute in H. discriminate H.
  - split; [reflexivity|]. split; [reflexivity|]. split; [reflexivity|].
    split; [reflexivity|]. split; [reflexivity|].
    intros [H _]. vm_compute in H. discriminate H.
Qed.

(** C2 (as the code has it).  Editing, from the current render, the
    content of an extracted Original fragment whose id no other entry
    carries, the insert being accepted and answered before anything else
    happens, leaves, in the fragment's place, one UserAuthored entry with
    the new content and the original's page, position, font size and
    colour; no Original entry of that fragment is left, the number of Original entries drops by one and the
    number of UserAuthored entries grows by one; exactly one request, an
    insert of that row, is sent to the persistence layer. *)
Theorem edit_original_content (env : Env) (st : State) (l1 l2 : list TextEdit)
  (e : TextEdit) (c : string) :
  textEdits st = l1 ++ e :: l2 ->
  is_original e = true ->
  (forall x, In x (l1 ++ l2) -> has_id (id e) x = false) ->
  db_error env (List.length (db_log st)) = false ->
  let newId := Uuid (randomUUID env (uuid_count st)) in
  let st' := updateEdit_from (textEdits st) env (id e) c st in
  exists e',
    textEdits st' = l1 ++ e' :: l2
    /\ is_original e' = false
    /\ id e' = newId
    /\ content e' = c
    /\ page_number e' = page_number e
    /\ position_x e' = position_x e
    /\ position_y e' = position_y e
    /\ font_size e' = font_size e
    /\ color e' = color e
    /\ filter (fun x => is_original x && has_id (id e) x) (textEdits st') = []
    /\ S (List.length (filter is_original (textEdits st')))
       = List.length (filter is_original (textEdits st))
    /\ List.length (filter user_authored (textEdits st'))
       = S (List.length (filter user_authored (textEdits st)))
    /\ db_log st'
       = db_log st ++ [DbInsert {| row_id := newId; row_report_id := reportId env;
                                   row_page_number := page_number e;
                                   row_content := c;
                                   row_position_x := position_x e;
                                   row_position_y := position_y e;
                                   row_font_size := font_size e;
                                   row_color := color e |}].
Proof.
  intros Hst Ho Huniq Hdb newId st'.
  change (updateEdit_from (textEdits st) env (id e) c st)
    with (updateEdit env (id e) c st) in st'.
  assert (Hfind : find (has_id (id e)) (textEdits st) = Some e).
  { rewrite Hst. apply find_first; [|apply has_id_self].
    intros x Hx. apply Huniq. apply in_or_app. now left. }
  assert (Hst' : textEdits st' = l1 ++ promote newId c e :: l2).
  { subst st'. rewrite updateEdit_eq; cbv zeta. rewrite Hfind, Ho. simpl. rewrite Hdb. simpl.
    rewrite Hst. apply map_single; [exact Huniq | apply has_id_self]. }
  exists (promote newId c e).
  repeat match goal with |- _ /\ _ => split end; try reflexivity.
  - exact Hst'.
  - rewrite Hst'. apply filter_none. intros x Hx.
    apply in_app_or in Hx. destruct Hx as [Hx | [<- | Hx]].
    + rewrite (Huniq x); [apply andb_false_r | apply in_or_app; now left].
    + reflexivity.
    + rewrite (Huniq x); [apply andb_false_r | apply in_or_app; now right].
  - rewrite Hst', Hst, !filter_app, !length_app. cbn [filter].
    rewrite Ho. change (is_original (promote newId c e)) with false.
    cbn [List.length]. lia.
  - rewrite Hst', Hst, !filter_app, !length_app. cbn [filter].
    replace (user_authored e) with false by (unfold user_authored; now rewrite Ho).
    change (user_authored (promote newId c e)) with true.
    cbn [List.length]. lia.
  - subst st'. rewrite updateEdit_eq; cbv zeta. rewrite Hfind, Ho. simpl. rewrite Hdb. reflexivity.
Qed.

Lemma edit_original_content_witness :
  exists e',
    textEdits (updateEdit sample_env (OriginalId 1 50 100) "Total: $99" sample_state)
    = [user_note] ++ e' :: []
    /\ is_original e' = false
    /\ content e' = "Total: $99"
    /\ position_x e' = 50 /\ position_y e' = 100
    /\ db_log (updateEdit sample_env (OriginalId 1 50 100) "Total: $99" sample_state)
       = [DbInsert {| row_id := Uuid "uuid-0"; row_report_id := "report-1";
                      row_page_number := 1; row_content := "Total: $99";
                      row_position_x := 50; row_position_y := 100;
                      row_font_size := 12; row_color := "#000000" |}].
Proof.
  destruct (edit_original_content sample_env sample_state [user_note] []
              total_original "Total: $99" eq_refl eq_refl)
    as [e' [H1 [H2 [_ [H4 [_ [H6 [H7 [_ [_ [_ [_ [_ H13]]]]]]]]]]]]].
  - intros x [<- | []]. reflexivity.
  - reflexivity.
  - exists e'. repeat split; assumption.
Defined.

(** Two edits of an Original fragment after which the store is not as
    the scenario has it.  On a page that draws the same text twice at one
    position the two fragments share their id, and the edit promotes both
    under one UUID: two UserAuthored entries carry the new content.  And
    when the persistence layer rejects the insert the fragment stays
    Original. *)
Lemma edit_replaces_original_fails :
  List.length (filter (has_id (OriginalId 1 50 100)) (textEdits doubled_state))
  = 2%nat
  /\ ~ edit_replaces_original (OriginalId 1 50 100) "Total: $99" doubled_state
        (updateEdit sample_env (OriginalId 1 50 100) "Total: $99" doubled_state)
  /\ ~ edit_replaces_original (OriginalId 1 50 100) "Total: $99" sample_state
        (updateEdit rejecting_env (OriginalId 1 50 100) "Total: $99" sample_state).
Proof.
  split; [reflexivity|]. split.
  - intros [_ [H _]]. vm_compute in H. discriminate H.
  - intros [H _]. vm_compute in H. discriminate H.
Qed.

(** C1 (as the code has it).  Take an Original entry whose id no other
    entry carries, a fresh UUID, and a persistence layer that accepts the
    two requests.  After [updateEdit] on the entry, answered and rendered,
    and then [updateEdit] on the promoted entry, the fragment's place
    holds one UserAuthored entry, under the id allocated by the first call
    and with the content of the second; it is the only entry under that
    id, the store has gained exactly one UserAuthored entry, and the
    persistence layer has seen one insert followed by one update under
    that same id. *)
Theorem promotion_idempotent (env : Env) (st : State) (l1 l2 : list TextEdit)
  (e : TextEdit) (c1 c2 : string) :
  textEdits st = l1 ++ e :: l2 ->
  is_original e = true ->
  (forall x, In x (l1 ++ l2) -> has_id (id e) x = false) ->
  let newId := Uuid (randomUUID env (uuid_count st)) in
  (forall x, In x (textEdits st) -> has_id newId x = false) ->
  db_error env (List.length (db_log st)) = false ->
  db_error env (S (List.length (db_log st))) = false ->
  let st1 := updateEdit_from (textEdits st) env (id e) c1 st in
  let st2 := updateEdit_from (textEdits st1) env newId c2 st1 in
  textEdits st2 = l1 ++ promote newId c2 e :: l2
  /\ filter (has_id newId) (textEdits st2) = [promote newId c2 e]
  /\ List.length (filter user_authored (textEdits st2))
     = S (List.length (filter user_authored (textEdits st)))
  /\ promoted_once newId (textEdits st) (textEdits st2)
  /\ db_log st2 = db_log st ++ [DbInsert (promotion_row env newId c1 e);
                                DbUpdateContent newId c2].
Proof.
  intros Hst Ho Huniq newId Hfresh Hdb1 Hdb2 st1 st2.
  change (updateEdit_from (textEdits st) env (id e) c1 st)
    with (updateEdit env (id e) c1 st) in st1.
  change (updateEdit_from (textEdits st1) env newId c2 st1)
    with (updateEdit env newId c2 st1) in st2.
  assert (Hfresh' : forall x, In x (l1 ++ l2) -> has_id newId x = false).
  { intros x Hx. apply Hfresh. rewrite Hst. apply in_app_or in Hx.
    apply in_or_app. destruct Hx; [now left | right; now right]. }
  assert (Hfind : find (has_id (id e)) (textEdits st) = Some e).
  { rewrite Hst. apply find_first; [|apply has_id_self].
    intros x Hx. apply Huniq. apply in_or_app. now left. }
  assert (Hst1 : st1 = setTextEdits (l1 ++ promote newId c1 e :: l2)
                         (db_send (DbInsert (promotion_row env newId c1 e))
                                  (take_uuid st))).
  { subst st1. rewrite updateEdit_eq; cbv zeta. rewrite Hfind, Ho. simpl. rewrite Hdb1.
    f_equal. rewrite Hst. apply map_single; [exact Huniq | apply has_id_self]. }
  assert (Hnew : has_id newId (promote newId c1 e) = true) by apply id_eqb_refl.
  assert (Hfind1 : find (has_id newId) (textEdits st1) = Some (promote newId c1 e)).
  { rewrite Hst1. simpl. apply find_first; [|exact Hnew].
    intros x Hx. apply Hfresh'. apply in_or_app. now left. }
  assert (Hst2 : textEdits st2 = l1 ++ promote newId c2 e :: l2).
  { subst st2. rewrite updateEdit_eq; cbv zeta. rewrite Hfind1.
    change (is_original (promote newId c1 e)) with false. cbv iota.
    replace (db_error env (List.length (db_log st1))) with false.
    - cbn [textEdits setTextEdits]. rewrite Hst1. cbn [textEdits setTextEdits].
      apply (map_single (has_id newId) (with_content c2)); assumption.
    - rewrite Hst1. simpl. rewrite length_app. simpl.
      rewrite Nat.add_1_r. now rewrite Hdb2. }
  assert (Hone : filter (has_id newId) (textEdits st2) = [promote newId c2 e]).
  { rewrite Hst2, filter_app. cbn [filter].
    change (has_id newId (promote newId c2 e)) with (has_id newId (promote newId c1 e)).
    rewrite Hnew.
    rewrite !(filter_none (has_id newId)); [reflexivity| |];
      intros x Hx; apply Hfresh'; apply in_or_app; auto. }
  assert (Hcount : List.length (filter user_authored (textEdits st2))
                   = S (List.length (filter user_authored (textEdits st)))).
  { rewrite Hst2, Hst, !filter_app, !length_app. cbn [filter].
    replace (user_authored e) with false by (unfold user_authored; now rewrite Ho).
    change (user_authored (promote newId c2 e)) with true.
    cbn [List.length]. lia. }
  split; [exact Hst2|]. split; [exact Hone|]. split; [exact Hcount|].
  split; [split; [exact Hcount | now rewrite Hone]|].
  subst st2. rewrite updateEdit_eq; cbv zeta. rewrite Hfind1.
  change (is_original (promote newId c1 e)) with false. cbv iota.
  replace (db_error env (List.length (db_log st1))) with false.
  - rewrite Hst1. simpl. rewrite <- app_assoc. reflexivity.
  - rewrite Hst1. simpl. rewrite length_app. simpl.
    rewrite Nat.add_1_r. now rewrite Hdb2.
Qed.

Lemma promotion_idempotent_witness :
  textEdits (updateEdit sample_env (Uuid "uuid-0") "Total: $100"
               (updateEdit sample_env (OriginalId 1 50 100) "Total: $99" sample_state))
  = [user_note;
     {| id := Uuid "uuid-0"; page_number := 1; content := "Total: $100";
        position_x := 50; position_y := 100; font_size := 12; color := "#000000";
        isEditing := None; isOriginal := Some false |}].
Proof.
  apply (promotion_idempotent sample_env sample_state [user_note] [] total_original
           "Total: $99" "Total: $100").
  - reflexivity.
  - reflexivity.
  - intros x [<- | []]. reflexivity.
  - intros x [<- | [<- | []]]; reflexivity.
  - reflexivity.
  - reflexivity.
Defined.

(** Three double edits of an Original entry that do not end as the
    specification has it.  Typing two characters before the first request
    is answered promotes the entry twice: two rows are inserted under two
    UUIDs and the store retains the second.  On a page that draws the same
    text twice at one position both fragments are promoted, under one
    UUID.  And when the persistence layer rejects the requests no
    UserAuthored entry appears. *)
Lemma promoted_once_fails :
  ~ promoted_once (Uuid "uuid-0") (textEdits sample_state) (textEdits typed_twice)
  /\ map id (textEdits typed_twice) = [Uuid "note-1"; Uuid "uuid-1"]
  /\ map (fun call => match call with
                      | DbInsert row => Some (row_id row, row_content row)
                      | _ => None
                      end) (db_log typed_twice)
     = [Some (Uuid "uuid-0", "Total: $429"); Some (Uuid "uuid-1", "Total: $427")]
  /\ ~ promoted_once (Uuid "uuid-0") (textEdits doubled_state)
        (textEdits
           (updateEdit sample_env (Uuid "uuid-0") "Total: $99"
              (updateEdit sample_env (OriginalId 1 50 100) "Total: $9"
                 doubled_state)))
  /\ ~ promoted_once (Uuid "uuid-0") (textEdits sample_state)
        (textEdits
           (updateEdit rejecting_env (OriginalId 1 50 100) "Total: $99"
              (updateEdit rejecting_env (OriginalId 1 50 100) "Total: $9"
                 sample_state))).
Proof.
  split; [|split; [reflexivity|split; [reflexivity|split]]].
  - intros [_ H]. vm_compute in H. discriminate H.
  - intros [H _]. vm_compute in H. discriminate H.
  - intros [H _]. vm_compute in H. discriminate H.
Qed.

(** ** Extraction and the merged set *)

Lemma extract_item_original (pageNum : Z) (vh : Q) (item : TextItem)
  (t : TextEdit) (m : Mask) :
  extract_item pageNum vh item = Some (t, m) -> original_on pageNum t = true.
Proof.
  unfold extract_item. destruct (str item) as [raw|]; [|discriminate].
  destruct (String.eqb (trim raw) ""); [discriminate|].
  destruct (transform item) as [[[[[t0 t1] t2] t3] t4] t5].
  intros H. injection H as <- _. unfold original_on. simpl.
  now rewrite Z.eqb_refl.
Qed.

Lemma extract_items_original (pageNum : Z) (vh : Q) (items : list TextItem) :
  forall e, In e (fst (extract_items pageNum vh items)) -> original_on pageNum e = true.
Proof.
  induction items as [|item rest IH]; simpl; [intros e []|].
  destruct (extract_items pageNum vh rest) as [ts ms].
  destruct (extract_item pageNum vh item) as [[t m]|] eqn:E; simpl in *.
  - intros e [<- | He]; [eapply extract_item_original; exact E | now apply IH].
  - exact IH.
Qed.

Lemma original_on_not_user (pageNum : Z) (e : TextEdit) :
  original_on pageNum e = true -> user_authored e = false.
Proof.
  unfold original_on, user_authored. intros H.
  apply andb_true_iff in H. destruct H as [-> _]. reflexivity.
Qed.

Lemma user_not_original_on (pageNum : Z) (e : TextEdit) :
  user_authored e = true -> original_on pageNum e = false.
Proof.
  unfold original_on, user_authored. intros H.
  apply negb_true_iff in H. now rewrite H.
Qed.

Lemma merge_extracted_cases (pageNum : Z) (fresh prev : list TextEdit) :
  merge_extracted pageNum fresh prev
  = if existsb (original_on pageNum) prev then prev
    else filter user_authored prev ++ fresh.
Proof.
  unfold merge_extracted.
  change (fun e => is_original e && Z.eqb (page_number e) pageNum)
    with (original_on pageNum).
  now destruct (existsb (original_on pageNum) prev).
Qed.

Lemma existsb_false_on_users (pageNum : Z) (l : list TextEdit) :
  existsb (original_on pageNum) (filter user_authored l) = false.
Proof.
  induction l as [|a l IH]; simpl; [reflexivity|].
  destruct (user_authored a) eqn:Ha; simpl; [|exact IH].
  now rewrite (user_not_original_on pageNum a Ha).
Qed.

Lemma merge_extracted_users (pageNum : Z) (fresh prev : list TextEdit) :
  (forall e, In e fresh -> original_on pageNum e = true) ->
  filter user_authored (merge_extracted pageNum fresh prev)
  = filter user_authored prev.
Proof.
  intros Hfresh. rewrite merge_extracted_cases.
  destruct (existsb (original_on pageNum) prev); [reflexivity|].
  rewrite filter_app, filter_idem.
  rewrite (filter_none user_authored fresh); [apply app_nil_r|].
  intros e He. eapply original_on_not_user. now apply Hfresh.
Qed.

Lemma merge_extracted_idem (pageNum : Z) (fresh prev : list TextEdit) :
  (forall e, In e fresh -> original_on pageNum e = true) ->
  merge_extracted pageNum fresh (merge_extracted pageNum fresh prev)
  = merge_extracted pageNum fresh prev.
Proof.
  intros Hfresh. rewrite (merge_extracted_cases pageNum fresh prev).
  destruct (existsb (original_on pageNum) prev) eqn:E.
  - rewrite merge_extracted_cases, E. reflexivity.
  - rewrite merge_extracted_cases. destruct fresh as [|a fresh'].
    + rewrite !app_nil_r, existsb_false_on_users. now rewrite filter_idem.
    + rewrite existsb_app. simpl.
      rewrite (Hfresh a (or_introl eq_refl)). simpl.
      now rewrite orb_true_r.
Qed.

Lemma put_masks_idem (pageNum : Z) (masks : list Mask) (prev : list (Z * list Mask)) :
  put_masks pageNum masks (put_masks pageNum masks prev) = put_masks pageNum masks prev.
Proof.
  unfold put_masks. simpl. rewrite Z.eqb_refl. simpl. now rewrite filter_idem.
Qed.

Lemma extractTextFromPage_loaded (env : Env) (pageNum : Z) (st : State)
  (page : PdfJsPage) :
  getPage env pageNum = Some page ->
  extractTextFromPage env pageNum st
  = let r := extract_items pageNum
               (viewport_height (page_view_height page) (scale st))
               (text_items page) in
    setTextEdits (merge_extracted pageNum (fst r) (textEdits st))
      (setOriginalMasks (put_masks pageNum (snd r) (originalMasks st)) st).
Proof.
  intros H. unfold extractTextFromPage. rewrite H.
  destruct (extract_items pageNum _ (text_items page)) as [ts ms]. reflexivity.
Qed.

(** C3 (as the code has it).  Extracting a page that pdf.js can read
    leaves the UserAuthored entries as they are, in order, whatever their
    page.  When the merged set already holds an Original entry of that page
    the set is returned unchanged, the freshly derived fragments being
    dropped; when it holds none the result is the UserAuthored entries
    followed by the fresh fragments, which are then exactly the Original
    entries of the page. *)
Theorem extraction_merges_once (env : Env) (st : State) (pageNum : Z)
  (page : PdfJsPage) :
  getPage env pageNum = Some page ->
  let fresh := derived_fragments page pageNum (scale st) in
  let st' := extractTextFromPage env pageNum st in
  filter user_authored (textEdits st') = filter user_authored (textEdits st)
  /\ (existsb (original_on pageNum) (textEdits st) = true ->
        textEdits st' = textEdits st)
  /\ (existsb (original_on pageNum) (textEdits st) = false ->
        textEdits st' = filter user_authored (textEdits st) ++ fresh
        /\ filter (original_on pageNum) (textEdits st') = fresh).
Proof.
  intros Hpage fresh st'. subst st'.
  rewrite (extractTextFromPage_loaded env pageNum st page Hpage).
  cbv zeta. cbn [textEdits setTextEdits setOriginalMasks].
  fold (derived_fragments page pageNum (scale st)). fold fresh.
  assert (Hfresh : forall e, In e fresh -> original_on pageNum e = true)
    by apply extract_items_original.
  split; [now apply merge_extracted_users|].
  rewrite merge_extracted_cases.
  split; intros E; rewrite E; [reflexivity|].
  split; [reflexivity|].
  rewrite filter_app, (filter_all _ fresh Hfresh).
  rewrite (filter_none (original_on pageNum)); [reflexivity|].
  intros e He. apply filter_In in He. destruct He as [_ He].
  now apply user_not_original_on.
Qed.

Lemma extraction_merges_once_witness :
  textEdits (extractTextFromPage sample_env 1
               (setTextEdits [user_note] (setScale 1 initial_state)))
  = [user_note] ++ derived_fragments sample_page1 1 1.
Proof.
  pose proof (extraction_merges_once sample_env
                (setTextEdits [user_note] (setScale 1 initial_state)) 1
                sample_page1 eq_refl) as [_ [_ H]].
  exact (proj1 (H eq_refl)).
Defined.

(** C5. Extraction is idempotent on the merged set: a second extraction of
    the same page, at the same scale and with nothing in between, leaves
    the merged set (and the masks) as the first one left them; no Original
    fragment appears twice. *)
Theorem extraction_idempotent (env : Env) (st : State) (pageNum : Z) :
  let st1 := extractTextFromPage env pageNum st in
  let st2 := extractTextFromPage env pageNum st1 in
  textEdits st2 = textEdits st1
  /\ List.length (textEdits st2) = List.length (textEdits st1)
  /\ originalMasks st2 = originalMasks st1
  /\ scale st2 = scale st.
Proof.
  intros st1 st2.
  assert (H : textEdits st2 = textEdits st1 /\ originalMasks st2 = originalMasks st1
              /\ scale st2 = scale st).
  { subst st2 st1. destruct (getPage env pageNum) as [page|] eqn:Hpage.
    - rewrite !(extractTextFromPage_loaded env pageNum _ page Hpage).
      cbv zeta. cbn [textEdits originalMasks scale setTextEdits setOriginalMasks].
      split; [|split; [apply put_masks_idem | reflexivity]].
      apply merge_extracted_idem, extract_items_original.
    - unfold extractTextFromPage. rewrite Hpage. repeat split. }
  destruct H as [H1 [H2 H3]]. repeat split; try assumption. now rewrite H1.
Qed.

(** ** Coordinate transforms *)

(** The position an extracted fragment gets is [toCanvas] of the item's
    PDF position. *)
Lemma extract_item_position (pageNum : Z) (pageHeight s : Q) (item : TextItem)
  (t : TextEdit) (m : Mask) :
  extract_item pageNum (viewport_height pageHeight s) item = Some (t, m) ->
  let '(_, _, _, _, pdfX, pdfY) := transform item in
  (position_x t, position_y t) = toCanvas pdfX pdfY pageHeight s.
Proof.
  unfold extract_item. destruct (str item) as [raw|]; [|discriminate].
  destruct (String.eqb (trim raw) ""); [discriminate|].
  destruct (transform item) as [[[[[t0 t1] t2] t3] t4] t5].
  intros H. injection H as <- _. reflexivity.
Qed.

(** The offset a position picks up from extraction to export, at any
    scale. *)
Lemma round_trip_offset (x y pageHeight s size : Q) :
  let c := toCanvas x y pageHeight s in
  let p := toPdf (fst c) (snd c) pageHeight size in
  fst p == x /\ snd p == y - size + (pageHeight - pageHeight * s).
Proof.
  simpl. unfold viewport_height. split; [reflexivity | ring].
Qed.

(** C4 (as the code has it).  The x coordinate round-trips exactly.  The y
    coordinate comes back lowered by the size that the export subtracts
    (the font size of a text, the height of an image): at scale 1,
    [toPdf (toCanvas (x, y))] is [(x, y - size)]. *)
Theorem round_trip_at_scale_one (x y pageHeight size : Q) :
  let c := toCanvas x y pageHeight 1 in
  let p := toPdf (fst c) (snd c) pageHeight size in
  fst p == x /\ snd p == y - size.
Proof.
  simpl. unfold viewport_height. split; [reflexivity | ring].
Qed.

(** The specification's own scenario: the text item at PDF y = 700 on an
    800-unit page, extracted at scale 1 to canvas y = 100 with font size
    12, is exported at y = 688, not 700. *)
Lemma round_trip_fails : ~ round_trips 50 700 800 1 12.
Proof.
  unfold round_trips. simpl. intros [_ H].
  unfold Qeq in H. vm_compute in H. discriminate H.
Qed.

(** The merged set the specification's wording of [extract] is refuted on:
    after a zoom the Original entries of the page keep their old position
    although the pass derived new ones; and extracting page 2 drops the
    Original entry of page 1. *)
Lemma extraction_replaces_page_fails :
  (let st := zoomIn sample_state in
   ~ extraction_replaces_page 1 (derived_fragments sample_page1 1 (scale st))
       (textEdits st) (textEdits (extractTextFromPage sample_env 1 st)))
  /\ (let st := sample_state in
      ~ extraction_replaces_page 2 (derived_fragments sample_page2 2 (scale st))
          (textEdits st) (textEdits (extractTextFromPage sample_env 2 st))).
Proof.
  split; cbv zeta.
  - intros [H _]. vm_compute in H. discriminate H.
  - intros [_ [_ H]]. vm_compute in H. discriminate H.
Qed.

(** ** Export *)

Lemma page_at_spec (pages : list Q) (n : Z) :
  page_at pages n
  = if page_exists pages n
    then Some (Z.to_nat (n - 1), nth (Z.to_nat (n - 1)) pages 0)
    else None.
Proof.
  unfold page_at, page_exists.
  destruct (Z.ltb_spec (n - 1) 0) as [Hneg | Hpos].
  - replace (1 <=? n)%Z with false by (symmetry; apply Z.leb_gt; lia).
    reflexivity.
  - replace (1 <=? n)%Z with true by (symmetry; apply Z.leb_le; lia).
    cbn [andb].
    destruct (nth_error pages (Z.to_nat (n - 1))) as [h|] eqn:E.
    + assert (Hlt : (Z.to_nat (n - 1) < List.length pages)%nat)
        by (apply nth_error_Some; congruence).
      replace (n <=? Z.of_nat (List.length pages))%Z with true
        by (symmetry; apply Z.leb_le; lia).
      now rewrite (nth_error_nth pages _ 0 E).
    + apply nth_error_None in E.
      replace (n <=? Z.of_nat (List.length pages))%Z with false
        by (symmetry; apply Z.leb_gt; lia).
      reflexivity.
Qed.

Lemma draw_text_edit_spec (env : Env) (pages : list Q) (doc : list DrawOp)
  (e : TextEdit) :
  draw_text_edit env pages doc e
  = if exported_text pages e
    then if drawText_ok env (content e)
         then Some (doc ++ [text_drawing pages e]) else None
    else Some doc.
Proof.
  unfold draw_text_edit, exported_text, text_drawing.
  destruct (is_original e); [reflexivity|]. cbn [negb andb].
  rewrite page_at_spec. destruct (page_exists pages (page_number e)); [|reflexivity].
  unfold toPdf. now destruct (hexToRgb (color e)) as [[r g] b].
Qed.

Lemma export_text_loop (env : Env) (pages : list Q) (l : list TextEdit) :
  forall doc,
    draw_texts env pages l doc
    = if forallb (text_draws env pages) l
      then Some (doc ++ map (text_drawing pages) (filter (exported_text pages) l))
      else None.
Proof.
  induction l as [|e l IH]; intros doc; simpl; [now rewrite app_nil_r|].
  rewrite draw_text_edit_spec. unfold text_draws at 1.
  destruct (exported_text pages e); cbn [negb orb andb]; [|apply IH].
  destruct (drawText_ok env (content e)); cbn [andb]; [|reflexivity].
  rewrite IH. destruct (forallb (text_draws env pages) l); [|reflexivity].
  simpl. now rewrite <- app_assoc.
Qed.

Lemma embed_image_kind (env : Env) (url : string) (k : ImageKind) :
  embed_image env url = Some k -> k = image_kind url.
Proof.
  unfold embed_image. destruct (fetch_image env url); [|discriminate].
  destruct (image_kind url); [destruct (embedPng env url) | destruct (embedJpg env url)];
    congruence.
Qed.

Lemma draw_image_edit_spec (env : Env) (pages : list Q)
  (acc : list DrawOp * State) (img : ImageEdit) :
  draw_image_edit env pages acc img
  = if embedded_image env pages img
    then (fst acc ++ [image_drawing pages img], snd acc)
    else if failed_image env pages img
         then (fst acc, console_error "Failed to embed image:" (snd acc))
         else acc.
Proof.
  unfold draw_image_edit, embedded_image, failed_image, exported_image, image_ok,
    image_drawing.
  destruct (is_deleted img); [reflexivity|]. cbn [negb andb].
  rewrite page_at_spec.
  destruct (page_exists pages (img_page_number img)); [|reflexivity].
  destruct (embed_image env (image_url img)) as [k|] eqn:E; [|reflexivity].
  apply embed_image_kind in E. subst k. reflexivity.
Qed.

Lemma export_image_loop (env : Env) (pages : list Q) (l : list ImageEdit) :
  forall doc st,
    fold_left (draw_image_edit env pages) l (doc, st)
    = (doc ++ map (image_drawing pages) (filter (embedded_image env pages) l),
       log_embed_failures (List.length (filter (failed_image env pages) l)) st).
Proof.
  induction l as [|img l IH]; intros doc st; simpl; [now rewrite app_nil_r|].
  rewrite draw_image_edit_spec.
  assert (Hex : embedded_image env pages img = true ->
                failed_image env pages img = false).
  { unfold embedded_image, failed_image. intros H.
    apply andb_true_iff in H. destruct H as [-> ->]. reflexivity. }
  destruct (embedded_image env pages img).
  - rewrite (Hex eq_refl), IH. simpl. now rewrite <- app_assoc.
  - destruct (failed_image env pages img); rewrite IH; simpl; [|reflexivity].
    unfold log_embed_failures. now rewrite Nat.iter_swap.
Qed.

(** What [downloadEditedPDF] does, loop by loop. *)
Lemma downloadEditedPDF_spec (env : Env) (st : State) :
  downloadEditedPDF env st
  = match pdf_load env with
    | None => export_failed (toast generating_toast st)
    | Some pages =>
        if texts_draw env pages st then
          let st1 :=
            log_embed_failures
              (List.length (filter (failed_image env pages) (imageEdits st)))
              (toast generating_toast st) in
          if save_ok env
          then toast success_toast (offer_download (exported_document env pages st) st1)
          else export_failed st1
        else export_failed (toast generating_toast st)
    end.
Proof.
  unfold downloadEditedPDF, texts_draw.
  destruct (pdf_load env) as [pages|]; [|reflexivity].
  rewrite export_text_loop.
  destruct (forallb (text_draws env pages) (textEdits st)); [|reflexivity].
  rewrite export_image_loop. reflexivity.
Qed.

Section LoggedFailures.
Variable n : nat.
Variable st : State.

Lemma log_embed_failures_console :
  console (log_embed_failures n st)
  = console st ++ repeat "Failed to embed image:" n.
Proof.
  unfold log_embed_failures. induction n as [|k IH]; simpl.
  - now rewrite app_nil_r.
  - rewrite IH, <- app_assoc. f_equal. symmetry. apply repeat_cons.
Qed.

Lemma log_embed_failures_frame :
  scale (log_embed_failures n st) = scale st
  /\ toasts (log_embed_failures n st) = toasts st
  /\ downloads (log_embed_failures n st) = downloads st.
Proof.
  unfold log_embed_failures. induction n as [|k IH]; simpl; [repeat split|].
  exact IH.
Qed.
End LoggedFailures.

Lemma texts_draw_when_all_draw (env : Env) (pages : list Q) (st : State) :
  (forall e, In e (textEdits st) ->
             negb (is_original e) && page_exists pages (page_number e) = true ->
             drawText_ok env (content e) = true) ->
  texts_draw env pages st = true.
Proof.
  intros H. unfold texts_draw. apply forallb_forall. intros e He.
  unfold text_draws, exported_text.
  destruct (negb (is_original e) && page_exists pages (page_number e)) eqn:E;
    [|reflexivity].
  now rewrite (H e He E).
Qed.

(** C6 (as the code has it).  When the document loads, every text to be
    drawn can be drawn by the standard font and the result saves, the
    export draws exactly the text entries that are not Original, each on
    an existing page of the document, and the image entries that are not
    deleted, on an existing page, and whose bytes embed, in store order,
    texts first.  Original entries, deleted images and entries whose page
    number names no page of the document are skipped; skipping is silent:
    the only lines the console receives are those of images whose bytes
    could not be fetched or decoded, and the toasts are the "generating"
    and the "success" ones.  When every image that is neither deleted nor
    on a missing page can be embedded, all of them are drawn and the
    console receives nothing. *)
Theorem export_draws_exactly (env : Env) (st : State) (pages : list Q) :
  pdf_load env = Some pages ->
  save_ok env = true ->
  (forall e, In e (textEdits st) ->
             negb (is_original e) && page_exists pages (page_number e) = true ->
             drawText_ok env (content e) = true) ->
  let st' := downloadEditedPDF env st in
  let drawn_images :=
    filter (fun img => negb (is_deleted img)
                       && page_exists pages (img_page_number img)
                       && image_ok env img) (imageEdits st) in
  let failed_images :=
    filter (fun img => negb (is_deleted img)
                       && page_exists pages (img_page_number img)
                       && negb (image_ok env img)) (imageEdits st) in
  downloads st'
  = downloads st
    ++ [ map (text_drawing pages)
           (filter (fun e => negb (is_original e)
                             && page_exists pages (page_number e)) (textEdits st))
         ++ map (image_drawing pages) drawn_images ]
  /\ console st'
     = console st ++ repeat "Failed to embed image:" (List.length failed_images)
  /\ toasts st' = toasts st ++ [generating_toast; success_toast]
  /\ ((forall img, In img (imageEdits st) ->
                   negb (is_deleted img)
                   && page_exists pages (img_page_number img) = true ->
                   image_ok env img = true) ->
      drawn_images
      = filter (fun img => negb (is_deleted img)
                           && page_exists pages (img_page_number img))
               (imageEdits st)
      /\ console st' = console st).
Proof.
  intros Hload Hsave Hdraw st' drawn_images failed_images.
  assert (Hst' : st' = toast success_toast
                         (offer_download (exported_document env pages st)
                            (log_embed_failures (List.length failed_images)
                               (toast generating_toast st)))).
  { subst st'. rewrite downloadEditedPDF_spec, Hload.
    rewrite (texts_draw_when_all_draw env pages st Hdraw). now rewrite Hsave. }
  assert (Hconsole : console st'
                     = console st
                       ++ repeat "Failed to embed image:" (List.length failed_images)).
  { rewrite Hst'. simpl. now rewrite log_embed_failures_console. }
  split; [|split; [exact Hconsole | split]].
  - rewrite Hst'. simpl.
    now rewrite (proj2 (proj2 (log_embed_failures_frame _ _))).
  - rewrite Hst'. simpl.
    rewrite (proj1 (proj2 (log_embed_failures_frame _ _))). simpl.
    now rewrite <- app_assoc.
  - intros Hok. split.
    + apply filter_ext_in. intros img Hin.
      destruct (negb (is_deleted img) && page_exists pages (img_page_number img))
        eqn:E; [|reflexivity].
      now rewrite (Hok img Hin E).
    + rewrite Hconsole.
      replace failed_images with (@nil ImageEdit); [apply app_nil_r|].
      symmetry. apply filter_none. intros img Hin.
      destruct (negb (is_deleted img) && page_exists pages (img_page_number img))
        eqn:E; [|reflexivity].
      now rewrite (Hok img Hin E).
Qed.

Lemma export_draws_exactly_witness :
  downloads (downloadEditedPDF sample_env
               (setImageEdits [logo_image] sample_state))
  = [ map (text_drawing [800; 800]) [user_note]
      ++ map (image_drawing [800; 800]) [logo_image] ].
Proof.
  refine (proj1 (export_draws_exactly sample_env
                   (setImageEdits [logo_image] sample_state)
                   [800; 800] eq_refl eq_refl _)).
  intros e [<- | [<- | []]] _; reflexivity.
Defined.

(** The stores the specification's wording of the export is refuted on
    (the document loads and saves in both): with a text the standard font
    cannot encode nothing is drawn at all, the export aborts; and an image
    that is not deleted but cannot be fetched is not drawn. *)
Lemma export_as_specified_fails :
  pdf_load sample_env = Some [800; 800]
  /\ save_ok sample_env = true
  /\ ~ export_as_specified sample_env [800; 800] arrow_state
  /\ downloads (downloadEditedPDF sample_env arrow_state) = []
  /\ ~ export_as_specified sample_env [800; 800] illustrated_state.
Proof.
  split; [reflexivity|]. split; [reflexivity|]. split; [|split].
  - unfold export_as_specified. intros H. vm_compute in H. discriminate H.
  - reflexivity.
  - unfold export_as_specified. intros H. vm_compute in H. discriminate H.
Qed.

(** C7 (as the code has it).  An image whose bytes cannot be fetched or
    decoded does not abort the export: the failure goes to the console,
    the image is left out, and, the document loading, the texts being
    drawn and the result saving, the PDF without that image is offered for
    download under the success toast. *)
Theorem export_survives_image_failure (env : Env) (st : State) (pages : list Q)
  (img : ImageEdit) :
  pdf_load env = Some pages ->
  save_ok env = true ->
  (forall e, In e (textEdits st) ->
             negb (is_original e) && page_exists pages (page_number e) = true ->
             drawText_ok env (content e) = true) ->
  In img (imageEdits st) ->
  exported_image pages img = true ->
  image_ok env img = false ->
  let st' := downloadEditedPDF env st in
  downloads st' = downloads st ++ [exported_document env pages st]
  /\ ~ In img (filter (embedded_image env pages) (imageEdits st))
  /\ toasts st' = toasts st ++ [generating_toast; success_toast]
  /\ In "Failed to embed image:" (console st')
  /\ ~ export_aborts env st.
Proof.
  intros Hload Hsave Hdraw Hin Hexp Hbad st'.
  pose proof (texts_draw_when_all_draw env pages st Hdraw) as Htexts.
  assert (Hd : downloads st' = downloads st ++ [exported_document env pages st]).
  { subst st'. rewrite downloadEditedPDF_spec, Hload, Htexts, Hsave. cbv zeta. simpl.
    now rewrite (proj2 (proj2 (log_embed_failures_frame _ _))). }
  split; [exact Hd|]. split; [|split; [|split]].
  - intros H. apply filter_In in H. destruct H as [_ H].
    unfold embedded_image in H. rewrite Hbad, andb_false_r in H. discriminate.
  - subst st'. rewrite downloadEditedPDF_spec, Hload, Htexts, Hsave. cbv zeta. simpl.
    rewrite (proj1 (proj2 (log_embed_failures_frame _ _))). simpl.
    now rewrite <- app_assoc.
  - subst st'. rewrite downloadEditedPDF_spec, Hload, Htexts, Hsave. cbv zeta. simpl.
    rewrite log_embed_failures_console. apply in_or_app. right.
    assert (Hf : In img (filter (failed_image env pages) (imageEdits st))).
    { apply filter_In. split; [exact Hin|]. unfold failed_image.
      now rewrite Hexp, Hbad. }
    destruct (filter (failed_image env pages) (imageEdits st)); [destruct Hf|].
    simpl. now left.
  - unfold export_aborts. cbv zeta. fold st'. intros [H _]. rewrite Hd in H.
    apply (f_equal (@List.length _)) in H. rewrite length_app in H.
    simpl in H. lia.
Qed.

Lemma export_survives_image_failure_witness :
  downloads (downloadEditedPDF sample_env illustrated_state)
  = [exported_document sample_env [800; 800] illustrated_state].
Proof.
  apply (export_survives_image_failure sample_env illustrated_state [800; 800]
           missing_image eq_refl eq_refl).
  - intros e [<- | [<- | []]] _; reflexivity.
  - right. left. reflexivity.
  - reflexivity.
  - reflexivity.
Defined.

(** The export the specification's wording of the error policy is refuted
    on: fetching [missing_image] fails, yet a PDF is offered. *)
Lemma export_aborts_fails :
  In missing_image (imageEdits illustrated_state)
  /\ exported_image [800; 800] missing_image = true
  /\ fetch_image sample_env (image_url missing_image) = false
  /\ ~ export_aborts sample_env illustrated_state.
Proof.
  repeat split.
  - right. left. reflexivity.
  - intros [H _]. vm_compute in H. discriminate H.
Qed.

(** ** Zoom *)

Lemma zoomIn_in_range (st : State) : scale_in_range st -> scale_in_range (zoomIn st).
Proof.
  unfold scale_in_range, zoomIn. simpl. intros [Hlo Hhi]. split.
  - apply Q.min_glb; lra.
  - apply Q.le_min_r.
Qed.

Lemma zoomOut_in_range (st : State) : scale_in_range st -> scale_in_range (zoomOut st).
Proof.
  unfold scale_in_range, zoomOut. simpl. intros [Hlo Hhi]. split.
  - apply Q.le_max_r.
  - apply Q.max_lub; lra.
Qed.

Lemma updateEdit_scale (env : Env) (editId : EditId) (c : string) (st : State) :
  scale (updateEdit env editId c st) = scale st.
Proof.
  rewrite updateEdit_eq; cbv zeta. destruct (find (has_id editId) (textEdits st)) as [e|];
    [|reflexivity].
  destruct (is_original e).
  - now destruct (db_error env (List.length (db_log (take_uuid st)))).
  - now destruct (db_error env (List.length (db_log st))).
Qed.

Lemma deleteEdit_scale (env : Env) (editId : EditId) (st : State) :
  scale (deleteEdit env editId st) = scale st.
Proof.
  rewrite deleteEdit_eq; cbv zeta. destruct (find (has_id editId) (textEdits st)) as [e|];
    [|reflexivity].
  destruct (is_original e); simpl; [reflexivity|].
  now destruct (db_error env (List.length (db_log st))).
Qed.

Lemma deleteImage_scale (env : Env) (imageId : EditId) (st : State) :
  scale (deleteImage env imageId st) = scale st.
Proof.
  unfold deleteImage. now destruct (db_error env (List.length (db_log st))).
Qed.

Lemma extractTextFromPage_scale (env : Env) (pageNum : Z) (st : State) :
  scale (extractTextFromPage env pageNum st) = scale st.
Proof.
  destruct (getPage env pageNum) as [page|] eqn:E.
  - now rewrite (extractTextFromPage_loaded env pageNum st page E).
  - unfold extractTextFromPage. now rewrite E.
Qed.

Lemma downloadEditedPDF_scale (env : Env) (st : State) :
  scale (downloadEditedPDF env st) = scale st.
Proof.
  rewrite downloadEditedPDF_spec. destruct (pdf_load env) as [pages|];
    [|reflexivity].
  destruct (texts_draw env pages st); [|reflexivity].
  cbv zeta. destruct (save_ok env); simpl;
    now rewrite (proj1 (log_embed_failures_frame _ _)).
Qed.

Lemma handle_in_range (env : Env) (st : State) (ev : Event) :
  scale_in_range st -> scale_in_range (handle env st ev).
Proof.
  intros H. destruct ev; simpl.
  - now apply zoomIn_in_range.
  - now apply zoomOut_in_range.
  - unfold scale_in_range. now rewrite extractTextFromPage_scale.
  - unfold scale_in_range. now rewrite updateEdit_scale.
  - unfold scale_in_range. now rewrite deleteEdit_scale.
  - unfold scale_in_range. now rewrite deleteImage_scale.
  - unfold scale_in_range. now rewrite downloadEditedPDF_scale.
Qed.

Lemma run_in_range (env : Env) (evs : list Event) :
  forall st, scale_in_range st -> scale_in_range (run env evs st).
Proof.
  unfold run. induction evs as [|ev evs IH]; intros st H; simpl; [exact H|].
  apply IH. now apply handle_in_range.
Qed.

(** C10. The render scale stays within [0.5, 3.0].  It starts at 1.5; a
    zoom-in sets it to [min (scale + 0.25) 3], a zoom-out to
    [max (scale - 0.25) 0.5]; no other handler touches it.  So after any
    sequence of events the scale is at least 0.5 and at most 3. *)
Theorem scale_always_in_range (env : Env) (evs : list Event) :
  let st := run env evs initial_state in
  scale initial_state == 3 # 2
  /\ 1 # 2 <= scale st /\ scale st <= 3
  /\ scale (zoomIn st) = Qmin (scale st + (1 # 4)) 3
  /\ scale (zoomOut st) = Qmax (scale st - (1 # 4)) (1 # 2)
  /\ 1 # 2 <= scale (zoomIn st) <= 3
  /\ 1 # 2 <= scale (zoomOut st) <= 3.
Proof.
  intros st.
  assert (H : scale_in_range st).
  { apply run_in_range. unfold scale_in_range. simpl. split; lra. }
  split; [reflexivity|]. split; [apply H|]. split; [apply H|].
  split; [reflexivity|]. split; [reflexivity|].
  split; [apply (zoomIn_in_range st H) | apply (zoomOut_in_range st H)].
Qed.

(** Zooming in seven times from the initial state stops at 3; zooming out
    five times stops at 0.5. *)
Example zoom_saturates :
  scale (run sample_env (repeat ZoomInClicked 7) initial_state) == 3
  /\ scale (run sample_env (repeat ZoomOutClicked 5) initial_state) == 1 # 2.
Proof. split; vm_compute; reflexivity. Qed.

Lemma handle_on_quarter_grid (env : Env) (st : State) (ev : Event) :
  on_quarter_grid st -> on_quarter_grid (handle env st ev).
Proof.
  unfold on_quarter_grid. intros [k Hk]. destruct ev; simpl.
  - destruct (Q.min_spec (scale st + (1 # 4)) 3) as [[_ E] | [_ E]].
    + exists (k + 1)%Z. rewrite E, Hk, inject_Z_plus. ring.
    + exists 12%Z. rewrite E. reflexivity.
  - destruct (Q.max_spec (scale st - (1 # 4)) (1 # 2)) as [[_ E] | [_ E]].
    + exists 2%Z. rewrite E. reflexivity.
    + exists (k - 1)%Z. rewrite E, Hk.
      assert (Hk' : inject_Z k == inject_Z (k - 1) + inject_Z 1).
      { rewrite <- inject_Z_plus. now replace (k - 1 + 1)%Z with k by lia. }
      rewrite Hk'. change (inject_Z 1) with 1. ring.
  - rewrite extractTextFromPage_scale. now exists k.
  - rewrite updateEdit_scale. now exists k.
  - rewrite deleteEdit_scale. now exists k.
  - rewrite deleteImage_scale. now exists k.
  - rewrite downloadEditedPDF_scale. now exists k.
Qed.

Lemma run_on_quarter_grid (env : Env) (evs : list Event) :
  on_quarter_grid (run env evs initial_state).
Proof.
  assert (H : forall st, on_quarter_grid st -> on_quarter_grid (run env evs st)).
  { unfold run. induction evs as [|ev evs IH]; intros st Hst; simpl; [exact Hst|].
    apply IH. now apply handle_on_quarter_grid. }
  apply H. exists 6%Z. reflexivity.
Qed.

(** ** The scenarios of the specification, end to end *)

(** Extracting the sample page at scale 1 yields one fragment
    "Total: $42" with font size 12 at canvas y = 800 - 700 = 100. *)
Example scenario_extract :
  exists t,
    textEdits (extractTextFromPage sample_env 1 (setScale 1 initial_state)) = [t]
    /\ content t = "Total: $42" /\ is_original t = true
    /\ font_size t == 12 /\ position_x t == 50 /\ position_y t == 100.
Proof. eexists. repeat split. Qed.

(** Exporting the promoted fragment (canvas (50, 100), font size 12, 800
    unit page) draws the text at PDF y = 800 - 100 - 12 = 688. *)
Example scenario_export :
  exists r g b y,
    downloads (downloadEditedPDF sample_env
                 (updateEdit sample_env (OriginalId 1 50 100) "Total: $99"
                    (setTextEdits [total_original] (setScale 1 initial_state))))
    = [[DrawText 0 "Total: $99" 50 y 12 r g b]]
    /\ y == 688.
Proof. do 4 eexists. split; [vm_compute; reflexivity | reflexivity]. Qed.

(* ================================================================== *)
(** * Further properties of the component *)

(** ** More list surgery *)


Lemma id_eqb_template (a b : EditId) :
  id_eqb a b = true -> template_id a = template_id b.
Proof. destruct a, b; simpl; intros H; try discriminate; reflexivity. Qed.

Lemma map_map_if {A B : Type} (p : A -> bool) (f : A -> A) (g : A -> B)
  (l : list A) :
  (forall x, g (f x) = g x) ->
  map g (map (fun x => if p x then f x else x) l) = map g l.
Proof.
  intros H. rewrite map_map. apply map_ext. intros x.
  destruct (p x); [apply H | reflexivity].
Qed.

Lemma Forall_map_if {A : Type} (P : A -> Prop) (p : A -> bool) (f : A -> A)
  (l : list A) :
  (forall x, P x -> P (f x)) -> Forall P l ->
  Forall P (map (fun x => if p x then f x else x) l).
Proof.
  intros Hf H. induction H as [|x l Hx Hl IH]; simpl; constructor; [|exact IH].
  destruct (p x); [now apply Hf | exact Hx].
Qed.

Lemma Forall_filter {A : Type} (P : A -> Prop) (p : A -> bool) (l : list A) :
  Forall P l -> Forall P (filter p l).
Proof.
  intros H. apply Forall_forall. intros x Hx. apply filter_In in Hx.
  destruct Hx as [Hx _]. revert x Hx. now apply Forall_forall.
Qed.


Lemma find_filter {A : Type} (p q : A -> bool) (l : list A) :
  (forall x, p x = true -> q x = true) ->
  find p (filter q l) = find p l.
Proof.
  intros H. induction l as [|a l IH]; simpl; [reflexivity|].
  destruct (q a) eqn:Hq; simpl.
  - destruct (p a); [reflexivity | exact IH].
  - destruct (p a) eqn:Hp; [|exact IH]. rewrite (H a Hp) in Hq. discriminate.
Qed.

(** ** Loading the persisted edits *)

Lemma load_rows_spec (data : list PdfEditRow) :
  load_rows data
  = (map text_of_row (filter (fun r => String.eqb (edit_type r) "text") data),
     map image_of_row (filter (fun r => String.eqb (edit_type r) "image") data)).
Proof.
  induction data as [|r data IH]; simpl; [reflexivity|]. rewrite IH.
  destruct (String.eqb (edit_type r) "text") eqn:Et.
  - apply String.eqb_eq in Et. rewrite Et. reflexivity.
  - destruct (String.eqb (edit_type r) "image"); reflexivity.
Qed.

Lemma load_rows_count (data : list PdfEditRow) :
  (List.length (filter (fun r => String.eqb (edit_type r) "text") data)
   + List.length (filter (fun r => String.eqb (edit_type r) "image") data)
   <= List.length data)%nat.
Proof.
  induction data as [|r data IH]; [simpl; lia|].
  cbn [filter List.length].
  destruct (String.eqb (edit_type r) "text") eqn:Et.
  - apply String.eqb_eq in Et. rewrite Et.
    change (String.eqb "text" "image") with false. cbn [List.length]. lia.
  - destruct (String.eqb (edit_type r) "image"); cbn [List.length]; lia.
Qed.

(** X1. Loading replaces the store wholesale: afterwards the text entries
    are the rows of type "text", in order, and the images the rows of type
    "image"; rows of any other type are ignored.  No Original entry
    survives a load, whatever the store held, and every loaded entry has a
    UUID for id. *)
Theorem loadEdits_replaces_store (data : list PdfEditRow) (st : State) :
  let st' := loadEdits (SelectRows data) st in
  textEdits st'
  = map text_of_row (filter (fun r => String.eqb (edit_type r) "text") data)
  /\ imageEdits st'
     = map image_of_row (filter (fun r => String.eqb (edit_type r) "image") data)
  /\ filter is_original (textEdits st') = []
  /\ Forall well_tagged (textEdits st')
  /\ (forall e, In e (textEdits st') -> template_id (id e) = false)
  /\ (List.length (textEdits st') + List.length (imageEdits st')
      <= List.length data)%nat.
Proof.
  intros st'. subst st'. unfold loadEdits. rewrite load_rows_spec.
  cbn [textEdits imageEdits setTextEdits setImageEdits].
  split; [reflexivity|]. split; [reflexivity|].
  assert (H : forall e,
             In e (map text_of_row
                     (filter (fun r => String.eqb (edit_type r) "text") data)) ->
             is_original e = false /\ template_id (id e) = false).
  { intros e He. apply in_map_iff in He. destruct He as [r [<- _]]. now split. }
  split; [|split; [|split]].
  - apply filter_none. intros e He. now apply H.
  - apply Forall_forall. intros e He. destruct (H e He) as [H1 H2].
    unfold well_tagged. now rewrite H1, H2.
  - intros e He. now apply H.
  - rewrite !length_map. apply load_rows_count.
Qed.

Lemma num_or_nonzero (v : option Q) (d : Q) : ~ d == 0 -> ~ num_or v d == 0.
Proof.
  intros Hd. unfold num_or. destruct v as [n|]; [|exact Hd].
  destruct (Qeq_bool n 0) eqn:E; [exact Hd|].
  now apply Qeq_bool_neq.
Qed.

Lemma str_or_nonempty (v : option string) (d : string) :
  d <> "" -> str_or v d <> "".
Proof.
  intros Hd. unfold str_or. destruct v as [s|]; [|exact Hd].
  destruct (String.eqb s "") eqn:E; [exact Hd|]. now apply String.eqb_neq.
Qed.

(** X2. The defaults of a load.  Every loaded text comes from a row of
    type "text": its font size is the row's, or 16 when the row has none or
    has 0; its colour is the row's, or "#000000" when the row has none or
    the empty string; so a loaded text never has font size 0 or an empty
    colour.  Every loaded image comes from a row of type "image": its width
    and its height are the row's, or 200 when the row has none or has 0; so
    a loaded image never has width or height 0. *)
Theorem loaded_entries_have_sizes (data : list PdfEditRow) (st : State) :
  let st' := loadEdits (SelectRows data) st in
  (forall e, In e (textEdits st') ->
     (exists r, In r data /\ edit_type r = "text"
        /\ font_size e = match edit_font_size r with
                         | Some n => if Qeq_bool n 0 then 16 else n
                         | None => 16
                         end
        /\ color e = match edit_color r with
                     | Some c => if String.eqb c "" then "#000000" else c
                     | None => "#000000"
                     end)
     /\ ~ font_size e == 0 /\ color e <> "")
  /\ (forall img, In img (imageEdits st') ->
       (exists r, In r data /\ edit_type r = "image"
          /\ width img = match edit_width r with
                         | Some n => if Qeq_bool n 0 then 200 else n
                         | None => 200
                         end
          /\ height img = match edit_height r with
                          | Some n => if Qeq_bool n 0 then 200 else n
                          | None => 200
                          end)
       /\ ~ width img == 0 /\ ~ height img == 0).
Proof.
  intros st'. subst st'. unfold loadEdits. rewrite load_rows_spec.
  cbn [textEdits imageEdits setTextEdits setImageEdits]. split.
  - intros e He. apply in_map_iff in He. destruct He as [r [<- Hr]].
    apply filter_In in Hr. destruct Hr as [Hin Ht]. apply String.eqb_eq in Ht.
    split; [|split].
    + exists r. repeat split; assumption.
    + apply num_or_nonzero. discriminate.
    + apply str_or_nonempty. discriminate.
  - intros img He. apply in_map_iff in He. destruct He as [r [<- Hr]].
    apply filter_In in Hr. destruct Hr as [Hin Ht]. apply String.eqb_eq in Ht.
    split; [|split].
    + exists r. repeat split; assumption.
    + apply num_or_nonzero. discriminate.
    + apply num_or_nonzero. discriminate.
Qed.

Lemma as_integer_of_Z (q : Q) (z : Z) : q == inject_Z z -> as_integer q = Some z.
Proof.
  intros H. unfold as_integer. rewrite (Qred_complete _ _ H).
  pose proof (gcd_Qred (inject_Z z)) as Hg.
  pose proof (Qred_correct (inject_Z z)) as Hc.
  destruct (Qred (inject_Z z)) as [n d]. unfold Qeq in Hc. simpl in *.
  rewrite Z.mul_1_r in Hc. subst n.
  rewrite Z.gcd_comm, (Z.mul_comm z), Z.gcd_mul_diag_l in Hg by lia.
  injection Hg as ->. simpl. now rewrite Z.mul_1_r.
Qed.

Lemma as_integer_sound (q : Q) (z : Z) : as_integer q = Some z -> q == inject_Z z.
Proof.
  unfold as_integer. destruct (Pos.eqb (Qden (Qred q)) 1) eqn:E; [|discriminate].
  intros H. injection H as <-. apply Pos.eqb_eq in E.
  rewrite <- (Qred_correct q) at 1.
  destruct (Qred q) as [n d]. simpl in *. subst d. reflexivity.
Qed.

(** X3. What [saveEdit] writes is what [loadEdits] reads, for a row the
    table takes.  Take a text entry whose values fit their columns (the id
    and the report id are UUIDs, the page number and the font size whole
    numbers of 32 bits, the content and the colour hold no U+0000), with
    a font size that is not 0 and a colour that is not empty.  The row
    [saveEdit] inserts for it is stored, and handed back by the table it
    loads as the same entry (id, page, content, position, font size,
    colour), marked UserAuthored. *)
Theorem saved_text_loads_back (env : Env) (e : TextEdit) (u : string) (size : Z)
  (st : State) :
  id e = Uuid u ->
  font_size e == inject_Z size ->
  size <> 0%Z ->
  color e <> "" ->
  is_uuid u = true ->
  is_uuid (reportId env) = true ->
  int4 size = true ->
  int4 (page_number e) = true ->
  is_text (content e) = true ->
  is_text (color e) = true ->
  exists row,
    stored_text_row u (text_row env e) = Some row
    /\ textEdits (loadEdits (SelectRows [row]) st)
       = [ {| id := id e; page_number := page_number e; content := content e;
              position_x := position_x e; position_y := position_y e;
              font_size := inject_Z size; color := color e;
              isEditing := None; isOriginal := Some false |} ].
Proof.
  intros Hid Hfont Hsize Hcolor Hu Hr Hs Hp Hc Hk. unfold stored_text_row.
  cbn [text_row row_font_size].
  rewrite (as_integer_of_Z _ _ Hfont).
  unfold fits_columns.
  cbn [text_row row_report_id row_page_number row_content row_color].
  rewrite Hu, Hr, Hs, Hp, Hc, Hk. cbn [andb].
  eexists. split; [reflexivity|].
  unfold loadEdits. rewrite load_rows_spec. simpl.
  unfold text_of_row. simpl. rewrite Hid. f_equal. f_equal.
  - unfold str_or. now destruct (String.eqb (content e) "") eqn:E;
      [apply String.eqb_eq in E; rewrite E|].
  - destruct (Qeq_bool (inject_Z size) 0) eqn:E; [|reflexivity].
    apply Qeq_bool_iff in E. exfalso. apply Hsize.
    unfold Qeq in E. simpl in E. lia.
  - destruct (String.eqb (color e) "") eqn:E; [|reflexivity].
    apply String.eqb_eq in E. contradiction.
Qed.

Lemma saved_text_loads_back_witness :
  exists row,
    stored_text_row "123e4567-e89b-42d3-a456-426614174000"
      (text_row stored_env stored_note) = Some row
    /\ textEdits (loadEdits (SelectRows [row]) sample_state)
       = [ {| id := Uuid "123e4567-e89b-42d3-a456-426614174000";
              page_number := 2; content := "checked";
              position_x := 30; position_y := 40 + (1 # 2); font_size := 16;
              color := "#ff0000";
              isEditing := None; isOriginal := Some false |} ].
Proof.
  apply (saved_text_loads_back stored_env stored_note
           "123e4567-e89b-42d3-a456-426614174000" 16 sample_state);
    try reflexivity; discriminate.
Defined.

(** A font size that is not a whole number does not fit the column: the
    table refuses the row.  So does it refuse the row of a fragment
    extracted at 11.5 units, whatever its key. *)
Lemma fractional_size_is_not_stored (u : string) (row : TextRow) :
  (forall size, ~ row_font_size row == inject_Z size) ->
  stored_text_row u row = None.
Proof.
  intros H. unfold stored_text_row.
  destruct (as_integer (row_font_size row)) as [size|] eqn:E; [|reflexivity].
  apply as_integer_sound in E. now elim (H size).
Qed.

Example fractional_row_refused (u : string) :
  stored_text_row u
    (promotion_row stored_env (Uuid u) "Total: $99"
       {| id := OriginalId 1 50 100; page_number := 1; content := "Total: $42";
          position_x := 50; position_y := 100; font_size := 23 # 2;
          color := "#000000"; isEditing := None; isOriginal := Some true |})
  = None.
Proof. reflexivity. Qed.

(** A load on rows with missing fields: the highlight row is ignored, the
    text gets size 16 and the colour black, the image 200 by 200. *)
Example load_sample_rows :
  let st := loadEdits (SelectRows sample_rows) sample_state in
  map font_size (textEdits st) = [16]
  /\ map color (textEdits st) = ["#000000"]
  /\ map width (imageEdits st) = [200]
  /\ map is_deleted (imageEdits st) = [true].
Proof. repeat split. Qed.

(** ** Creating a text *)

(** X4. Creating a text is optimistic.  In text mode a click on the canvas
    appends exactly one UserAuthored entry (a UUID for id, the current
    page, the click position relative to the canvas, the toolbar's font
    size and colour), leaves text mode and sends exactly one insert of
    that entry.  The entry stays in the store when the insert fails; the
    failure only adds the "Failed to save edit" toast. *)
Theorem text_creation_is_optimistic (env : Env) (rect : DOMRect) (clientX clientY : Q)
  (ed : Editor) :
  isAddingText ed = true ->
  let ed' := handleCanvasClick env (Some rect) clientX clientY ed in
  let e := {| id := Uuid (randomUUID env (uuid_count (store ed)));
              page_number := currentPage (store ed);
              content := "Double-click to edit";
              position_x := clientX - rect_left rect;
              position_y := clientY - rect_top rect;
              font_size := fontSize ed; color := textColor ed;
              isEditing := Some false; isOriginal := None |} in
  textEdits (store ed') = textEdits (store ed) ++ [e]
  /\ is_original e = false
  /\ db_log (store ed') = db_log (store ed) ++ [DbInsert (text_row env e)]
  /\ isAddingText ed' = false
  /\ imageEdits (store ed') = imageEdits (store ed)
  /\ toasts (store ed')
     = toasts (store ed)
       ++ (if db_error env (List.length (db_log (store ed)))
           then [save_failed_toast] else []).
Proof.
  intros Hmode ed' e. subst ed'. unfold handleCanvasClick. rewrite Hmode.
  cbn [negb andb]. unfold saveEdit.
  cbn [db_log take_uuid setTextEdits].
  destruct (db_error env (List.length (db_log (store ed)))); simpl;
    repeat split; now rewrite ?app_nil_r.
Qed.

Lemma text_creation_is_optimistic_witness :
  textEdits (store (handleCanvasClick sample_env (Some sample_rect) 110 220 sample_editor))
  = textEdits illustrated_state
    ++ [ {| id := Uuid "uuid-0"; page_number := 1; content := "Double-click to edit";
            position_x := 110 - 10; position_y := 220 - 20;
            font_size := 16; color := "#336699";
            isEditing := Some false; isOriginal := None |} ].
Proof.
  exact (proj1 (text_creation_is_optimistic sample_env sample_rect 110 220
                  sample_editor eq_refl)).
Defined.

(** ** Dragging *)

(** X5. A text follows the mouse.  After the mouse goes down on a text
    overlay and moves, every entry under that id sits at the overlay's
    position plus the displacement of the mouse, wherever the canvas is;
    the other entries are as they were, and nothing has been sent to the
    persistence layer. *)
Theorem drag_follows_mouse (rect : DOMRect) (downX downY moveX moveY : Q)
  (edit : TextEdit) (ed : Editor) :
  let ed1 := textMouseDown false (Some rect) downX downY edit ed in
  let ed2 := onMove (Some rect) moveX moveY ed1 in
  exists newX newY,
    textEdits (store ed2)
    = map (fun t => if has_id (id edit) t then with_position newX newY t else t)
          (textEdits (store ed))
    /\ newX == position_x edit + (moveX - downX)
    /\ newY == position_y edit + (moveY - downY)
    /\ db_log (store ed2) = db_log (store ed)
    /\ position_log ed2 = position_log ed
    /\ selectedEditId ed2 = Some (id edit).
Proof.
  intros ed1 ed2. subst ed2 ed1. unfold onMove, textMouseDown. simpl.
  eexists. eexists. split; [reflexivity|]. repeat split; ring.
Qed.

Lemma onMove_frame (canvas : option DOMRect) (clientX clientY : Q) (ed : Editor) :
  let ed' := onMove canvas clientX clientY ed in
  db_log (store ed') = db_log (store ed)
  /\ position_log ed' = position_log ed
  /\ image_insert_log ed' = image_insert_log ed
  /\ dragging ed' = dragging ed
  /\ map id (textEdits (store ed')) = map id (textEdits (store ed))
  /\ map content (textEdits (store ed')) = map content (textEdits (store ed))
  /\ map is_original (textEdits (store ed')) = map is_original (textEdits (store ed))
  /\ map img_id (imageEdits (store ed')) = map img_id (imageEdits (store ed)).
Proof.
  unfold onMove. destruct (dragging ed) as [d|] eqn:Hd; [|now rewrite Hd].
  destruct canvas as [rect|]; [|now rewrite Hd].
  destruct (drag_type d); simpl; rewrite ?Hd; repeat split;
    try reflexivity; now apply map_map_if.
Qed.

Lemma moves_frame (moves : list (option DOMRect * Q * Q)) :
  forall ed,
    let ed' := fold_left (fun e m => onMove (fst (fst m)) (snd (fst m)) (snd m) e)
                 moves ed in
    db_log (store ed') = db_log (store ed)
    /\ position_log ed' = position_log ed
    /\ image_insert_log ed' = image_insert_log ed
    /\ dragging ed' = dragging ed
    /\ map id (textEdits (store ed')) = map id (textEdits (store ed))
    /\ map content (textEdits (store ed')) = map content (textEdits (store ed))
    /\ map is_original (textEdits (store ed')) = map is_original (textEdits (store ed))
    /\ map img_id (imageEdits (store ed')) = map img_id (imageEdits (store ed)).
Proof.
  induction moves as [|m moves IH]; intros ed; simpl; [repeat split|].
  destruct (IH (onMove (fst (fst m)) (snd (fst m)) (snd m) ed))
    as [H1 [H2 [H3 [H4 [H5 [H6 [H7 H8]]]]]]].
  destruct (onMove_frame (fst (fst m)) (snd (fst m)) (snd m) ed)
    as [G1 [G2 [G3 [G4 [G5 [G6 [G7 G8]]]]]]].
  cbv zeta in *. repeat split; congruence.
Qed.

(** X6. Mouse moves are in-memory only.  However many moves a drag is made
    of, no request is sent, no entry is added or removed, and ids, contents
    and provenance are untouched: only positions change. *)
Theorem moves_never_persist (moves : list (option DOMRect * Q * Q)) (ed : Editor) :
  let ed' := fold_left (fun e m => onMove (fst (fst m)) (snd (fst m)) (snd m) e)
               moves ed in
  db_log (store ed') = db_log (store ed)
  /\ position_log ed' = position_log ed
  /\ image_insert_log ed' = image_insert_log ed
  /\ List.length (textEdits (store ed')) = List.length (textEdits (store ed))
  /\ map id (textEdits (store ed')) = map id (textEdits (store ed))
  /\ map content (textEdits (store ed')) = map content (textEdits (store ed))
  /\ map is_original (textEdits (store ed')) = map is_original (textEdits (store ed))
  /\ map img_id (imageEdits (store ed')) = map img_id (imageEdits (store ed)).
Proof.
  intros ed'. destruct (moves_frame moves ed) as [H1 [H2 [H3 [_ [H5 [H6 [H7 H8]]]]]]].
  fold ed' in H1, H2, H3, H5, H6, H7, H8.
  repeat split; try assumption.
  rewrite <- (length_map id (textEdits (store ed'))), H5. apply length_map.
Qed.










(** ** Export, again *)

Lemma log_embed_failures_store (n : nat) (st : State) :
  textEdits (log_embed_failures n st) = textEdits st
  /\ imageEdits (log_embed_failures n st) = imageEdits st
  /\ db_log (log_embed_failures n st) = db_log st
  /\ originalMasks (log_embed_failures n st) = originalMasks st
  /\ currentPage (log_embed_failures n st) = currentPage st
  /\ uuid_count (log_embed_failures n st) = uuid_count st.
Proof.
  unfold log_embed_failures. induction n as [|k IH]; simpl; [repeat split|].
  exact IH.
Qed.

(** X11. The export writes to no store: whatever the document, the images
    and the outcome, [downloadEditedPDF] leaves the text and image
    entries, the masks, the page, the scale and the request log
    untouched. *)
Theorem export_touches_no_store (env : Env) (st : State) :
  let st' := downloadEditedPDF env st in
  textEdits st' = textEdits st
  /\ imageEdits st' = imageEdits st
  /\ db_log st' = db_log st
  /\ originalMasks st' = originalMasks st
  /\ currentPage st' = currentPage st
  /\ scale st' = scale st
  /\ uuid_count st' = uuid_count st.
Proof.
  intros st'. subst st'. rewrite downloadEditedPDF_spec.
  destruct (pdf_load env) as [pages|]; [|repeat split].
  destruct (texts_draw env pages st); [|repeat split].
  cbv zeta.
  destruct (log_embed_failures_store
              (List.length (filter (failed_image env pages) (imageEdits st)))
              (toast generating_toast st)) as [H1 [H2 [H3 [H4 [H5 H6]]]]].
  pose proof (proj1 (log_embed_failures_frame
              (List.length (filter (failed_image env pages) (imageEdits st)))
              (toast generating_toast st))) as H7.
  destruct (save_ok env); simpl; repeat split; assumption.
Qed.

(** X12. An export ends in exactly one of two ways.  When the document
    loads, every text to be drawn can be drawn and the result saves, one
    PDF is offered and the toasts are "generating" then "success"; when any
    of the three fails, no PDF is offered, the toasts are "generating" then
    the error toast, and "Error generating PDF:" goes to the console. *)
Theorem export_outcome (env : Env) (st : State) :
  let st' := downloadEditedPDF env st in
  let ok := match pdf_load env with
            | Some pages =>
                forallb (fun e => negb (negb (is_original e)
                                         && page_exists pages (page_number e))
                                  || drawText_ok env (content e)) (textEdits st)
                && save_ok env
            | None => false
            end in
  downloads st'
  = downloads st
    ++ match pdf_load env with
       | Some pages => if ok then [exported_document env pages st] else []
       | None => []
       end
  /\ toasts st'
     = toasts st ++ [generating_toast; if ok then success_toast else error_toast]
  /\ (ok = false -> In "Error generating PDF:" (console st')).
Proof.
  intros st' ok. subst st' ok. rewrite downloadEditedPDF_spec.
  destruct (pdf_load env) as [pages|].
  - change (forallb (fun e => negb (negb (is_original e)
                                     && page_exists pages (page_number e))
                              || drawText_ok env (content e)) (textEdits st))
      with (texts_draw env pages st).
    destruct (texts_draw env pages st); cbn [andb].
    + cbv zeta.
      destruct (log_embed_failures_frame
                  (List.length (filter (failed_image env pages) (imageEdits st)))
                  (toast generating_toast st)) as [_ [Ht Hd]].
      destruct (save_ok env); simpl; rewrite ?Ht, ?Hd; simpl;
        rewrite <- ?app_assoc, ?app_nil_r; repeat split; try discriminate.
      intros _. apply in_or_app. right. now left.
    + simpl. rewrite <- app_assoc, app_nil_r. repeat split.
      intros _. apply in_or_app. right. now left.
  - simpl. rewrite <- app_assoc, app_nil_r. repeat split.
    intros _. apply in_or_app. right. now left.
Qed.

Lemma page_exists_index (pages : list Q) (n : Z) :
  page_exists pages n = true -> (Z.to_nat (n - 1) < List.length pages)%nat.
Proof.
  unfold page_exists. intros H. apply andb_true_iff in H. destruct H as [H1 H2].
  apply Z.leb_le in H1. apply Z.leb_le in H2. lia.
Qed.

Lemma exported_document_in_range (env : Env) (pages : list Q) (st : State) :
  (forall op, In op (exported_document env pages st) ->
              (op_page_index op < List.length pages)%nat)
  /\ (List.length (exported_document env pages st)
      <= List.length (filter user_authored (textEdits st))
         + List.length (filter (fun img => negb (is_deleted img)) (imageEdits st)))%nat.
Proof.
  unfold exported_document. split.
  - intros op Hop. apply in_app_or in Hop. destruct Hop as [Hop | Hop];
      apply in_map_iff in Hop; destruct Hop as [x [<- Hx]];
      apply filter_In in Hx; destruct Hx as [_ Hx].
    + unfold exported_text in Hx. apply andb_true_iff in Hx. destruct Hx as [_ Hx].
      unfold text_drawing. destruct (hexToRgb (color x)) as [[r g] b]. simpl.
      now apply page_exists_index.
    + unfold embedded_image, exported_image in Hx.
      apply andb_true_iff in Hx. destruct Hx as [Hx _].
      apply andb_true_iff in Hx. destruct Hx as [_ Hx].
      simpl. now apply page_exists_index.
  - rewrite length_app, !length_map. apply Nat.add_le_mono.
    + clear. induction (textEdits st) as [|e l IH]; simpl; [lia|].
      unfold exported_text, user_authored in *.
      destruct (is_original e); simpl; [exact IH|].
      destruct (page_exists pages (page_number e)); simpl; lia.
    + clear. induction (imageEdits st) as [|i l IH]; simpl; [lia|].
      unfold embedded_image, exported_image in *.
      destruct (is_deleted i); simpl; [exact IH|].
      destruct (page_exists pages (img_page_number i)); simpl; [|lia].
      destruct (image_ok env i); simpl; lia.
Qed.

(** X13. [downloadEditedPDF] only draws on pages the document has, and
    draws at most one thing per exportable entry: it offers at most one
    new PDF, every drawing of that PDF addresses a page index below the
    page count of the loaded document, and the PDF has no more drawings
    than the store has UserAuthored texts plus images that are not
    deleted. *)
Theorem export_draws_on_existing_pages (env : Env) (pages : list Q) (st : State) :
  pdf_load env = Some pages ->
  exists offered,
    downloads (downloadEditedPDF env st) = downloads st ++ offered
    /\ (List.length offered <= 1)%nat
    /\ forall doc, In doc offered ->
         (forall op, In op doc -> (op_page_index op < List.length pages)%nat)
         /\ (List.length doc
             <= List.length (filter user_authored (textEdits st))
                + List.length (filter (fun img => negb (is_deleted img))
                                 (imageEdits st)))%nat.
Proof.
  intros Hload. rewrite downloadEditedPDF_spec, Hload.
  destruct (texts_draw env pages st).
  - cbv zeta.
    destruct (log_embed_failures_frame
                (List.length (filter (failed_image env pages) (imageEdits st)))
                (toast generating_toast st)) as [_ [_ Hd]].
    destruct (save_ok env).
    + exists [exported_document env pages st]. simpl. rewrite Hd.
      split; [reflexivity|]. split; [lia|].
      intros doc [<- | []]. apply exported_document_in_range.
    + exists []. simpl. rewrite Hd, app_nil_r.
      split; [reflexivity|]. split; [lia|]. intros doc [].
  - exists []. simpl. rewrite app_nil_r.
    split; [reflexivity|]. split; [lia|]. intros doc [].
Qed.

Lemma export_draws_on_existing_pages_witness :
  exists offered,
    downloads (downloadEditedPDF sample_env illustrated_state) = [] ++ offered
    /\ (List.length offered <= 1)%nat
    /\ forall doc, In doc offered ->
         (forall op, In op doc -> (op_page_index op < 2)%nat)
         /\ (List.length doc <= 1 + 2)%nat.
Proof.
  exact (export_draws_on_existing_pages sample_env [800; 800] illustrated_state
           eq_refl).
Defined.

(** ** Colours *)

Lemma hex_digit_range (c : ascii) (v : Z) :
  hex_digit c = Some v -> (0 <= v <= 15)%Z.
Proof.
  unfold hex_digit.
  set (n := Z.of_nat (nat_of_ascii c)).
  destruct ((48 <=? n) && (n <=? 57))%Z eqn:E1.
  - intros H. injection H as <-. apply andb_true_iff in E1.
    destruct E1 as [A B]. apply Z.leb_le in A. apply Z.leb_le in B. lia.
  - destruct ((97 <=? n) && (n <=? 102))%Z eqn:E2.
    + intros H. injection H as <-. apply andb_true_iff in E2.
      destruct E2 as [A B]. apply Z.leb_le in A. apply Z.leb_le in B. lia.
    + destruct ((65 <=? n) && (n <=? 70))%Z eqn:E3; [|discriminate].
      intros H. injection H as <-. apply andb_true_iff in E3.
      destruct E3 as [A B]. apply Z.leb_le in A. apply Z.leb_le in B. lia.
Qed.

Lemma byte_fraction_range (n : Z) :
  (0 <= n <= 255)%Z -> 0 <= inject_Z n / 255 <= 1.
Proof.
  intros Hn. split.
  - apply Qle_shift_div_l; [reflexivity|]. rewrite Qmult_0_l.
    change 0 with (inject_Z 0). rewrite <- Zle_Qle. lia.
  - apply Qle_shift_div_r; [reflexivity|]. rewrite Qmult_1_l.
    change 255 with (inject_Z 255). rewrite <- Zle_Qle. lia.
Qed.

Lemma hex_pair_range (c1 c2 : ascii) (q : Q) :
  hex_pair c1 c2 = Some q -> 0 <= q <= 1.
Proof.
  unfold hex_pair. destruct (hex_digit c1) as [h|] eqn:Hh; [|discriminate].
  destruct (hex_digit c2) as [l|] eqn:Hl; [|discriminate].
  apply hex_digit_range in Hh. apply hex_digit_range in Hl.
  assert (Hn : (0 <= 16 * h + l <= 255)%Z) by lia.
  revert Hn. generalize (16 * h + l)%Z. intros n Hn H.
  injection H as <-. now apply byte_fraction_range.
Qed.

Lemma is_hex_digit_spec (c : ascii) :
  is_hex_digit c = match hex_digit c with Some _ => true | None => false end.
Proof.
  unfold is_hex_digit, hex_digit.
  set (n := nat_of_ascii c).
  replace (48 <=? Z.of_nat n)%Z with (Nat.leb 48 n)
    by (destruct (Nat.leb_spec 48 n); symmetry;
        [apply Z.leb_le | apply Z.leb_gt]; lia).
  replace (Z.of_nat n <=? 57)%Z with (Nat.leb n 57)
    by (destruct (Nat.leb_spec n 57); symmetry;
        [apply Z.leb_le | apply Z.leb_gt]; lia).
  replace (97 <=? Z.of_nat n)%Z with (Nat.leb 97 n)
    by (destruct (Nat.leb_spec 97 n); symmetry;
        [apply Z.leb_le | apply Z.leb_gt]; lia).
  replace (Z.of_nat n <=? 102)%Z with (Nat.leb n 102)
    by (destruct (Nat.leb_spec n 102); symmetry;
        [apply Z.leb_le | apply Z.leb_gt]; lia).
  replace (65 <=? Z.of_nat n)%Z with (Nat.leb 65 n)
    by (destruct (Nat.leb_spec 65 n); symmetry;
        [apply Z.leb_le | apply Z.leb_gt]; lia).
  replace (Z.of_nat n <=? 70)%Z with (Nat.leb n 70)
    by (destruct (Nat.leb_spec n 70); symmetry;
        [apply Z.leb_le | apply Z.leb_gt]; lia).
  destruct (Nat.leb 48 n && Nat.leb n 57); [reflexivity|].
  destruct (Nat.leb 97 n && Nat.leb n 102); [reflexivity|].
  destruct (Nat.leb 65 n && Nat.leb n 70); reflexivity.
Qed.

Lemma hex_pair_none (c1 c2 : ascii) :
  is_hex_digit c1 && is_hex_digit c2 = false -> hex_pair c1 c2 = None.
Proof.
  rewrite !is_hex_digit_spec. unfold hex_pair.
  destruct (hex_digit c1), (hex_digit c2); simpl; congruence.
Qed.

Lemma hex_pair_some (c1 c2 : ascii) :
  is_hex_digit c1 && is_hex_digit c2 = true ->
  exists h l, hex_digit c1 = Some h /\ hex_digit c2 = Some l
              /\ hex_pair c1 c2 = Some (inject_Z (16 * h + l) / 255).
Proof.
  rewrite !is_hex_digit_spec. unfold hex_pair.
  destruct (hex_digit c1) as [h|], (hex_digit c2) as [l|]; simpl;
    try discriminate.
  intros _. now exists h, l.
Qed.

(** X14. [hexToRgb] returns black for every string that is not six
    hexadecimal digits after an optional hash, and for every string
    whatever colour components between 0 and 1. *)
Theorem hexToRgb_in_unit_range (hex : string) :
  (let '(r, g, b) := hexToRgb hex in
   (0 <= r <= 1) /\ (0 <= g <= 1) /\ (0 <= b <= 1))
  /\ (is_hex_colour hex = false -> hexToRgb hex = (0, 0, 0)).
Proof.
  split.
  - unfold hexToRgb.
    generalize (match hex with
                | String "#" rest => rest
                | _ => hex
                end).
    assert (Hblack : (0 <= 0 <= 1) /\ (0 <= 0 <= 1) /\ (0 <= 0 <= 1))
      by (repeat split; discriminate).
    intros [|c1 [|c2 [|c3 [|c4 [|c5 [|c6 [|c7 rest]]]]]]]; try exact Hblack.
    destruct (hex_pair c1 c2) as [r|] eqn:Hr; [|exact Hblack].
    destruct (hex_pair c3 c4) as [g|] eqn:Hg; [|exact Hblack].
    destruct (hex_pair c5 c6) as [b|] eqn:Hb; [|exact Hblack].
    apply hex_pair_range in Hr. apply hex_pair_range in Hg.
    apply hex_pair_range in Hb. repeat split; tauto.
  - unfold hexToRgb, is_hex_colour.
    generalize (match hex with
                | String "#" rest => rest
                | _ => hex
                end).
    intros [|c1 [|c2 [|c3 [|c4 [|c5 [|c6 [|c7 rest]]]]]]]; try reflexivity.
    cbn [String.length Nat.eqb andb list_ascii_of_string forallb].
    rewrite andb_true_r. intros H.
    destruct (is_hex_digit c1 && is_hex_digit c2) eqn:H12.
    + destruct (is_hex_digit c3 && is_hex_digit c4) eqn:H34.
      * destruct (is_hex_digit c5 && is_hex_digit c6) eqn:H56.
        -- exfalso. apply andb_true_iff in H12, H34, H56.
           destruct H12 as [A1 A2], H34 as [A3 A4], H56 as [A5 A6].
           rewrite ?A1, ?A2, ?A3, ?A4, ?A5, ?A6 in H. discriminate.
        -- rewrite (hex_pair_none c5 c6 H56).
           destruct (hex_pair c1 c2), (hex_pair c3 c4); reflexivity.
      * rewrite (hex_pair_none c3 c4 H34). destruct (hex_pair c1 c2); reflexivity.
    + now rewrite (hex_pair_none c1 c2 H12).
Qed.

Lemma hexToRgb_in_unit_range_witness :
  hexToRgb "red" = (0, 0, 0) /\ hexToRgb "#12345" = (0, 0, 0)
  /\ hexToRgb "#ff00zz" = (0, 0, 0).
Proof.
  split; [|split].
  - exact (proj2 (hexToRgb_in_unit_range "red") eq_refl).
  - exact (proj2 (hexToRgb_in_unit_range "#12345") eq_refl).
  - exact (proj2 (hexToRgb_in_unit_range "#ff00zz") eq_refl).
Defined.

(** A colour of six hexadecimal digits is read pair by pair, each pair a
    byte over 255. *)
Lemma hexToRgb_of_hex_colour (c1 c2 c3 c4 c5 c6 : ascii) (hash : bool) :
  let digits := String c1 (String c2 (String c3 (String c4 (String c5
                  (String c6 ""))))) in
  let hex := if hash then String "#" digits else digits in
  is_hex_colour hex = true ->
  exists r g b,
    hex_pair c1 c2 = Some r /\ hex_pair c3 c4 = Some g
    /\ hex_pair c5 c6 = Some b /\ hexToRgb hex = (r, g, b).
Proof.
  intros digits hex H.
  assert (Hd : is_hex_digit c1 = true /\ is_hex_digit c2 = true
               /\ is_hex_digit c3 = true /\ is_hex_digit c4 = true
               /\ is_hex_digit c5 = true /\ is_hex_digit c6 = true
               /\ c1 <> "#"%char).
  { assert (Hne : is_hex_digit "#" = false) by reflexivity.
    subst hex digits. unfold is_hex_colour in H. destruct hash.
    - cbn in H. repeat (apply andb_true_iff in H; destruct H as [? H]).
      repeat split; try assumption. intros ->. congruence.
    - destruct (Ascii.eqb c1 "#") eqn:E1.
      + apply Ascii.eqb_eq in E1. subst c1. cbn in H. discriminate.
      + cbn [String.length] in H.
        assert (Hc : c1 <> "#"%char) by (now apply Ascii.eqb_neq).
        destruct c1 as [[] [] [] [] [] [] [] []]; try (now elim Hc);
          cbn in H; repeat (apply andb_true_iff in H; destruct H as [? H]);
          repeat split; try assumption. }
  destruct Hd as [A1 [A2 [A3 [A4 [A5 [A6 Hc]]]]]].
  destruct (hex_pair_some c1 c2) as [h1 [l1 [_ [_ E1]]]]; [now rewrite A1, A2|].
  destruct (hex_pair_some c3 c4) as [h2 [l2 [_ [_ E2]]]]; [now rewrite A3, A4|].
  destruct (hex_pair_some c5 c6) as [h3 [l3 [_ [_ E3]]]]; [now rewrite A5, A6|].
  eexists _, _, _. split; [exact E1|]. split; [exact E2|]. split; [exact E3|].
  subst hex digits. unfold hexToRgb. destruct hash.
  - now rewrite E1, E2, E3.
  - assert (Hb : match String c1 (String c2 (String c3 (String c4 (String c5
                          (String c6 ""))))) with
                 | String "#" rest => rest
                 | _ => String c1 (String c2 (String c3 (String c4 (String c5
                          (String c6 "")))))
                 end
                 = String c1 (String c2 (String c3 (String c4 (String c5
                          (String c6 ""))))))
      by (destruct c1 as [[] [] [] [] [] [] [] []]; try reflexivity; now elim Hc).
    rewrite Hb. now rewrite E1, E2, E3.
Qed.

(** ** Extraction, again *)

Lemma strip_stable (pre : list ascii -> option (list ascii)) (fuel : nat)
  (l : list ascii) :
  pre l = None -> strip pre fuel l = l.
Proof. intros H. destruct fuel; simpl; [reflexivity | now rewrite H]. Qed.

Lemma strip_done (pre : list ascii -> option (list ascii)) :
  (forall l r, pre l = Some r -> (List.length r < List.length l)%nat) ->
  forall fuel l, (List.length l <= fuel)%nat -> pre (strip pre fuel l) = None.
Proof.
  intros Hpre. induction fuel as [|fuel IH]; intros l Hl; simpl.
  - destruct l; [|simpl in Hl; lia].
    destruct (pre []) as [r|] eqn:E; [|reflexivity].
    apply Hpre in E. simpl in E. lia.
  - destruct (pre l) as [r|] eqn:E; [|exact E].
    apply IH. apply Hpre in E. lia.
Qed.

Lemma strip_suffix (pre : list ascii -> option (list ascii)) :
  (forall l r, pre l = Some r -> exists p, l = p ++ r) ->
  forall fuel l, exists p, l = p ++ strip pre fuel l.
Proof.
  intros Hpre. induction fuel as [|fuel IH]; intros l; simpl.
  - now exists [].
  - destruct (pre l) as [r|] eqn:E; [|now exists []].
    destruct (Hpre l r E) as [p ->]. destruct (IH r) as [q Hq].
    exists (p ++ q). rewrite <- app_assoc. now rewrite <- Hq.
Qed.

Lemma space_prefix_shorter (l r : list ascii) :
  space_prefix l = Some r -> (List.length r < List.length l)%nat.
Proof.
  unfold space_prefix. destruct l as [|c1 [|c2 [|c3 r3]]]; try discriminate.
  - destruct (is_space c1); [|discriminate]. intros H. injection H as <-. simpl. lia.
  - destruct (is_space c1); [intros H; injection H as <-; simpl; lia|].
    destruct (is_space2 c1 c2); [|discriminate].
    intros H. injection H as <-. simpl. lia.
  - destruct (is_space c1); [intros H; injection H as <-; simpl; lia|].
    destruct (is_space2 c1 c2); [intros H; injection H as <-; simpl; lia|].
    destruct (is_space3 c1 c2 c3); [|discriminate].
    intros H. injection H as <-. simpl. lia.
Qed.

Lemma space_suffix_shorter (l r : list ascii) :
  space_suffix l = Some r -> (List.length r < List.length l)%nat.
Proof.
  unfold space_suffix. destruct l as [|c1 [|c2 [|c3 r3]]]; try discriminate.
  - destruct (is_space c1); [|discriminate]. intros H. injection H as <-. simpl. lia.
  - destruct (is_space c1); [intros H; injection H as <-; simpl; lia|].
    destruct (is_space2 c2 c1); [|discriminate].
    intros H. injection H as <-. simpl. lia.
  - destruct (is_space c1); [intros H; injection H as <-; simpl; lia|].
    destruct (is_space2 c2 c1); [intros H; injection H as <-; simpl; lia|].
    destruct (is_space3 c3 c2 c1); [|discriminate].
    intros H. injection H as <-. simpl. lia.
Qed.

Lemma space_suffix_cut (l r : list ascii) :
  space_suffix l = Some r -> exists p, l = p ++ r.
Proof.
  unfold space_suffix. destruct l as [|c1 [|c2 [|c3 r3]]]; try discriminate.
  - destruct (is_space c1); [|discriminate]. intros H. injection H as <-.
    now exists [c1].
  - destruct (is_space c1); [intros H; injection H as <-; now exists [c1]|].
    destruct (is_space2 c2 c1); [|discriminate].
    intros H. injection H as <-. now exists [c1; c2].
  - destruct (is_space c1); [intros H; injection H as <-; now exists [c1]|].
    destruct (is_space2 c2 c1); [intros H; injection H as <-; now exists [c1; c2]|].
    destruct (is_space3 c3 c2 c1); [|discriminate].
    intros H. injection H as <-. now exists [c1; c2; c3].
Qed.

(** White space at the head of a list is white space at the head of every
    extension of it. *)
Lemma space_prefix_app (l q : list ascii) :
  space_prefix (l ++ q) = None -> space_prefix l = None.
Proof.
  unfold space_prefix. destruct l as [|c1 [|c2 [|c3 r3]]]; simpl;
    try reflexivity.
  - destruct (is_space c1); [destruct q; discriminate | reflexivity].
  - destruct (is_space c1); [discriminate|].
    destruct (is_space2 c1 c2); [destruct q; discriminate | reflexivity].
  - destruct (is_space c1); [discriminate|].
    destruct (is_space2 c1 c2); [discriminate|].
    destruct (is_space3 c1 c2 c3); [discriminate | reflexivity].
Qed.

Lemma trim_start_head (l : list ascii) : space_prefix (trim_start l) = None.
Proof. apply (strip_done space_prefix space_prefix_shorter). lia. Qed.

Lemma trim_end_tail (l : list ascii) : space_suffix (rev (trim_end l)) = None.
Proof.
  unfold trim_end. rewrite rev_involutive.
  apply (strip_done space_suffix space_suffix_shorter). now rewrite length_rev.
Qed.

Lemma trim_end_prefix (l : list ascii) : exists q, l = trim_end l ++ q.
Proof.
  unfold trim_end.
  destruct (strip_suffix space_suffix space_suffix_cut (List.length l) (rev l))
    as [p Hp].
  exists (rev p). rewrite <- rev_app_distr, <- Hp. now rewrite rev_involutive.
Qed.

(** What [trim] returns has white space at neither end. *)
Lemma trim_ends (s : string) :
  space_prefix (list_ascii_of_string (trim s)) = None
  /\ space_suffix (rev (list_ascii_of_string (trim s))) = None.
Proof.
  unfold trim. rewrite list_ascii_of_string_of_list_ascii. split.
  - destruct (trim_end_prefix (trim_start (list_ascii_of_string s))) as [q Hq].
    apply space_prefix_app with q. rewrite <- Hq. apply trim_start_head.
  - apply trim_end_tail.
Qed.

Lemma trim_idem (s : string) : trim (trim s) = trim s.
Proof.
  destruct (trim_ends s) as [Hp Hs].
  unfold trim at 1. unfold trim_start, trim_end.
  rewrite (strip_stable _ _ _ Hp), (strip_stable _ _ _ Hs), rev_involutive.
  apply string_of_list_ascii_of_string.
Qed.

Lemma extract_items_lengths (pageNum : Z) (vh : Q) (items : list TextItem) :
  let r := extract_items pageNum vh items in
  List.length (snd r) = List.length (fst r)
  /\ List.length (fst r)
     = List.length
         (filter (fun item => match str item with
                              | Some raw => negb (String.eqb (trim raw) "")
                              | None => false
                              end) items).
Proof.
  induction items as [|item rest IH]; simpl; [split; reflexivity|].
  destruct (extract_items pageNum vh rest) as [ts ms]. simpl in IH.
  destruct IH as [IH1 IH2].
  unfold extract_item.
  destruct (str item) as [raw|]; [|now split].
  destruct (String.eqb (trim raw) ""); [now split|].
  destruct (transform item) as [[[[[t0 t1] t2] t3] t4] t5]. simpl.
  split; congruence.
Qed.

(** An item of white space outside ASCII only (U+00A0, U+3000) yields
    nothing. *)
Lemma blank_item_yields_nothing :
  extract_items 1 800 [blank_item; total_item; blank_item]
  = extract_items 1 800 [total_item].
Proof. reflexivity. Qed.

(** X15. Masks and fragments come in pairs: an extraction pass derives
    exactly one mask per fragment, and one fragment per text item whose
    string is not blank (items without a string, empty or all white space
    yield nothing), so never more than the page has items. *)
Theorem extraction_pairs_masks (pageNum : Z) (viewportHeight : Q)
  (items : list TextItem) :
  let r := extract_items pageNum viewportHeight items in
  List.length (snd r) = List.length (fst r)
  /\ List.length (fst r)
     = List.length
         (filter (fun item => match str item with
                              | Some raw => negb (String.eqb (trim raw) "")
                              | None => false
                              end) items)
  /\ (List.length (fst r) <= List.length items)%nat.
Proof.
  intros r. destruct (extract_items_lengths pageNum viewportHeight items) as [H1 H2].
  fold r in H1, H2. split; [exact H1|]. split; [exact H2|].
  rewrite H2. apply filter_length_le.
Qed.

Lemma extract_items_pairs (pageNum : Z) (vh : Q) (items : list TextItem)
  (t : TextEdit) (m : Mask) :
  let r := extract_items pageNum vh items in
  In (t, m) (combine (fst r) (snd r)) ->
  exists item, In item items /\ extract_item pageNum vh item = Some (t, m).
Proof.
  induction items as [|item rest IH]; simpl; [intros []|].
  destruct (extract_items pageNum vh rest) as [ts ms]. simpl in IH.
  destruct (extract_item pageNum vh item) as [[t' m']|] eqn:E; simpl.
  - intros [H | H].
    + injection H as <- <-. exists item. split; [now left | exact E].
    + destruct (IH H) as [it [Hin Hit]]. exists it. split; [now right | exact Hit].
  - intros H. destruct (IH H) as [it [Hin Hit]]. exists it.
    split; [now right | exact Hit].
Qed.

Lemma Qabs_pos_of_nonzero (q : Q) : Qeq_bool (Qabs q) 0 = false -> 0 < Qabs q.
Proof.
  intros H. apply Qeq_bool_neq in H.
  destruct (Qle_lt_or_eq 0 (Qabs q) (Qabs_nonneg q)) as [Hlt | Heq];
    [exact Hlt|]. exfalso. apply H. now symmetry.
Qed.

(** X16. Geometry of an extracted fragment and its mask.  The font size is
    positive; the fragment's id is the template of its page and position,
    and its colour is black; the
    mask starts at the fragment's x, reaches from one font size above the
    fragment's y to a fifth of a font size below it, and is 1.2 font sizes
    tall. *)
Theorem extracted_fragment_geometry (pageNum : Z) (viewportHeight : Q)
  (items : list TextItem) (t : TextEdit) (m : Mask) :
  let r := extract_items pageNum viewportHeight items in
  In (t, m) (combine (fst r) (snd r)) ->
  0 < font_size t
  /\ id t = OriginalId pageNum (position_x t) (position_y t)
  /\ page_number t = pageNum
  /\ color t = "#000000"
  /\ mask_x m = position_x t
  /\ mask_y m == position_y t - font_size t
  /\ mask_y m + mask_h m == position_y t + font_size t * (2 # 10)
  /\ mask_h m == font_size t * (12 # 10)
  /\ 0 < mask_h m.
Proof.
  intros r Hin. subst r.
  destruct (extract_items_pairs pageNum viewportHeight items t m Hin)
    as [item [_ E]].
  unfold extract_item in E. destruct (str item) as [raw|]; [|discriminate].
  destruct (String.eqb (trim raw) ""); [discriminate|].
  destruct (transform item) as [[[[[t0 t1] t2] t3] t4] t5].
  injection E as <- <-. cbn [font_size id page_number color position_x position_y
                              mask_x mask_y mask_h].
  set (fs := if Qeq_bool (Qabs t0) 0
             then Qmax (num_or (item_height item) 0) 10 else Qabs t0).
  assert (Hfs : 0 < fs).
  { subst fs. destruct (Qeq_bool (Qabs t0) 0) eqn:E0.
    - apply Qlt_le_trans with 10; [reflexivity | apply Q.le_max_r].
    - now apply Qabs_pos_of_nonzero. }
  repeat split; try ring; try exact Hfs.
  apply Qmult_lt_0_compat; [exact Hfs | reflexivity].
Qed.

Lemma extracted_fragment_geometry_witness :
  0 < font_size total_original.
Proof.
  apply (extracted_fragment_geometry 1 800 [total_item] total_original
           {| mask_x := 50; mask_y := 800 - 700 - 12 * (12 # 10) + 12 * (2 # 10);
              mask_w := 60; mask_h := 12 * (12 # 10) |}).
  left. reflexivity.
Defined.

(** X17. The content of an extracted fragment is the string of one of
    the page's items, trimmed as [String.prototype.trim] trims it: it is
    never empty, no white space character is left at its head or at its
    tail, and trimming it again changes nothing. *)
Theorem extracted_content_is_trimmed (pageNum : Z) (viewportHeight : Q)
  (items : list TextItem) (t : TextEdit) :
  In t (fst (extract_items pageNum viewportHeight items)) ->
  (exists item raw,
      In item items /\ str item = Some raw /\ content t = trim raw)
  /\ content t <> ""
  /\ space_prefix (list_ascii_of_string (content t)) = None
  /\ space_suffix (rev (list_ascii_of_string (content t))) = None
  /\ trim (content t) = content t
  /\ is_original t = true.
Proof.
  induction items as [|item rest IH]; simpl; [intros []|].
  destruct (extract_items pageNum viewportHeight rest) as [ts ms]. simpl in IH.
  assert (IH' : In t ts ->
                (exists item0 raw, (item = item0 \/ In item0 rest)
                                   /\ str item0 = Some raw /\ content t = trim raw)
                /\ content t <> ""
                /\ space_prefix (list_ascii_of_string (content t)) = None
                /\ space_suffix (rev (list_ascii_of_string (content t))) = None
                /\ trim (content t) = content t
                /\ is_original t = true).
  { intros H. destruct (IH H) as [[it [raw [Hin Hit]]] Hrest].
    split; [|exact Hrest]. exists it, raw. split; [now right | exact Hit]. }
  destruct (extract_item pageNum viewportHeight item) as [[t' m']|] eqn:E;
    simpl; [|exact IH'].
  intros [<- | H]; [|now apply IH'].
  unfold extract_item in E. destruct (str item) as [raw|] eqn:Hstr; [|discriminate].
  destruct (String.eqb (trim raw) "") eqn:Hraw; [discriminate|].
  destruct (transform item) as [[[[[t0 t1] t2] t3] t4] t5].
  injection E as <- _. cbn [content].
  split; [exists item, raw; split; [now left | now split]|].
  split; [now apply String.eqb_neq|].
  split; [apply trim_ends|]. split; [apply trim_ends|].
  split; [apply trim_idem | reflexivity].
Qed.

Lemma extracted_content_is_trimmed_witness :
  (exists item raw,
      In item [blank_item; footer_item] /\ str item = Some raw
      /\ "page 2" = trim raw)
  /\ "page 2" <> "".
Proof.
  destruct (extracted_content_is_trimmed 2 800 [blank_item; footer_item]
              (mkTextEdit (OriginalId 2 40 (800 - 30)) 2 "page 2" 40 (800 - 30) 10
                 "#000000" None (Some true)))
    as [H1 [H2 _]].
  - left. reflexivity.
  - split; [exact H1 | exact H2].
Defined.

Lemma page_masks_put_same (pageNum : Z) (masks : list Mask) (st : State) :
  page_masks pageNum
    (setOriginalMasks (put_masks pageNum masks (originalMasks st)) st) = masks.
Proof. unfold page_masks, put_masks. simpl. now rewrite Z.eqb_refl. Qed.

Lemma page_masks_put_other (p q : Z) (masks : list Mask) (st : State) :
  q <> p ->
  page_masks q (setOriginalMasks (put_masks p masks (originalMasks st)) st)
  = page_masks q st.
Proof.
  intros Hqp. unfold page_masks, put_masks. simpl.
  replace (Z.eqb p q) with false by (symmetry; apply Z.eqb_neq; congruence).
  rewrite find_filter; [reflexivity|].
  intros [k ms] Hk. simpl in *. apply Z.eqb_eq in Hk. subst k.
  apply negb_true_iff. now apply Z.eqb_neq.
Qed.

(** X18. Every successful extraction replaces the masks stored for its
    page, and for no other: afterwards the [originalMasks] state holds for
    the page the masks the pass derived, also when the text entries
    themselves were kept as they were, and holds for every other page what
    it held before.  (This is about the stored masks only: the canvas is
    painted by [renderPage] from the masks of the render it was created
    in.) *)
Theorem extraction_refreshes_masks (env : Env) (st : State) (pageNum : Z)
  (page : PdfJsPage) :
  getPage env pageNum = Some page ->
  let st' := extractTextFromPage env pageNum st in
  page_masks pageNum st'
  = snd (extract_items pageNum
           (viewport_height (page_view_height page) (scale st)) (text_items page))
  /\ (forall q, q <> pageNum -> page_masks q st' = page_masks q st).
Proof.
  intros Hpage st'. subst st'.
  rewrite (extractTextFromPage_loaded env pageNum st page Hpage). cbv zeta.
  split.
  - apply (page_masks_put_same pageNum _ st).
  - intros q Hq. now apply (page_masks_put_other pageNum q _ st).
Qed.

Lemma extraction_refreshes_masks_witness :
  page_masks 1 (extractTextFromPage sample_env 1 (zoomIn sample_state))
  = snd (extract_items 1 (viewport_height 800 (scale (zoomIn sample_state)))
           [total_item]).
Proof.
  exact (proj1 (extraction_refreshes_masks sample_env (zoomIn sample_state) 1
                  sample_page1 eq_refl)).
Defined.

(** X19. Extraction never reaches outside the in-memory store: it sends no
    request, raises no toast, offers no download, takes no UUID and leaves
    the images, the page and the scale alone.  When pdf.js fails, the text
    entries and the masks stay as they were and one line goes to the
    console. *)
Theorem extraction_is_local (env : Env) (st : State) (pageNum : Z) :
  let st' := extractTextFromPage env pageNum st in
  db_log st' = db_log st
  /\ toasts st' = toasts st
  /\ downloads st' = downloads st
  /\ uuid_count st' = uuid_count st
  /\ imageEdits st' = imageEdits st
  /\ currentPage st' = currentPage st
  /\ scale st' = scale st
  /\ (getPage env pageNum = None ->
      textEdits st' = textEdits st
      /\ originalMasks st' = originalMasks st
      /\ console st' = console st ++ ["Error extracting text:"]).
Proof.
  intros st'. subst st'. destruct (getPage env pageNum) as [page|] eqn:E.
  - rewrite (extractTextFromPage_loaded env pageNum st page E). cbv zeta.
    repeat split; discriminate.
  - unfold extractTextFromPage. rewrite E. repeat split.
Qed.

(** ** Soft-deleting images *)

Lemma deleteImage_done (env : Env) (imageId : EditId) (st : State) :
  db_error env (List.length (db_log st)) = false ->
  let st' := deleteImage env imageId st in
  imageEdits st'
  = map (fun img =>
           if id_eqb (img_id img) imageId then
             {| img_id := img_id img; img_page_number := img_page_number img;
                image_url := image_url img;
                img_position_x := img_position_x img;
                img_position_y := img_position_y img;
                width := width img; height := height img; is_deleted := true |}
           else img) (imageEdits st)
  /\ db_log st' = db_log st ++ [DbUpdateDeleted imageId]
  /\ textEdits st' = textEdits st
  /\ currentPage st' = currentPage st
  /\ toasts st' = toasts st ++ [ {| title := "Image removed";
                                    description := "Image deleted from PDF";
                                    destructive := false |} ].
Proof. intros H. unfold deleteImage. rewrite H. repeat split. Qed.





(** X22. [deleteImage] does not look the image up: called with an id no
    image carries it still sends the update and shows the "Image removed"
    toast, the image list being left as it was. *)
Theorem deleteImage_without_image (env : Env) (imageId : EditId) (st : State) :
  (forall img, In img (imageEdits st) -> id_eqb (img_id img) imageId = false) ->
  db_error env (List.length (db_log st)) = false ->
  let st' := deleteImage env imageId st in
  imageEdits st' = imageEdits st
  /\ db_log st' = db_log st ++ [DbUpdateDeleted imageId]
  /\ toasts st' = toasts st ++ [ {| title := "Image removed";
                                    description := "Image deleted from PDF";
                                    destructive := false |} ].
Proof.
  intros Habs H st'.
  destruct (deleteImage_done env imageId st H) as [Hi [Hl [_ [_ Ht]]]].
  fold st' in Hi, Hl, Ht. split; [|now split].
  rewrite Hi. now apply (map_untouched (fun img => id_eqb (img_id img) imageId)).
Qed.

Lemma deleteImage_without_image_witness :
  db_log (deleteImage sample_env (Uuid "gone") illustrated_state)
  = [DbUpdateDeleted (Uuid "gone")].
Proof.
  apply (deleteImage_without_image sample_env (Uuid "gone") illustrated_state).
  - intros img [<- | [<- | []]]; reflexivity.
  - reflexivity.
Defined.

(** ** Hiding, promoting and the next extraction *)

Lemma extraction_merge_cases (env : Env) (st : State) (pageNum : Z)
  (page : PdfJsPage) :
  getPage env pageNum = Some page ->
  let st' := extractTextFromPage env pageNum st in
  scale st' = scale st
  /\ (existsb (original_on pageNum) (textEdits st) = true ->
        textEdits st' = textEdits st)
  /\ (existsb (original_on pageNum) (textEdits st) = false ->
        textEdits st'
        = filter user_authored (textEdits st)
          ++ derived_fragments page pageNum (scale st)
        /\ filter (original_on pageNum) (textEdits st')
           = derived_fragments page pageNum (scale st)).
Proof.
  intros Hpage st'. subst st'.
  rewrite (extractTextFromPage_loaded env pageNum st page Hpage).
  cbv zeta. cbn [textEdits scale setTextEdits setOriginalMasks].
  fold (derived_fragments page pageNum (scale st)).
  assert (Hfresh : forall x, In x (derived_fragments page pageNum (scale st)) ->
                             original_on pageNum x = true)
    by apply extract_items_original.
  rewrite merge_extracted_cases. split; [reflexivity|].
  split; intros E; rewrite E; [reflexivity|]. split; [reflexivity|].
  rewrite filter_app, (filter_all _ _ Hfresh).
  rewrite (filter_none (original_on pageNum)); [reflexivity|].
  intros x Hx. apply filter_In in Hx. destruct Hx as [_ Hx].
  now apply user_not_original_on.
Qed.

Lemma deleteEdit_original (env : Env) (editId : EditId) (st : State) (e : TextEdit) :
  find (has_id editId) (textEdits st) = Some e ->
  is_original e = true ->
  let st' := deleteEdit env editId st in
  textEdits st' = filter (fun x => negb (has_id editId x)) (textEdits st)
  /\ scale st' = scale st
  /\ db_log st' = db_log st.
Proof.
  intros Hf Ho. rewrite deleteEdit_eq; cbv zeta. rewrite Hf, Ho. repeat split.
Qed.

(** X23. Hiding an Original entry lasts only while a sibling remains.
    After an Original entry is removed (nothing is sent to the persistence
    layer), the next extraction of a page brings all the page's fragments
    back if the removal left no Original entry of that page; if an
    Original entry of the page is still there, the extraction changes
    nothing and the hidden entry stays away. *)
Theorem hidden_original_returns (env : Env) (st : State) (editId : EditId)
  (e : TextEdit) (pageNum : Z) (page : PdfJsPage) :
  find (has_id editId) (textEdits st) = Some e ->
  is_original e = true ->
  getPage env pageNum = Some page ->
  let st1 := deleteEdit env editId st in
  let st2 := extractTextFromPage env pageNum st1 in
  db_log st2 = db_log st
  /\ (existsb (original_on pageNum) (textEdits st1) = false ->
      textEdits st2
      = filter user_authored (textEdits st1)
        ++ derived_fragments page pageNum (scale st)
      /\ filter (original_on pageNum) (textEdits st2)
         = derived_fragments page pageNum (scale st))
  /\ (existsb (original_on pageNum) (textEdits st1) = true ->
      textEdits st2 = textEdits st1
      /\ forall x, In x (textEdits st2) -> has_id editId x = false).
Proof.
  intros Hf Ho Hpage st1 st2.
  destruct (deleteEdit_original env editId st e Hf Ho) as [Ht [Hs Hl]].
  fold st1 in Ht, Hs, Hl.
  subst st2. rewrite (extractTextFromPage_loaded env pageNum st1 page Hpage).
  cbv zeta. cbn [textEdits db_log setTextEdits setOriginalMasks].
  fold (derived_fragments page pageNum (scale st1)). rewrite Hs.
  assert (Hfresh : forall x, In x (derived_fragments page pageNum (scale st)) ->
                             original_on pageNum x = true)
    by apply extract_items_original.
  rewrite merge_extracted_cases. split; [exact Hl|]. split; intros E; rewrite E.
  - split; [reflexivity|].
    rewrite filter_app, (filter_all _ _ Hfresh).
    rewrite (filter_none (original_on pageNum)); [reflexivity|].
    intros x Hx. apply filter_In in Hx. destruct Hx as [_ Hx].
    now apply user_not_original_on.
  - split; [reflexivity|]. intros x Hx. rewrite Ht in Hx.
    apply filter_In in Hx. destruct Hx as [_ Hx]. now apply negb_true_iff in Hx.
Qed.

Lemma hidden_original_returns_witness :
  textEdits (extractTextFromPage sample_env 1
               (deleteEdit sample_env (OriginalId 1 50 100) sample_state))
  = [user_note] ++ derived_fragments sample_page1 1 1.
Proof.
  pose proof (hidden_original_returns sample_env sample_state (OriginalId 1 50 100)
                total_original 1 sample_page1 eq_refl eq_refl eq_refl) as H.
  cbv zeta in H. destruct H as [_ [H _]]. exact (proj1 (H eq_refl)).
Defined.

(** X24. An edited fragment comes back as an Original.  When the content
    edit promotes the last Original entry of a page, the next extraction
    of that page puts the page's freshly derived fragments after the
    UserAuthored entries, the promoted one among them: the store then
    holds the promoted entry and the fragments derived from the page,
    side by side. *)
Theorem promoted_fragment_reappears (env : Env) (st : State)
  (l1 l2 : list TextEdit) (e : TextEdit) (c : string) (pageNum : Z)
  (page : PdfJsPage) :
  textEdits st = l1 ++ e :: l2 ->
  is_original e = true ->
  (forall x, In x (l1 ++ l2) -> has_id (id e) x = false) ->
  (forall x, In x (l1 ++ l2) -> original_on pageNum x = false) ->
  db_error env (List.length (db_log st)) = false ->
  getPage env pageNum = Some page ->
  let newId := Uuid (randomUUID env (uuid_count st)) in
  let st1 := updateEdit env (id e) c st in
  let st2 := extractTextFromPage env pageNum st1 in
  textEdits st2
  = filter user_authored l1 ++ promote newId c e :: filter user_authored l2
    ++ derived_fragments page pageNum (scale st)
  /\ filter (original_on pageNum) (textEdits st2)
     = derived_fragments page pageNum (scale st).
Proof.
  intros Hst Ho Huniq Hnone Hdb Hpage newId st1 st2.
  assert (Hfind : find (has_id (id e)) (textEdits st) = Some e).
  { rewrite Hst. apply find_first; [|apply has_id_self].
    intros x Hx. apply Huniq. apply in_or_app. now left. }
  assert (Hst1 : textEdits st1 = l1 ++ promote newId c e :: l2 /\ scale st1 = scale st).
  { subst st1. rewrite updateEdit_eq; cbv zeta. rewrite Hfind, Ho. simpl. rewrite Hdb. simpl.
    split; [|reflexivity].
    rewrite Hst. apply map_single; [exact Huniq | apply has_id_self]. }
  destruct Hst1 as [Ht Hs].
  assert (Hex : existsb (original_on pageNum) (textEdits st1) = false).
  { rewrite Ht, existsb_app. simpl.
    change (original_on pageNum (promote newId c e)) with false. simpl.
    apply orb_false_iff. split.
    - destruct (existsb (original_on pageNum) l1) eqn:E; [|reflexivity].
      apply existsb_exists in E. destruct E as [x [Hx Hpx]].
      rewrite Hnone in Hpx; [discriminate | apply in_or_app; now left].
    - destruct (existsb (original_on pageNum) l2) eqn:E; [|reflexivity].
      apply existsb_exists in E. destruct E as [x [Hx Hpx]].
      rewrite Hnone in Hpx; [discriminate | apply in_or_app; now right]. }
  destruct (extraction_merge_cases env st1 pageNum page Hpage) as [_ [_ H]].
  fold st2 in H. destruct (H Hex) as [H1 H2]. rewrite Hs in H1, H2.
  split; [|exact H2].
  rewrite H1, Ht, filter_app. cbn [filter].
  change (user_authored (promote newId c e)) with true. cbv iota.
  now rewrite <- app_assoc.
Qed.

Lemma promoted_fragment_reappears_witness :
  List.length
    (textEdits (extractTextFromPage sample_env 1
                  (updateEdit sample_env (id total_original) "Total: $99"
                     sample_state)))
  = 3%nat.
Proof.
  pose proof (promoted_fragment_reappears sample_env sample_state [user_note] []
                total_original "Total: $99" 1 sample_page1 eq_refl eq_refl) as H.
  cbv zeta in H.
  rewrite (proj1 (H ltac:(intros x [<- | []]; reflexivity)
                    ltac:(intros x [<- | []]; reflexivity) eq_refl eq_refl)).
  reflexivity.
Defined.

(** ** Page navigation *)

Lemma navigation_step (forward : bool) (ed : Editor) :
  let ed' := if forward then goToNextPage ed else goToPreviousPage ed in
  totalPages ed' = totalPages ed
  /\ textEdits (store ed') = textEdits (store ed)
  /\ scale (store ed') = scale (store ed)
  /\ ((1 <= currentPage (store ed))%Z -> (1 <= currentPage (store ed'))%Z)
  /\ ((currentPage (store ed) <= totalPages ed)%Z ->
      (currentPage (store ed') <= totalPages ed)%Z).
Proof.
  destruct forward; cbv zeta; unfold goToNextPage, goToPreviousPage.
  - destruct (Z.ltb_spec (currentPage (store ed)) (totalPages ed)); simpl;
      repeat split; lia.
  - destruct (Z.ltb_spec 1 (currentPage (store ed))); simpl; repeat split; lia.
Qed.



(** ** Invariants of the editor *)

Lemma extraction_is_local_page (env : Env) (st : State) (pageNum : Z) :
  currentPage (extractTextFromPage env pageNum st) = currentPage st.
Proof.
  destruct (getPage env pageNum) as [page|] eqn:E.
  - now rewrite (extractTextFromPage_loaded env pageNum st page E).
  - unfold extractTextFromPage. now rewrite E.
Qed.

Lemma handle_currentPage (env : Env) (st : State) (ev : Event) :
  currentPage (handle env st ev) = currentPage st.
Proof.
  destruct ev; simpl; try reflexivity.
  - apply (extraction_is_local_page env st pageNum).
  - rewrite updateEdit_eq; cbv zeta. destruct (find (has_id editId) (textEdits st)) as [e|];
      [|reflexivity].
    destruct (is_original e).
    + now destruct (db_error env (List.length (db_log (take_uuid st)))).
    + now destruct (db_error env (List.length (db_log st))).
  - rewrite deleteEdit_eq; cbv zeta. destruct (find (has_id editId) (textEdits st)) as [e|];
      [|reflexivity].
    destruct (is_original e); simpl; [reflexivity|].
    now destruct (db_error env (List.length (db_log st))).
  - unfold deleteImage. now destruct (db_error env (List.length (db_log st))).
  - rewrite downloadEditedPDF_spec. destruct (pdf_load env) as [pages|];
      [|reflexivity].
    destruct (texts_draw env pages st); [|reflexivity].
    cbv zeta.
    pose proof (log_embed_failures_store
                  (List.length (filter (failed_image env pages) (imageEdits st)))
                  (toast generating_toast st)) as [_ [_ [_ [_ [H _]]]]].
    destruct (save_ok env); simpl; exact H.
Qed.

Lemma ui_handle_in_bounds (env : Env) (ed : Editor) (ev : UiEvent) :
  editor_in_bounds ed -> editor_in_bounds (ui_handle env ed ev).
Proof.
  unfold editor_in_bounds. intros [Hp [Hs Hm]].
  destruct ev; simpl.
  - split; [now rewrite handle_currentPage|]. split; [|exact Hm].
    now apply handle_in_range.
  - destruct result as [| |data]; simpl; [now split | now split |].
    destruct (load_rows data) as [texts images]. now split.
  - destruct numPages; simpl; now split.
  - destruct (navigation_step false ed) as [_ [_ [Hsc [Hlo _]]]].
    cbv zeta in Hsc, Hlo. split; [now apply Hlo|]. split.
    + unfold scale_in_range in *. now rewrite Hsc.
    + unfold goToPreviousPage. now destruct (1 <? currentPage (store ed))%Z.
  - destruct (navigation_step true ed) as [_ [_ [Hsc [Hlo _]]]].
    cbv zeta in Hsc, Hlo. split; [now apply Hlo|]. split.
    + unfold scale_in_range in *. now rewrite Hsc.
    + unfold goToNextPage.
      now destruct (currentPage (store ed) <? totalPages ed)%Z.
  - split; [exact Hp|]. split; [exact Hs|]. apply andb_false_r.
  - split; [exact Hp|]. split; [exact Hs|]. reflexivity.
  - now split.
  - now split.
  - unfold handleCanvasClick.
    destruct (negb (isAddingText ed) && negb (isAddingImage ed)); [now split|].
    destruct canvas as [rect|]; [|now split].
    destruct (isAddingText ed) eqn:Ht; [|simpl; rewrite Ht; now split].
    unfold saveEdit. cbn [db_log setTextEdits take_uuid].
    destruct (db_error env (List.length (db_log (store ed)))); simpl; now split.
  - unfold handleImageUpload. destruct file as [url|]; [|now split].
    destruct canvas as [rect|]; [|now split]. simpl.
    split; [exact Hp|]. split; [exact Hs|]. apply andb_false_r.
  - unfold textMouseDown. destruct on_control; [now split|].
    destruct canvas; now split.
  - unfold imageMouseDown. destruct on_button; [now split|].
    destruct canvas; now split.
  - unfold onMove. destruct (dragging ed) as [d|]; [|now split].
    destruct canvas; [|now split]. destruct (drag_type d); now split.
  - unfold onUp. destruct (dragging ed) as [d|]; [|now split].
    destruct (drag_type d).
    + destruct (find (has_id (drag_id d)) (textEdits (store ed))) as [e|];
        [|now split].
      destruct (is_original e); [|now split].
      cbn [db_log take_uuid].
      destruct (db_error env (List.length (db_log (store ed)))); now split.
    + destruct (find (fun i => id_eqb (img_id i) (drag_id d))
                  (imageEdits (store ed))); now split.
Qed.

(** X26. Bounds the editor never leaves.  From the initial editor, after
    any sequence of events of the handlers modelled here (loads, clicks,
    drags, edits, deletions, zooms, navigation, exports) the page number is
    at least 1,
    the scale is within [0.5, 3], and the text-adding and image-adding
    modes are never both on. *)
Theorem editor_stays_in_bounds (env : Env) (evs : list UiEvent) :
  let ed := ui_run env evs initial_editor in
  (1 <= currentPage (store ed))%Z
  /\ 1 # 2 <= scale (store ed) <= 3
  /\ isAddingText ed && isAddingImage ed = false.
Proof.
  intros ed.
  assert (H : forall e, editor_in_bounds e -> editor_in_bounds (ui_run env evs e)).
  { unfold ui_run. induction evs as [|ev evs IH]; intros e He; simpl; [exact He|].
    apply IH. now apply ui_handle_in_bounds. }
  apply (H initial_editor).
  unfold editor_in_bounds, scale_in_range. simpl. repeat split; try lia; lra.
Qed.

Lemma extracted_well_tagged (pageNum : Z) (vh : Q) (items : list TextItem) :
  Forall well_tagged (fst (extract_items pageNum vh items)).
Proof.
  induction items as [|item rest IH]; simpl; [constructor|].
  destruct (extract_items pageNum vh rest) as [ts ms]. simpl in IH.
  destruct (extract_item pageNum vh item) as [[t m]|] eqn:E; simpl; [|exact IH].
  constructor; [|exact IH].
  unfold extract_item in E. destruct (str item) as [raw|]; [|discriminate].
  destruct (String.eqb (trim raw) ""); [discriminate|].
  destruct (transform item) as [[[[[t0 t1] t2] t3] t4] t5].
  injection E as <- _. reflexivity.
Qed.

Lemma merge_extracted_well_tagged (pageNum : Z) (fresh prev : list TextEdit) :
  Forall well_tagged fresh -> Forall well_tagged prev ->
  Forall well_tagged (merge_extracted pageNum fresh prev).
Proof.
  intros Hf Hp. rewrite merge_extracted_cases.
  destruct (existsb (original_on pageNum) prev); [exact Hp|].
  apply Forall_app. split; [now apply Forall_filter | exact Hf].
Qed.

Lemma found_user_id_is_uuid (editId : EditId) (l : list TextEdit) (e : TextEdit) :
  Forall well_tagged l ->
  find (has_id editId) l = Some e ->
  is_original e = false ->
  template_id editId = false /\ template_id (id e) = false.
Proof.
  intros Hl Hf Ho. apply find_some in Hf. destruct Hf as [Hin Hid].
  assert (Hw : well_tagged e) by exact (proj1 (Forall_forall _ _) Hl e Hin).
  unfold well_tagged in Hw. rewrite Ho in Hw.
  unfold has_id in Hid. apply id_eqb_template in Hid. split; congruence.
Qed.

Lemma downloadEditedPDF_frame (env : Env) (st : State) :
  textEdits (downloadEditedPDF env st) = textEdits st
  /\ imageEdits (downloadEditedPDF env st) = imageEdits st
  /\ db_log (downloadEditedPDF env st) = db_log st.
Proof.
  rewrite downloadEditedPDF_spec. destruct (pdf_load env) as [pages|];
    [|repeat split].
  destruct (texts_draw env pages st); [|repeat split].
  cbv zeta.
  destruct (log_embed_failures_store
              (List.length (filter (failed_image env pages) (imageEdits st)))
              (toast generating_toast st)) as [H1 [H2 [H3 _]]].
  destruct (save_ok env); simpl; repeat split; assumption.
Qed.

Lemma handle_well_tagged (env : Env) (st : State) (ev : Event) :
  store_well_tagged st -> store_well_tagged (handle env st ev).
Proof.
  unfold store_well_tagged. intros [Ht [Hi Hl]]. destruct ev; simpl.
  - now repeat split.
  - now repeat split.
  - destruct (getPage env pageNum) as [page|] eqn:E.
    + rewrite (extractTextFromPage_loaded env pageNum st page E). cbv zeta.
      cbn [textEdits imageEdits db_log setTextEdits setOriginalMasks].
      split; [|now split].
      apply merge_extracted_well_tagged; [apply extracted_well_tagged | exact Ht].
    + unfold extractTextFromPage. rewrite E. now repeat split.
  - rewrite updateEdit_eq; cbv zeta.
    destruct (find (has_id editId) (textEdits st)) as [e|] eqn:Hf;
      [|now repeat split].
    destruct (is_original e) eqn:Ho.
    + cbn [db_log take_uuid].
      assert (Hl' : Forall keyed_by_uuid
                      (db_log st
                       ++ [DbInsert (promotion_row env
                                       (Uuid (randomUUID env (uuid_count st)))
                                       newContent e)])).
      { apply Forall_app. split; [exact Hl|]. repeat constructor. }
      destruct (db_error env (List.length (db_log st)));
        cbn [textEdits imageEdits db_log setTextEdits console_error db_send take_uuid];
        (split; [|split; [exact Hi | exact Hl']]); [exact Ht|].
      apply Forall_map_if; [|exact Ht]. intros x _. reflexivity.
    + destruct (found_user_id_is_uuid editId _ e Ht Hf Ho) as [Hid _].
      assert (Hl' : Forall keyed_by_uuid
                      (db_log st ++ [DbUpdateContent editId newContent])).
      { apply Forall_app. split; [exact Hl|]. repeat constructor. exact Hid. }
      destruct (db_error env (List.length (db_log st)));
        cbn [textEdits imageEdits db_log setTextEdits console_error db_send];
        (split; [|split; [exact Hi | exact Hl']]); [exact Ht|].
      apply Forall_map_if; [|exact Ht]. intros x Hx. exact Hx.
  - rewrite deleteEdit_eq; cbv zeta.
    destruct (find (has_id editId) (textEdits st)) as [e|] eqn:Hf;
      [|now repeat split].
    destruct (is_original e) eqn:Ho; cbn [negb].
    + cbn [textEdits imageEdits db_log setTextEdits toast].
      split; [now apply Forall_filter | now split].
    + destruct (found_user_id_is_uuid editId _ e Ht Hf Ho) as [Hid _].
      assert (Hl' : Forall keyed_by_uuid (db_log st ++ [DbDelete editId])).
      { apply Forall_app. split; [exact Hl|]. repeat constructor. exact Hid. }
      destruct (db_error env (List.length (db_log st)));
        cbn [textEdits imageEdits db_log setTextEdits console_error db_send toast];
        (split; [|split; [exact Hi | exact Hl']]); [exact Ht|].
      now apply Forall_filter.
  - unfold deleteImage.
    assert (Hl' : Forall keyed_by_uuid (db_log st ++ [DbUpdateDeleted imageId])).
    { apply Forall_app. split; [exact Hl|]. repeat constructor. }
    destruct (db_error env (List.length (db_log st)));
      cbn [textEdits imageEdits db_log setImageEdits console_error db_send toast];
      (split; [exact Ht | split; [|exact Hl']]); [exact Hi|].
    apply Forall_map_if; [|exact Hi]. intros x Hx. exact Hx.
  - destruct (downloadEditedPDF_frame env st) as [H1 [H2 H3]].
    rewrite H1, H2, H3. now repeat split.
Qed.

Lemma load_rows_well_tagged (data : list PdfEditRow) :
  Forall well_tagged (fst (load_rows data))
  /\ Forall uuid_image (snd (load_rows data)).
Proof.
  rewrite load_rows_spec. simpl. split; apply Forall_forall; intros x Hx;
    apply in_map_iff in Hx; destruct Hx as [r [<- _]]; reflexivity.
Qed.

Ltac kept :=
  first [ assumption
        | split; [assumption | split; assumption]
        | unfold store_well_tagged in *; simpl in *; repeat split; assumption ].

Lemma ui_handle_well_tagged (env : Env) (ed : Editor) (ev : UiEvent) :
  editor_well_tagged ed -> editor_well_tagged (ui_handle env ed ev).
Proof.
  unfold editor_well_tagged. intros [Hs [Hp Hn]].
  destruct ev; simpl.
  - split; [now apply handle_well_tagged | now split].
  - split; [|now split]. destruct Hs as [Ht [Hi Hl]]. unfold store_well_tagged.
    destruct result as [| |data]; simpl; [kept | kept |].
    destruct (load_rows_well_tagged data) as [H1 H2].
    destruct (load_rows data) as [texts images]. simpl in *. kept.
  - destruct numPages; simpl; [kept|].
    split; [|now split]. destruct Hs as [Ht [Hi Hl]]. kept.
  - unfold goToPreviousPage. destruct (1 <? currentPage (store ed))%Z;
      [|kept].
    simpl. split; [|now split]. destruct Hs as [Ht [Hi Hl]]. kept.
  - unfold goToNextPage. destruct (currentPage (store ed) <? totalPages ed)%Z;
      [|kept].
    simpl. split; [|now split]. destruct Hs as [Ht [Hi Hl]]. kept.
  - kept.
  - kept.
  - kept.
  - kept.
  - unfold handleCanvasClick.
    destruct (negb (isAddingText ed) && negb (isAddingImage ed));
      [kept|].
    destruct canvas as [rect|]; [|kept].
    destruct (isAddingText ed); [|kept].
    destruct Hs as [Ht [Hi Hl]]. unfold saveEdit, store_well_tagged.
    cbn [db_log setTextEdits take_uuid].
    assert (Ht' : Forall well_tagged
                    (textEdits (store ed)
                     ++ [new_text env (clientX - rect_left rect)
                           (clientY - rect_top rect) ed])).
    { apply Forall_app. split; [exact Ht|]. repeat constructor. }
    assert (Hl' : Forall keyed_by_uuid
                    (db_log (store ed)
                     ++ [DbInsert (text_row env
                                     (new_text env (clientX - rect_left rect)
                                        (clientY - rect_top rect) ed))])).
    { apply Forall_app. split; [exact Hl|]. repeat constructor. }
    destruct (db_error env (List.length (db_log (store ed)))); simpl;
      kept.
  - unfold handleImageUpload. destruct file as [url|]; [|kept].
    destruct canvas as [rect|]; [|kept].
    destruct Hs as [Ht [Hi Hl]]. unfold store_well_tagged. simpl.
    repeat split; try assumption; apply Forall_app; split; try assumption;
      repeat constructor.
  - unfold textMouseDown. destruct on_control; [kept|].
    destruct canvas; kept.
  - unfold imageMouseDown. destruct on_button; [kept|].
    destruct canvas; kept.
  - unfold onMove. destruct (dragging ed) as [d|]; [|kept].
    destruct canvas as [rect|]; [|kept].
    destruct Hs as [Ht [Hi Hl]]. unfold store_well_tagged.
    destruct (drag_type d); simpl; repeat split; try assumption;
      (apply Forall_map_if; [|assumption]); intros x Hx; exact Hx.
  - unfold onUp. destruct (dragging ed) as [d|]; [|kept].
    destruct Hs as [Ht [Hi Hl]]. unfold store_well_tagged.
    destruct (drag_type d).
    + destruct (find (has_id (drag_id d)) (textEdits (store ed))) as [e|] eqn:Hf;
        [|kept].
      destruct (is_original e) eqn:Ho.
      * cbn [db_log take_uuid].
        assert (Hl' : Forall keyed_by_uuid
                        (db_log (store ed)
                         ++ [DbInsert (promotion_row env
                                         (Uuid (randomUUID env (uuid_count (store ed))))
                                         (content e) e)])).
        { apply Forall_app. split; [exact Hl|]. repeat constructor. }
        destruct (db_error env (List.length (db_log (store ed)))); simpl;
          repeat split; try assumption.
        apply Forall_map_if; [|exact Ht]. intros x _. reflexivity.
      * destruct (found_user_id_is_uuid _ _ e Ht Hf Ho) as [_ Hid].
        simpl. repeat split; try assumption.
        apply Forall_app. split; [exact Hp|]. repeat constructor. exact Hid.
    + destruct (find (fun i => id_eqb (img_id i) (drag_id d))
                  (imageEdits (store ed))) as [img|] eqn:Hf; [|kept].
      apply find_some in Hf. destruct Hf as [Hin _].
      assert (Hu : uuid_image img) by exact (proj1 (Forall_forall _ _) Hi img Hin).
      simpl. repeat split; try assumption.
      apply Forall_app. split; [exact Hp|]. repeat constructor. exact Hu.
Qed.

(** X27. Original entries are never persisted.  From the initial editor,
    after any sequence of events, an entry of the store is Original exactly
    when its id is the extraction template (otherwise its id is a UUID),
    every image has a UUID, and no insert, content update, delete,
    position update or image insert ever sent names an extraction-template
    id. *)
Theorem originals_are_never_persisted (env : Env) (evs : list UiEvent) :
  let ed := ui_run env evs initial_editor in
  (forall e, In e (textEdits (store ed)) -> is_original e = template_id (id e))
  /\ (forall img, In img (imageEdits (store ed)) -> template_id (img_id img) = false)
  /\ (forall c, In c (db_log (store ed)) -> keyed_by_uuid c)
  /\ (forall target x y, In (target, x, y) (position_log ed) ->
                         template_id target = false)
  /\ (forall img, In img (image_insert_log ed) -> template_id (img_id img) = false).
Proof.
  intros ed.
  assert (H : forall e, editor_well_tagged e -> editor_well_tagged (ui_run env evs e)).
  { unfold ui_run. induction evs as [|ev evs IH]; intros e He; simpl; [exact He|].
    apply IH. now apply ui_handle_well_tagged. }
  assert (H0 : editor_well_tagged initial_editor).
  { unfold editor_well_tagged, store_well_tagged. simpl. repeat split; constructor. }
  destruct (H initial_editor H0) as [[Ht [Hi Hl]] [Hp Hn]]. fold ed in Ht, Hi, Hl, Hp, Hn.
  repeat split.
  - intros e He. revert e He. now apply Forall_forall.
  - intros img He. revert img He. now apply Forall_forall.
  - intros c Hc. revert c Hc. now apply Forall_forall.
  - intros target x y Hin.
    apply (proj1 (Forall_forall _ _) Hp (target, x, y) Hin).
  - intros img He. revert img He. now apply Forall_forall.
Qed.

(** ** Failed writes, and image upload *)

(** X28. A content edit or a delete that the persistence layer rejects is
    not applied in memory.  When the request comes back with an error,
    [updateEdit] (on an Original or a UserAuthored entry) and [deleteEdit]
    (on a UserAuthored entry) leave the text entries exactly as they were;
    the request was sent, the failure goes to the console and no toast is
    shown. *)
Theorem rejected_write_is_not_applied (env : Env) (st : State) (editId : EditId)
  (e : TextEdit) (c : string) :
  find (has_id editId) (textEdits st) = Some e ->
  db_error env (List.length (db_log st)) = true ->
  (let st' := updateEdit env editId c st in
   textEdits st' = textEdits st
   /\ toasts st' = toasts st
   /\ console st' = console st ++ ["Error updating edit:"]
   /\ List.length (db_log st') = S (List.length (db_log st)))
  /\ (is_original e = false ->
      let st' := deleteEdit env editId st in
      textEdits st' = textEdits st
      /\ toasts st' = toasts st
      /\ console st' = console st ++ ["Error deleting edit:"]
      /\ db_log st' = db_log st ++ [DbDelete editId]).
Proof.
  intros Hf Hdb. split.
  - cbv zeta. rewrite updateEdit_eq; cbv zeta. rewrite Hf.
    destruct (is_original e); cbn [db_log take_uuid]; rewrite Hdb; simpl;
      rewrite length_app; simpl; repeat split; lia.
  - intros Ho. cbv zeta. rewrite deleteEdit_eq; cbv zeta. rewrite Hf, Ho. simpl.
    rewrite Hdb. repeat split.
Qed.

Lemma rejected_write_is_not_applied_witness :
  textEdits (updateEdit
               {| reportId := "report-1"; randomUUID := fun _ => "uuid-9";
                  db_error := fun _ => true; getPage := fun _ => None;
                  pdf_load := None; fetch_image := fun _ => false;
                  embedPng := fun _ => false; embedJpg := fun _ => false;
                  drawText_ok := fun _ => true; save_ok := false |}
               (Uuid "note-1") "changed" sample_state)
  = textEdits sample_state.
Proof.
  exact (proj1 (proj1 (rejected_write_is_not_applied
                  {| reportId := "report-1"; randomUUID := fun _ => "uuid-9";
                     db_error := fun _ => true; getPage := fun _ => None;
                     pdf_load := None; fetch_image := fun _ => false;
                     embedPng := fun _ => false; embedJpg := fun _ => false;
                     drawText_ok := fun _ => true; save_ok := false |}
                  sample_state (Uuid "note-1") user_note "changed"
                  eq_refl eq_refl))).
Defined.

(** X29. An uploaded image lands in the middle of the canvas.  Choosing a
    file appends exactly one image to the list: not deleted, 200 by 200,
    on the current page, carrying the file's data URL, with its centre on
    the centre of the canvas; the insert is sent, image mode is left, and
    the existing images and the text entries are as they were. *)
Theorem uploaded_image_is_centred (env : Env) (imageUrl : string) (rect : DOMRect)
  (ed : Editor) :
  let ed' := handleImageUpload env (Some imageUrl) (Some rect) ed in
  exists img,
    imageEdits (store ed') = imageEdits (store ed) ++ [img]
    /\ image_insert_log ed' = image_insert_log ed ++ [img]
    /\ image_url img = imageUrl
    /\ is_deleted img = false
    /\ img_page_number img = currentPage (store ed)
    /\ width img == 200 /\ height img == 200
    /\ img_position_x img + width img / 2 == rect_width rect / 2
    /\ img_position_y img + height img / 2 == rect_height rect / 2
    /\ isAddingImage ed' = false
    /\ textEdits (store ed') = textEdits (store ed)
    /\ db_log (store ed') = db_log (store ed).
Proof.
  intros ed'. subst ed'. unfold handleImageUpload.
  exists (new_image env imageUrl rect ed). simpl.
  repeat split; try reflexivity; field.
Qed.
